(** * Resume analyzer backend: session registry, SSE fan-out, retry workflow

    A shallow embedding of the backend services of the resume analyzer and
    of the properties of its design document that concern them.

    Sources embedded, function by function:
    - [SSEManager]: services/sseManager.js
      (src/backend/services/sseManager.js, lines 1-337);
    - [SessionManager]: services/sessionManager.js (the same file, from
      line 337);
    - [GeminiService]: services/geminiService.js (src/unnamed/part_000);
    - [Sse]: routes/sse.js (src/backend/routes/sse.js, lines 1-243);
    - [Upload]: the upload-and-process route with [processResumeWorkflow]
      and [analyzeWithRetry] (the same file, lines 243-617);
    - [Process]: routes/process.js (src/backend/routes/process.js).

    Conventions.
    - JavaScript strings are [string]s whose characters are code units
      below 256.
    - Timestamps ([Date] values) are [Z] milliseconds; counters are [nat].
      A [Date] holds a time value of at most 8 640 000 000 000 000 ms in
      magnitude: the [Invalid Date] that [new Date] makes of a number
      outside this range is not represented, and a property that adds to
      a timestamp assumes that the sum is in the range.
    - A [Map] is a [gmap].  Where the code enumerates a [Map], in the
      order of insertion, the embedding enumerates the [gmap], in the
      order of its keys: a list built by such a loop is that of the code
      up to a permutation, and the properties depend on its elements
      only, not on their order.
    - A function that may throw returns a [completion].
    - Objects that the code shares by reference (session objects,
      response objects) have an identity, a [nat], and their state is held
      in a heap.
    - External collaborators (the generative model, the PDF extractor,
      [JSON.parse], [uuid]) are parameters or oracles of the environment;
      the calls of [eventBroadcaster] are recorded as effects.
    - A run is sequential: the steps of other requests are not interleaved
      with it. *)

From Stdlib Require Import ZArith String Ascii List Bool Lia PrimFloat.
From stdpp Require Import base option functions gmap strings list fin_maps.
From Equations Require Import Equations.
Import ListNotations.

Set Warnings "-register-all".
Set Default Proof Using "Type".

Local Open Scope Z_scope.
Local Open Scope string_scope.

(** ** Exceptions *)

Inductive completion (A : Type) : Type :=
| Return (a : A)
| Throw (message : string).
Arguments Return {A} a.
Arguments Throw {A} message.

#[global] Instance completion_ret : MRet completion := fun A a => Return a.

#[global] Instance completion_bind : MBind completion := fun A B k c =>
  match c with
  | Return a => k a
  | Throw m => Throw m
  end.

(** ** JavaScript string primitives used by the services *)

Module JS.

(** [WhiteSpace] and [LineTerminator] code units below 256:
    TAB, LF, VT, FF, CR, SP and NBSP. *)
Definition is_whitespace (c : ascii) : bool :=
  let n := nat_of_ascii c in
  ((9 <=? n)%nat && (n <=? 13)%nat) || (n =? 32)%nat || (n =? 160)%nat.

Fixpoint trimStart (s : string) : string :=
  match s with
  | EmptyString => EmptyString
  | String c s' => if is_whitespace c then trimStart s' else s
  end.

Fixpoint trimEnd (s : string) : string :=
  match s with
  | EmptyString => EmptyString
  | String c s' =>
      match trimEnd s' with
      | EmptyString => if is_whitespace c then EmptyString else String c EmptyString
      | t => String c t
      end
  end.

(** [String.prototype.trim] *)
Definition trim (s : string) : string := trimEnd (trimStart s).

Fixpoint indexOf_from (c : ascii) (s : string) (i : Z) : Z :=
  match s with
  | EmptyString => -1
  | String d s' => if Ascii.eqb d c then i else indexOf_from c s' (i + 1)
  end.

(** [s.indexOf(c)] for a one-character needle; [-1] when absent. *)
Definition indexOf (s : string) (c : ascii) : Z := indexOf_from c s 0.

Fixpoint lastIndexOf_from (c : ascii) (s : string) (i : Z) (found : Z) : Z :=
  match s with
  | EmptyString => found
  | String d s' => lastIndexOf_from c s' (i + 1) (if Ascii.eqb d c then i else found)
  end.

(** [s.lastIndexOf(c)] for a one-character needle; [-1] when absent. *)
Definition lastIndexOf (s : string) (c : ascii) : Z := lastIndexOf_from c s 0 (-1).

(** [s.substring(a, b)]: both indices are clamped to [0, length] and
    swapped when [a > b]. *)
Definition substring (s : string) (a b : Z) : string :=
  let len := Z.of_nat (String.length s) in
  let a' := Z.max 0 (Z.min a len) in
  let b' := Z.max 0 (Z.min b len) in
  let from := Z.min a' b' in
  let to := Z.max a' b' in
  String.substring (Z.to_nat from) (Z.to_nat (to - from)) s.

(** [s.includes(sub)] *)
Fixpoint includes (s sub : string) : bool :=
  String.prefix sub s ||
  match s with
  | EmptyString => false
  | String _ s' => includes s' sub
  end.

End JS.

(** ** JSON values, as produced by [JSON.parse] *)

Inductive json : Type :=
| JNull
| JBool (b : bool)
| JNumber (x : float)
| JString (s : string)
| JArray (items : list json)
| JObject (fields : list (string * json)).

Module Json.

(** Own property lookup in an object literal (keys are distinct). *)
Fixpoint assoc (k : string) (fields : list (string * json)) : option json :=
  match fields with
  | [] => None
  | (k', v) :: rest => if String.eqb k k' then Some v else assoc k rest
  end.

(** [v[k]] for a property name [k] that no prototype defines and that is
    not an index: [None] is [undefined]; reading a property of [null]
    throws a [TypeError]. *)
Definition getProp (v : json) (k : string) : completion (option json) :=
  match v with
  | JNull => Throw "TypeError: Cannot read properties of null"
  | JObject fields => Return (assoc k fields)
  | _ => Return None
  end.

(** [ToBoolean] *)
Definition truthy (v : json) : bool :=
  match v with
  | JNull => false
  | JBool b => b
  | JNumber x => negb (PrimFloat.eqb x 0 || PrimFloat.is_nan x)
  | JString s => negb (String.eqb s "")
  | JArray _ => true
  | JObject _ => true
  end.

Definition truthy_opt (o : option json) : bool :=
  match o with
  | None => false
  | Some v => truthy v
  end.

(** [Array.isArray] *)
Definition isArray (o : option json) : bool :=
  match o with
  | Some (JArray _) => true
  | _ => false
  end.

(** [o.k] where [o] is the (possibly [undefined]) result of a previous
    property read: reading a property of [undefined] throws. *)
Definition getProp_opt (o : option json) (k : string) : completion (option json) :=
  match o with
  | None => Throw "TypeError: Cannot read properties of undefined"
  | Some v => getProp v k
  end.

End Json.

(** ** External collaborators *)

(** An error raised by the generative-AI client: [err_status] is the
    HTTP-like [error.status] ([None] when the property is absent) and
    [err_message] is [error.message]. *)
Record ApiError : Type := {
  err_status : option Z;
  err_message : string
}.

(** What one call of [model.generateContentStream] followed by the
    iteration of [result.stream] does: the chunks delivered, in order, then
    either the end of the stream or an error, and the time it took. *)
Record StreamOutcome : Type := {
  chunks : list string;
  failure : option ApiError;
  elapsed : N
}.

(** The result of [pdfExtractor.extractText]: success, a typed failure,
    or an exception. *)
Inductive ExtractionResult : Type :=
| ExtractionOk (text : string) (textLength pages : Z)
| ExtractionFailed (errorType errorMessage : string)
| ExtractionThrows (errorMessage : string).

Record Env : Type := {
  (** [JSON.parse]: [None] when it throws a [SyntaxError]. *)
  JSON_parse : string -> option json;
  (** whether [process.env.GEMINI_API_KEY] is set *)
  GEMINI_API_KEY : bool;
  (** whether [genAI.getGenerativeModel] returns (rather than throws) for
      a model name *)
  getGenerativeModel : string -> bool;
  (** the outcome of the n-th call of [generateContentStream] of a run
      (the prompt is the same at every attempt) *)
  generateContentStream : nat -> StreamOutcome;
  (** the PDF extractor, by file path, and how long it takes *)
  extractText : string -> ExtractionResult;
  extractElapsed : N
}.

(** ** services/geminiService.js *)

Module GeminiService.

Section WithEnv.
Variable env : Env.

(** The names of [this.modelOptions], in order of preference. *)
Definition modelOptions : list string :=
  ["gemini-2.0-flash"; "gemini-2.5-flash"; "gemini-pro"].

Fixpoint initializeModel_from (options : list string) : completion string :=
  match options with
  | [] => Throw "Failed to initialize any available AI model. Please check your API key and network connection."
  | name :: rest =>
      if getGenerativeModel env name then Return name else initializeModel_from rest
  end.

(** [initializeModel()]: the first model of the list that initializes. *)
Definition initializeModel : completion string := initializeModel_from modelOptions.

(** The service object: its current [model]. *)
Record t : Type := { model : string }.

(** [new GeminiService()] *)
Definition new : completion t :=
  if negb (GEMINI_API_KEY env)
  then Throw "GEMINI_API_KEY environment variable is required"
  else m ← initializeModel; Return {| model := m |}.

(** [reinitializeModel()] *)
Definition reinitializeModel (this : t) : t * bool :=
  match initializeModel with
  | Return m => ({| model := m |}, true)
  | Throw _ => (this, false)
  end.

Definition requiredFields : list string :=
  ["clarity"; "grammar"; "skills"; "improvements"].

Fixpoint check_required (feedback : json) (fields : list string) : completion unit :=
  match fields with
  | [] => Return tt
  | field :: rest =>
      v ← Json.getProp feedback field;
      if negb (Json.truthy_opt v)
      then Throw ("Missing required field: " ++ field)
      else check_required feedback rest
  end.

(** [validateFeedbackStructure(feedback)] *)
Definition validateFeedbackStructure (feedback : json) : completion unit :=
  check_required feedback requiredFields;;
  clarity ← Json.getProp feedback "clarity";
  score ← Json.getProp_opt clarity "score";
  bad ← (if negb (Json.truthy_opt score) then Return true
         else s ← Json.getProp_opt clarity "suggestions"; Return (negb (Json.isArray s)));
  if bad : bool then Throw "Invalid clarity structure" else
  grammar ← Json.getProp feedback "grammar";
  score ← Json.getProp_opt grammar "score";
  bad ← (if negb (Json.truthy_opt score) then Return true
         else c ← Json.getProp_opt grammar "corrections"; Return (negb (Json.isArray c)));
  if bad : bool then Throw "Invalid grammar structure" else
  skills ← Json.getProp feedback "skills";
  relevant ← Json.getProp_opt skills "relevantSkills";
  if negb (Json.isArray relevant) then Throw "Invalid skills structure" else
  improvements ← Json.getProp feedback "improvements";
  if negb (Json.isArray improvements) then Throw "Invalid improvements structure" else
  Return tt.

(** [getFallbackFeedback()] *)
Definition getFallbackFeedback : json :=
  JObject [
    ("clarity", JObject [
       ("score", JNumber 5%float);
       ("suggestions", JArray [JString "Unable to analyze clarity - please try again"]);
       ("strengths", JArray []);
       ("weaknesses", JArray [])]);
    ("grammar", JObject [
       ("score", JNumber 5%float);
       ("corrections", JArray [JString "Unable to analyze grammar - please try again"]);
       ("improvements", JArray [])]);
    ("skills", JObject [
       ("relevantSkills", JArray []);
       ("missingSkills", JArray []);
       ("recommendations", JArray [JString "Unable to analyze skills - please try again"])]);
    ("improvements", JArray [
       JObject [
         ("category", JString "content");
         ("priority", JString "medium");
         ("suggestion", JString "Analysis failed - please try uploading your resume again");
         ("example", JString "Ensure your PDF is not password protected and contains readable text")]])
  ].

(** The [try] block of [parseResponse]. *)
Definition parseResponse_try (response : string) : completion json :=
  let cleanResponse := JS.trim response in
  let jsonStart := JS.indexOf cleanResponse "{" in
  let jsonEnd := JS.lastIndexOf cleanResponse "}" in
  if (jsonStart =? -1)%Z || (jsonEnd =? -1)%Z
  then Throw "No valid JSON found in response"
  else
    let jsonString := JS.substring cleanResponse jsonStart (jsonEnd + 1) in
    match JSON_parse env jsonString with
    | None => Throw "SyntaxError"
    | Some parsed => validateFeedbackStructure parsed;; Return parsed
    end.

(** [parseResponse(response)]: the [catch] clause returns the fallback. *)
Definition parseResponse (response : string) : json :=
  match parseResponse_try response with
  | Return parsed => parsed
  | Throw _ => getFallbackFeedback
  end.

(** The [catch] clause of [analyzeResumeStreaming]: the error rethrown
    for an error of the client. *)
Definition rethrown (error : ApiError) : string :=
  if bool_decide (err_status error = Some 404) then
    "AI model not found. Please check if the model name is correct and available."
  else if bool_decide (err_status error = Some 401) then
    "Unauthorized access to AI service. Please check your API key."
  else if bool_decide (err_status error = Some 429) then
    "Rate limit exceeded. Please try again later."
  else if (match err_status error with Some st => (500 <=? st)%Z | None => false end) then
    "AI service temporarily unavailable. Please try again later."
  else "AI analysis failed: " ++ err_message error.

(** [analyzeResumeStreaming(resumeText, onChunk)] on the outcome of its
    call to the model: the chunks handed to [onChunk], in order, and the
    parsed feedback or the error thrown. *)
Definition analyzeResumeStreaming (outcome : StreamOutcome)
  : list string * completion json :=
  (chunks outcome,
   match failure outcome with
   | None => Return (parseResponse (String.concat "" (chunks outcome)))
   | Some error => Throw (rethrown error)
   end).

End WithEnv.

End GeminiService.

(** ** services/sessionManager.js *)

(** Object identities. *)
Abbreviation loc := nat (only parsing).

(** The nested [fileInfo] object of a session. *)
Record FileInfo : Type := {
  filename : string;
  path : option string
}.

(** A session object.  [expiresAt] is [None] when the property is missing;
    [lastError] is [None] when it is [null] or missing; [fileInfo] is a
    reference to the nested object. *)
Record Session : Type := {
  sessionId : string;
  status : string;
  createdAt : Z;
  updatedAt : Z;
  expiresAt : option Z;
  retryCount : nat;
  lastError : option string;
  extractedText : option string;
  feedback : option json;
  completedAt : option Z;
  fileInfo : option loc
}.

(** An object literal passed as [initialData] or [updateData]: for each
    property that the callers set, [None] when the literal does not have it. *)
Record Partial : Type := {
  set_sessionId : option string;
  set_status : option string;
  set_expiresAt : option Z;
  set_retryCount : option nat;
  set_lastError : option (option string);
  set_extractedText : option string;
  set_feedback : option json;
  set_completedAt : option Z;
  set_fileInfo : option loc
}.

Definition nothing : Partial :=
  {| set_sessionId := None; set_status := None; set_expiresAt := None;
     set_retryCount := None; set_lastError := None; set_extractedText := None;
     set_feedback := None; set_completedAt := None; set_fileInfo := None |}.

(** [{ ...base, ...data }] *)
Definition spread (base : Session) (data : Partial) : Session :=
  {| sessionId := default (sessionId base) (set_sessionId data);
     status := default (status base) (set_status data);
     createdAt := createdAt base;
     updatedAt := updatedAt base;
     expiresAt := match set_expiresAt data with Some e => Some e | None => expiresAt base end;
     retryCount := default (retryCount base) (set_retryCount data);
     lastError := default (lastError base) (set_lastError data);
     extractedText := match set_extractedText data with Some t => Some t | None => extractedText base end;
     feedback := match set_feedback data with Some f => Some f | None => feedback base end;
     completedAt := match set_completedAt data with Some c => Some c | None => completedAt base end;
     fileInfo := match set_fileInfo data with Some f => Some f | None => fileInfo base end |}.

Definition with_sessionId (id : string) (s : Session) : Session :=
  {| sessionId := id; status := status s; createdAt := createdAt s;
     updatedAt := updatedAt s; expiresAt := expiresAt s;
     retryCount := retryCount s; lastError := lastError s;
     extractedText := extractedText s; feedback := feedback s;
     completedAt := completedAt s; fileInfo := fileInfo s |}.

Definition with_updatedAt (now : Z) (s : Session) : Session :=
  {| sessionId := sessionId s; status := status s; createdAt := createdAt s;
     updatedAt := now; expiresAt := expiresAt s;
     retryCount := retryCount s; lastError := lastError s;
     extractedText := extractedText s; feedback := feedback s;
     completedAt := completedAt s; fileInfo := fileInfo s |}.

Module SessionManager.

(** The manager: [sessions] is the [Map] from session id to session
    object; [heap] holds the session objects and [files] the nested
    [fileInfo] objects. *)
Record t : Type := {
  sessions : gmap string loc;
  heap : gmap loc Session;
  files : gmap loc FileInfo
}.

(** 60 minutes *)
Definition defaultExpirationTime : Z := 60 * 60 * 1000.

Definition new : t := {| sessions := ∅; heap := ∅; files := ∅ |}.

Definition set_sessions (m : gmap string loc) (this : t) : t :=
  {| sessions := m; heap := heap this; files := files this |}.

(** Allocation of a new session object. *)
Definition alloc (s : Session) (this : t) : t * loc :=
  let l := fresh (dom (heap this)) in
  ({| sessions := sessions this; heap := <[l := s]> (heap this); files := files this |}, l).

(** [this.sessions.get(sessionId)] *)
Definition get (this : t) (sessionId : string) : option Session :=
  l ← sessions this !! sessionId; heap this !! l.

(** [!sessionId || typeof sessionId !== "string"] for a string. *)
Definition invalidId (sessionId : string) : bool := String.eqb sessionId "".

(** [isSessionExpired(session)] at time [now] *)
Definition isSessionExpired (now : Z) (session : option Session) : bool :=
  match session with
  | None => true
  | Some s =>
      match expiresAt s with
      | None => true
      | Some e => (e <? now)%Z
      end
  end.

(** [createSession(initialData)]; [uuid] is the identifier that [uuidv4()]
    would return. *)
Definition createSession (now : Z) (uuid : string) (initialData : Partial) (this : t)
  : t * string :=
  let sessionId :=
    match set_sessionId initialData with
    | Some id => if String.eqb id "" then uuid else id
    | None => uuid
    end in
  let session :=
    spread {| sessionId := sessionId; status := "created"; createdAt := now;
              updatedAt := now; expiresAt := Some (now + defaultExpirationTime);
              retryCount := 0; lastError := None; extractedText := None;
              feedback := None; completedAt := None; fileInfo := None |}
           initialData in
  let '(this, l) := alloc session this in
  (set_sessions (<[sessionId := l]> (sessions this)) this, sessionId).

(** [deleteSession(sessionId)] *)
Definition deleteSession (sessionId : string) (this : t) : t * bool :=
  if invalidId sessionId then (this, false)
  else (set_sessions (delete sessionId (sessions this)) this,
        bool_decide (is_Some (sessions this !! sessionId))).

(** [getSession(sessionId)]: the copy returned is a new object; the
    result is its identity and contents, or [None] for [null]. *)
Definition getSession (now : Z) (sessionId : string) (this : t)
  : t * option (loc * Session) :=
  if invalidId sessionId then (this, None)
  else
    match get this sessionId with
    | None => (this, None)
    | Some session =>
        if isSessionExpired now (Some session)
        then (fst (deleteSession sessionId this), None)
        else let '(this, l) := alloc session this in (this, Some (l, session))
    end.

(** [updateSession(sessionId, updateData)] *)
Definition updateSession (now : Z) (sessionId : string) (updateData : Partial) (this : t)
  : t * bool :=
  if invalidId sessionId then (this, false)
  else
    match get this sessionId with
    | None => (this, false)
    | Some session =>
        if isSessionExpired now (Some session) then (this, false)
        else
          let updatedSession :=
            with_sessionId sessionId (with_updatedAt now (spread session updateData)) in
          let '(this, l) := alloc updatedSession this in
          (set_sessions (<[sessionId := l]> (sessions this)) this, true)
    end.

(** [updateStatus(sessionId, status)] *)
Definition updateStatus (now : Z) (sessionId status : string) (this : t) : t * bool :=
  updateSession now sessionId
    {| set_sessionId := None; set_status := Some status; set_expiresAt := None;
       set_retryCount := None; set_lastError := None; set_extractedText := None;
       set_feedback := None; set_completedAt := None; set_fileInfo := None |} this.

(** [sessionExists(sessionId)] *)
Definition sessionExists (now : Z) (sessionId : string) (this : t) : t * bool :=
  if invalidId sessionId then (this, false)
  else
    match get this sessionId with
    | None => (this, false)
    | Some session =>
        if isSessionExpired now (Some session)
        then (fst (deleteSession sessionId this), false)
        else (this, true)
    end.

(** [extendSession(sessionId, additionalTime)].  The new expiry is
    [new Date(currentExpiration.getTime() + additionalTime)], here the
    sum: this is what the code stores when [additionalTime] is an integer
    number and the sum is a time value of the [Date] range.  Outside this
    range the code stores an [Invalid Date], on which every later
    [isSessionExpired] throws; the embedding does not represent it. *)
Definition extendSession (now : Z) (sessionId : string) (additionalTime : Z) (this : t)
  : t * bool :=
  match get this sessionId with
  | None => (this, false)
  | Some session =>
      if isSessionExpired now (Some session) then (this, false)
      else
        match expiresAt session with
        | None => (this, false)
        | Some currentExpiration =>
            updateSession now sessionId
              {| set_sessionId := None; set_status := None;
                 set_expiresAt := Some (currentExpiration + additionalTime);
                 set_retryCount := None; set_lastError := None;
                 set_extractedText := None; set_feedback := None;
                 set_completedAt := None; set_fileInfo := None |} this
        end
  end.

(** [cleanupExpiredSessions()]: the sweep. *)
Definition cleanupExpiredSessions (now : Z) (this : t) : t * nat :=
  let live := filter (λ kv, isSessionExpired now (heap this !! kv.2) = false) (sessions this) in
  (set_sessions live this, (size (sessions this) - size live)%nat).

(** One iteration of the loop of [getActiveSessions]: the copy of a
    session that has not expired is pushed on the result. *)
Definition active_entry (now : Z) (acc : t * list (loc * Session)) (entry : string * loc)
  : t * list (loc * Session) :=
  let '(this, activeSessions) := acc in
  match heap this !! entry.2 with
  | Some session =>
      if isSessionExpired now (Some session) then acc
      else let '(this, l) := alloc session this in (this, (activeSessions ++ [(l, session)])%list)
  | None => acc
  end.

(** [getActiveSessions()]: the copies are listed in the order in which the
    map is enumerated, which is the order of the keys here and the order
    of insertion in the code: the list is that of the code up to a
    permutation. *)
Definition getActiveSessions (now : Z) (this : t) : t * list (loc * Session) :=
  fold_left (active_entry now) (map_to_list (sessions this)) (this, []).

(** [getSessionCount()] *)
Definition getSessionCount (now : Z) (this : t) : nat :=
  fold_left (λ count entry,
               if isSessionExpired now (heap this !! entry.2) then count else S count)
    (map_to_list (sessions this)) 0%nat.

(** [clearAllSessions()] *)
Definition clearAllSessions (this : t) : t := set_sessions ∅ this.

(** The object returned by [getStats()]. *)
Record Stats : Type := {
  total : nat;
  active : nat;
  expired : nat
}.

(** [getStats()] *)
Definition getStats (now : Z) (this : t) : Stats :=
  let totalSessions := size (sessions this) in
  let activeSessions := getSessionCount now this in
  {| total := totalSessions; active := activeSessions;
     expired := (totalSessions - activeSessions)%nat |}.

End SessionManager.

(** ** services/sseManager.js *)

(** Property values of the event payloads. *)
Inductive value : Type :=
| VString (s : string)
| VTime (t : Z)
| VNumber (n : nat)
| VBool (b : bool)
| VJson (j : json).

(** What [res.write] received: [event: <type>\ndata: <JSON of data>\n\n]. *)
Record Frame : Type := {
  frame_event : string;
  frame_data : gmap string value
}.

(** The state of an Express response object.  [write_throws] says whether
    [res.write] throws; [written] is the stream written so far. *)
Record Response : Type := {
  destroyed : bool;
  finished : bool;
  headersSent : bool;
  write_throws : bool;
  written : list Frame
}.

Module Res.

(** [res.writeHead(200, headers)] *)
Definition writeHead (r : Response) : completion Response :=
  if headersSent r then Throw "ERR_HTTP_HEADERS_SENT"
  else Return {| destroyed := destroyed r; finished := finished r; headersSent := true;
                 write_throws := write_throws r; written := written r |}.

(** [res.write(eventString)] *)
Definition write (f : Frame) (r : Response) : completion Response :=
  if write_throws r then Throw "write failed"
  else Return {| destroyed := destroyed r; finished := finished r; headersSent := true;
                 write_throws := write_throws r; written := (written r ++ [f])%list |}.

(** [res.end()] *)
Definition end_ (r : Response) : Response :=
  {| destroyed := destroyed r; finished := true; headersSent := true;
     write_throws := write_throws r; written := written r |}.

(** [res.destroyed || res.finished] *)
Definition closed (r : Response) : bool := destroyed r || finished r.

End Res.

Module SSEManager.

(** The manager: [connections] maps a session id to its [Set] of response
    objects, in insertion order and without duplicates; [responses] gives
    the state of every response object. *)
Record t : Type := {
  connections : gmap string (list loc);
  responses : loc -> Response
}.

Definition new (responses : loc -> Response) : t :=
  {| connections := ∅; responses := responses |}.

Definition set_connections (m : gmap string (list loc)) (this : t) : t :=
  {| connections := m; responses := responses this |}.

Definition set_response (res : loc) (r : Response) (this : t) : t :=
  {| connections := connections this; responses := <[res := r]> (responses this) |}.

(** [set.add(res)] *)
Definition set_add (res : loc) (set : list loc) : list loc :=
  if bool_decide (res ∈ set) then set else (set ++ [res])%list.

(** [set.delete(res)] *)
Definition set_delete (res : loc) (set : list loc) : list loc :=
  filter (λ r, r ≠ res) set.

(** [sendEvent(res, eventType, data)]: its own [try]/[catch] swallows the
    error of [res.write]. *)
Definition sendEvent (res : loc) (eventType : string) (data : gmap string value) (this : t)
  : completion t :=
  let r := responses this res in
  if Res.closed r then Return this
  else
    match Res.write {| frame_event := eventType; frame_data := data |} r with
    | Return r' => Return (set_response res r' this)
    | Throw _ => Return this
    end.

(** [removeConnection(sessionId, res)] *)
Definition removeConnection (sessionId : string) (res : loc) (this : t) : t :=
  if String.eqb sessionId "" then this
  else
    match connections this !! sessionId with
    | Some sessionConnections =>
        let remaining := set_delete res sessionConnections in
        if (length remaining =? 0)%nat
        then set_connections (delete sessionId (connections this)) this
        else set_connections (<[sessionId := remaining]> (connections this)) this
    | None => this
    end.

(** [createConnection(sessionId, res)]; an error of [res.writeHead]
    propagates to the caller. *)
Definition createConnection (now : Z) (sessionId : string) (res : loc) (this : t)
  : completion (t * bool) :=
  if String.eqb sessionId "" then Return (this, false)
  else
    r ← Res.writeHead (responses this res);
    let this := set_response res r this in
    this ← sendEvent res "connected"
             {[ "sessionId" := VString sessionId; "timestamp" := VTime now;
                "message" := VString "SSE connection established" ]} this;
    let sessionConnections := default [] (connections this !! sessionId) in
    Return (set_connections (<[sessionId := set_add res sessionConnections]> (connections this)) this,
            true).

(** The body of the loop [for (const res of sessionConnections)] shared by
    [broadcastToSession] and [sendHeartbeat]: a response that is neither
    destroyed nor finished is sent the event, any other is pushed on
    [deadConnections], as is one for which [sendEvent] throws. *)
Definition deliver (eventType : string) (data : gmap string value) (res : loc)
    (acc : t * list loc) : t * list loc :=
  let '(this, deadConnections) := acc in
  if negb (Res.closed (responses this res)) then
    match sendEvent res eventType data this with
    | Return this' => (this', deadConnections)
    | Throw _ => (this, (deadConnections ++ [res])%list)
    end
  else (this, (deadConnections ++ [res])%list).

Definition deliver_all (eventType : string) (data : gmap string value)
    (sessionConnections : list loc) (this : t) : t * list loc :=
  fold_left (λ acc res, deliver eventType data res acc) sessionConnections (this, []).

(** [deadConnections.forEach(res => this.removeConnection(sessionId, res))] *)
Definition remove_all (sessionId : string) (deadConnections : list loc) (this : t) : t :=
  fold_left (λ this res, removeConnection sessionId res this) deadConnections this.

(** [broadcastToSession(sessionId, eventType, data)] *)
Definition broadcastToSession (now : Z) (sessionId eventType : string)
    (data : gmap string value) (this : t) : t :=
  if String.eqb sessionId "" || String.eqb eventType "" then this
  else
    match connections this !! sessionId with
    | None => this
    | Some sessionConnections =>
        if (length sessionConnections =? 0)%nat then this
        else
          let eventData :=
            data ∪ {[ "sessionId" := VString sessionId; "timestamp" := VTime now ]} in
          let '(this, deadConnections) := deliver_all eventType eventData sessionConnections this in
          remove_all sessionId deadConnections this
    end.

(** One iteration of the loop of [sendHeartbeat] over the entries of the map. *)
Definition heartbeat_entry (now : Z) (this : t) (entry : string * list loc) : t :=
  let '(sessionId, sessionConnections) := entry in
  let heartbeatData := {[ "timestamp" := VTime now; "type" := VString "heartbeat" ]} in
  let '(this, deadConnections) := deliver_all "heartbeat" heartbeatData sessionConnections this in
  remove_all sessionId deadConnections this.

(** [sendHeartbeat()].  The sessions are visited in the order of the keys,
    in the code in the order of insertion. *)
Definition sendHeartbeat (now : Z) (this : t) : t :=
  fold_left (heartbeat_entry now) (map_to_list (connections this)) this.

(** [getConnectionCount(sessionId)] *)
Definition getConnectionCount (this : t) (sessionId : string) : nat :=
  match connections this !! sessionId with
  | Some sessionConnections => length sessionConnections
  | None => 0%nat
  end.

(** [getTotalConnectionCount()] *)
Definition getTotalConnectionCount (this : t) : nat :=
  map_fold (λ _ sessionConnections total, (total + length sessionConnections)%nat) 0%nat
    (connections this).

(** The body of the loop of [closeSessionConnections]. *)
Definition close_one (sessionId : string) (this : t) (res : loc) : t :=
  if negb (Res.closed (responses this res)) then
    match sendEvent res "session_closed"
            {[ "sessionId" := VString sessionId;
               "message" := VString "Session has been closed" ]} this with
    | Return this' => set_response res (Res.end_ (responses this' res)) this'
    | Throw _ => this
    end
  else this.

(** [closeSessionConnections(sessionId)] *)
Definition closeSessionConnections (sessionId : string) (this : t) : t :=
  match connections this !! sessionId with
  | None => this
  | Some sessionConnections =>
      let this := fold_left (close_one sessionId) sessionConnections this in
      set_connections (delete sessionId (connections this)) this
  end.

(** One iteration of the loop of [cleanupDeadConnections]. *)
Definition cleanup_entry (acc : t * nat) (entry : string * list loc) : t * nat :=
  let '(this, cleanedCount) := acc in
  let '(sessionId, sessionConnections) := entry in
  let deadConnections := filter (λ res, Res.closed (responses this res) = true) sessionConnections in
  let remaining := fold_left (λ set res, set_delete res set) deadConnections sessionConnections in
  let cleanedCount := (cleanedCount + length deadConnections)%nat in
  if (length remaining =? 0)%nat
  then (set_connections (delete sessionId (connections this)) this, cleanedCount)
  else (set_connections (<[sessionId := remaining]> (connections this)) this, cleanedCount).

(** [cleanupDeadConnections()], with the count that it logs. *)
Definition cleanupDeadConnections (this : t) : t * nat :=
  fold_left cleanup_entry (map_to_list (connections this)) (this, 0%nat).

(** [shutdown()].  The sessions are closed in the order of the keys, in
    the code in the order of insertion. *)
Definition shutdown (this : t) : t :=
  fold_left (λ this entry, closeSessionConnections entry.1 this)
    (map_to_list (connections this)) this.

(** The object returned by [getStats()]. *)
Record Stats : Type := {
  totalSessions : nat;
  totalConnections : nat;
  sessionsWithConnections : list (string * nat)
}.

(** [getStats()].  The pairs of [sessionsWithConnections] are listed in the
    order of the keys, in the code in the order of insertion. *)
Definition getStats (this : t) : Stats :=
  {| totalSessions := size (connections this);
     totalConnections := getTotalConnectionCount this;
     sessionsWithConnections :=
       map (λ sessionId, (sessionId, getConnectionCount this sessionId))
         (map_to_list (connections this)).*1 |}.

End SSEManager.

(** ** The world of a workflow run *)

(** The [details] object of [eventBroadcaster.broadcastError]. *)
Record ErrorDetails : Type := {
  code : string;
  stage : string;
  retryable : bool;
  details_retryCount : option nat
}.

(** The observable effects of a run: the calls of the methods of
    [eventBroadcaster] (services/eventBroadcaster.js, whose calls are
    recorded as they are made), the timers awaited and the calls of the
    collaborators. *)
Inductive Effect : Type :=
| broadcastExtractionStarted (sessionId : string)
| broadcastExtractionCompleted (sessionId text : string) (textLength pageCount : Z)
| broadcastAnalysisStarted (sessionId : string)
| broadcastRetryStarted (sessionId : string) (retryCount : nat) (stage : option string)
| broadcastAnalysisStreaming (sessionId chunk : string)
| broadcastAnalysisCompleted (sessionId : string) (feedback : json)
| broadcastError (sessionId message : string) (details : ErrorDetails)
| setTimeout (delay : Z)
| callExtractText (filePath : string)
| callGenerateContentStream (model : string).

(** [manager] is the session manager, [clock] the current time, [calls]
    the number of calls of the model made so far, and [effects] the
    effects so far, oldest first. *)
Record World : Type := {
  manager : SessionManager.t;
  clock : Z;
  calls : nat;
  effects : list Effect
}.

Module Run.

(** [sessionManager.updateSession(sessionId, updateData)], result ignored *)
Definition updateSession (sessionId : string) (updateData : Partial) (w : World) : World :=
  {| manager := fst (SessionManager.updateSession (clock w) sessionId updateData (manager w));
     clock := clock w; calls := calls w; effects := effects w |}.

Definition emit (e : Effect) (w : World) : World :=
  {| manager := manager w; clock := clock w; calls := calls w;
     effects := (effects w ++ [e])%list |}.

(** [await new Promise(resolve => setTimeout(resolve, delay))] *)
Definition sleep (delay : Z) (w : World) : World :=
  {| manager := manager w; clock := clock w + delay; calls := calls w;
     effects := (effects w ++ [setTimeout delay])%list |}.

(** A call of the model through [geminiService.analyzeResumeStreaming]:
    the outcome of the call, and the world after it. *)
Definition generate (env : Env) (service : GeminiService.t) (w : World)
  : StreamOutcome * World :=
  let outcome := generateContentStream env (calls w) in
  (outcome,
   {| manager := manager w; clock := clock w + Z.of_N (elapsed outcome);
      calls := S (calls w);
      effects := (effects w ++ [callGenerateContentStream (GeminiService.model service)])%list |}).

(** [await pdfExtractor.extractText(filePath)] *)
Definition extract (env : Env) (filePath : string) (w : World) : ExtractionResult * World :=
  (extractText env filePath,
   {| manager := manager w; clock := clock w + Z.of_N (extractElapsed env);
      calls := calls w; effects := (effects w ++ [callExtractText filePath])%list |}).

(** [sessionManager.getSession(sessionId)] *)
Definition getSession (sessionId : string) (w : World) : World * option (loc * Session) :=
  let '(m, result) := SessionManager.getSession (clock w) sessionId (manager w) in
  ({| manager := m; clock := clock w; calls := calls w; effects := effects w |}, result).

(** The session object stored for [sessionId]. *)
Definition session (w : World) (sessionId : string) : option Session :=
  SessionManager.get (manager w) sessionId.

End Run.

(** ** routes/upload.js: the upload-and-process workflow *)

Module Upload.

Definition maxRetries : nat := 3.

(** [Math.min(1000 * Math.pow(2, retryCount - 1), 10000)], for
    [retryCount >= 1]: the power is exact in floating point as long as the
    product is below the cap. *)
Definition delay (retryCount : nat) : Z :=
  Z.min (1000 * 2 ^ (Z.of_nat retryCount - 1)) 10000.

(** The [try] block of [analyzeWithRetry]: the world after it and the
    message of the error caught, if any. *)
Definition attempt (env : Env) (sessionId : string) (geminiService : GeminiService.t)
    (retryCount : nat) (w : World) : World * option string :=
  let w :=
    if (0 <? retryCount)%nat then
      let w := Run.updateSession sessionId
        {| set_sessionId := None; set_status := Some "retrying"; set_expiresAt := None;
           set_retryCount := Some retryCount; set_lastError := None;
           set_extractedText := None; set_feedback := None; set_completedAt := None;
           set_fileInfo := None |} w in
      let w := Run.emit (broadcastRetryStarted sessionId retryCount (Some "analysis")) w in
      Run.sleep (delay retryCount) w
    else
      let w := Run.updateSession sessionId
        {| set_sessionId := None; set_status := Some "analyzing"; set_expiresAt := None;
           set_retryCount := None; set_lastError := None;
           set_extractedText := None; set_feedback := None; set_completedAt := None;
           set_fileInfo := None |} w in
      Run.emit (broadcastAnalysisStarted sessionId) w in
  let '(outcome, w) := Run.generate env geminiService w in
  let '(chunks, result) := GeminiService.analyzeResumeStreaming env outcome in
  let w := fold_left (λ w chunk, Run.emit (broadcastAnalysisStreaming sessionId chunk) w) chunks w in
  match result with
  | Return feedback =>
      let w := Run.updateSession sessionId
        {| set_sessionId := None; set_status := Some "completed"; set_expiresAt := None;
           set_retryCount := None; set_lastError := None;
           set_extractedText := None; set_feedback := Some feedback;
           set_completedAt := Some (clock w); set_fileInfo := None |} w in
      (Run.emit (broadcastAnalysisCompleted sessionId feedback) w, None)
  | Throw message => (w, Some message)
  end.

(** [isRetryableError] of the [catch] clause *)
Definition isRetryableError (message : string) : bool :=
  negb (JS.includes message "model not found" ||
        JS.includes message "Unauthorized" ||
        JS.includes message "API key").

(** The last branch of the [catch] clause: "max retries exceeded or
    non-retryable error". *)
Definition giveUp (sessionId message : string) (retryCount : nat) (w : World) : World :=
  let w := Run.updateSession sessionId
    {| set_sessionId := None; set_status := Some "error"; set_expiresAt := None;
       set_retryCount := Some (retryCount + 1)%nat; set_lastError := Some (Some message);
       set_extractedText := None; set_feedback := None; set_completedAt := None;
       set_fileInfo := None |} w in
  Run.emit (broadcastError sessionId message
              {| code := "AI_ANALYSIS_FAILED"; stage := "analysis";
                 retryable := isRetryableError message;
                 details_retryCount := Some (retryCount + 1)%nat |}) w.

(** [analyzeWithRetry(sessionId, resumeText, geminiService, retryCount)] *)
Equations? analyzeWithRetry (env : Env) (sessionId : string)
    (geminiService : GeminiService.t) (retryCount : nat) (w : World) : World
    by wf (maxRetries - retryCount)%nat lt :=
analyzeWithRetry env sessionId geminiService retryCount w
  with attempt env sessionId geminiService retryCount w => {
  | (w1, None) => w1
  | (w1, Some message) =>
      let reinit :=
        if JS.includes message "model not found"
        then Some (GeminiService.reinitializeModel env geminiService)
        else None in
      match reinit, lt_dec retryCount maxRetries with
      | Some (geminiService', true), left _ =>
          analyzeWithRetry env sessionId geminiService' (S retryCount) w1
      | _, further =>
          let geminiService := match reinit with Some (s, _) => s | None => geminiService end in
          match isRetryableError message, further with
          | true, left _ => analyzeWithRetry env sessionId geminiService (S retryCount) w1
          | _, _ => giveUp sessionId message retryCount w1
          end
      end }.
Proof. all: unfold maxRetries in *; lia. Qed.

(** [processResumeWorkflow(sessionId, file)], for the [file.path] of the
    upload. *)
Definition processResumeWorkflow (env : Env) (sessionId filePath : string) (w : World) : World :=
  match GeminiService.new env with
  | Throw _ =>
      let w := Run.updateSession sessionId
        {| set_sessionId := None; set_status := Some "error"; set_expiresAt := None;
           set_retryCount := None;
           set_lastError := Some (Some "AI service initialization failed");
           set_extractedText := None; set_feedback := None; set_completedAt := None;
           set_fileInfo := None |} w in
      Run.emit (broadcastError sessionId "AI service initialization failed"
                  {| code := "AI_INIT_ERROR"; stage := "initialization";
                     retryable := false; details_retryCount := None |}) w
  | Return geminiService =>
      let w := Run.updateSession sessionId
        {| set_sessionId := None; set_status := Some "extracting"; set_expiresAt := None;
           set_retryCount := None; set_lastError := None;
           set_extractedText := None; set_feedback := None; set_completedAt := None;
           set_fileInfo := None |} w in
      let w := Run.emit (broadcastExtractionStarted sessionId) w in
      let '(extractionResult, w) := Run.extract env filePath w in
      match extractionResult with
      | ExtractionFailed errorType errorMessage =>
          let w := Run.updateSession sessionId
            {| set_sessionId := None; set_status := Some "error"; set_expiresAt := None;
               set_retryCount := None; set_lastError := Some (Some errorMessage);
               set_extractedText := None; set_feedback := None; set_completedAt := None;
               set_fileInfo := None |} w in
          Run.emit (broadcastError sessionId errorMessage
                      {| code := errorType; stage := "extraction";
                         retryable := false; details_retryCount := None |}) w
      | ExtractionOk text textLength pages =>
          let w := Run.updateSession sessionId
            {| set_sessionId := None; set_status := Some "extracted"; set_expiresAt := None;
               set_retryCount := None; set_lastError := None;
               set_extractedText := Some text; set_feedback := None; set_completedAt := None;
               set_fileInfo := None |} w in
          let w := Run.emit (broadcastExtractionCompleted sessionId text textLength pages) w in
          analyzeWithRetry env sessionId geminiService 0 w
      | ExtractionThrows errorMessage =>
          let w := Run.updateSession sessionId
            {| set_sessionId := None; set_status := Some "error"; set_expiresAt := None;
               set_retryCount := None; set_lastError := Some (Some errorMessage);
               set_extractedText := None; set_feedback := None; set_completedAt := None;
               set_fileInfo := None |} w in
          Run.emit (broadcastError sessionId errorMessage
                      {| code := "WORKFLOW_ERROR"; stage := "processing";
                         retryable := true; details_retryCount := None |}) w
      end
  end.

End Upload.

(** An HTTP response of a route: its status, and the [code], [success] and
    [retryCount] properties of its JSON body. *)
Record HttpResponse : Type := {
  http_status : nat;
  http_code : option string;
  http_success : bool;
  http_retryCount : option nat
}.

(** ** routes/process.js *)

Module Process.

Definition maxRetries : nat := 3.

(** [Math.min(1000 * Math.pow(2, retryCount - 1), 10000)] *)
Definition delay (retryCount : nat) : Z :=
  Z.min (1000 * 2 ^ (Z.of_nat retryCount - 1)) 10000.

(** The [try] block of [analyzeWithRetry]. *)
Definition attempt (env : Env) (sessionId : string) (geminiService : GeminiService.t)
    (retryCount : nat) (w : World) : World * option string :=
  let w :=
    if (0 <? retryCount)%nat then
      let w := Run.emit (broadcastRetryStarted sessionId retryCount (Some "analysis")) w in
      Run.sleep (delay retryCount) w
    else Run.emit (broadcastAnalysisStarted sessionId) w in
  let '(outcome, w) := Run.generate env geminiService w in
  let '(chunks, result) := GeminiService.analyzeResumeStreaming env outcome in
  let w := fold_left (λ w chunk, Run.emit (broadcastAnalysisStreaming sessionId chunk) w) chunks w in
  match result with
  | Return feedback => (Run.emit (broadcastAnalysisCompleted sessionId feedback) w, None)
  | Throw message => (w, Some message)
  end.

(** [analyzeWithRetry(sessionId, resumeText, geminiService, retryCount)] *)
Equations? analyzeWithRetry (env : Env) (sessionId : string)
    (geminiService : GeminiService.t) (retryCount : nat) (w : World) : World
    by wf (maxRetries - retryCount)%nat lt :=
analyzeWithRetry env sessionId geminiService retryCount w
  with attempt env sessionId geminiService retryCount w => {
  | (w1, None) => w1
  | (w1, Some message) =>
      match lt_dec retryCount maxRetries with
      | left _ => analyzeWithRetry env sessionId geminiService (S retryCount) w1
      | right _ =>
          Run.emit (broadcastError sessionId "AI analysis failed after multiple attempts"
                      {| code := "AI_ANALYSIS_FAILED"; stage := "analysis";
                         retryable := false;
                         details_retryCount := Some (retryCount + 1)%nat |}) w1
      end }.
Proof. unfold maxRetries in *; lia. Qed.

(** [session.fileInfo?.path || `backend/uploads/${session.fileInfo?.filename}`] *)
Definition filePathOf (w : World) (session : Session) : string :=
  let info := l ← fileInfo session; SessionManager.files (manager w) !! l in
  match info ≫= path with
  | Some p => if String.eqb p "" then "backend/uploads/" ++ from_option filename "undefined" info else p
  | None => "backend/uploads/" ++ from_option filename "undefined" info
  end.

(** [processResumeWorkflow(sessionId, session)] *)
Definition processResumeWorkflow (env : Env) (sessionId : string) (session : Session)
    (w : World) : World :=
  match GeminiService.new env with
  | Throw _ =>
      Run.emit (broadcastError sessionId "AI service initialization failed"
                  {| code := "AI_INIT_ERROR"; stage := "initialization";
                     retryable := false; details_retryCount := None |}) w
  | Return geminiService =>
      let w := Run.emit (broadcastExtractionStarted sessionId) w in
      let '(extractionResult, w) := Run.extract env (filePathOf w session) w in
      match extractionResult with
      | ExtractionFailed errorType errorMessage =>
          Run.emit (broadcastError sessionId errorMessage
                      {| code := errorType; stage := "extraction";
                         retryable := false; details_retryCount := None |}) w
      | ExtractionOk text textLength pages =>
          let w := Run.emit (broadcastExtractionCompleted sessionId text textLength pages) w in
          analyzeWithRetry env sessionId geminiService 0 w
      | ExtractionThrows errorMessage =>
          Run.emit (broadcastError sessionId errorMessage
                      {| code := "WORKFLOW_ERROR"; stage := "processing";
                         retryable := true; details_retryCount := None |}) w
      end
  end.

(** [POST /api/process/:sessionId/retry]: the response, and the world
    once the workflow that the handler starts has run. *)
Definition retry (env : Env) (sessionId : string) (w : World) : World * HttpResponse :=
  let '(w, found) := Run.getSession sessionId w in
  match found with
  | None =>
      (w, {| http_status := 404; http_code := Some "SESSION_NOT_FOUND";
             http_success := false; http_retryCount := None |})
  | Some (_, session) =>
      let w := Run.updateSession sessionId
        {| set_sessionId := None; set_status := Some "retrying"; set_expiresAt := None;
           set_retryCount := Some (retryCount session + 1)%nat; set_lastError := Some None;
           set_extractedText := None; set_feedback := None; set_completedAt := None;
           set_fileInfo := None |} w in
      (processResumeWorkflow env sessionId session w,
       {| http_status := 200; http_code := None; http_success := true;
          http_retryCount := Some (retryCount session + 1)%nat |})
  end.

(** [POST /api/process/:sessionId]: the response, and the world once the
    workflow that the handler starts has run. *)
Definition start (env : Env) (sessionId : string) (w : World) : World * HttpResponse :=
  let '(w, found) := Run.getSession sessionId w in
  match found with
  | None =>
      (w, {| http_status := 404; http_code := Some "SESSION_NOT_FOUND";
             http_success := false; http_retryCount := None |})
  | Some (_, session) =>
      (processResumeWorkflow env sessionId session w,
       {| http_status := 200; http_code := None; http_success := true;
          http_retryCount := None |})
  end.

End Process.

(** ** routes/sse.js *)

Module Sse.

(** [POST /api/events/:sessionId/retry] *)
Definition retry (sessionId : string) (w : World) : World * HttpResponse :=
  if String.eqb sessionId "" then
    (w, {| http_status := 400; http_code := Some "INVALID_SESSION_ID";
           http_success := false; http_retryCount := None |})
  else
    let '(w, found) := Run.getSession sessionId w in
    match found with
    | None =>
        (w, {| http_status := 404; http_code := Some "SESSION_NOT_FOUND";
               http_success := false; http_retryCount := None |})
    | Some (_, session) =>
        if negb (String.eqb (status session) "error") then
          (w, {| http_status := 400; http_code := Some "INVALID_SESSION_STATE";
                 http_success := false; http_retryCount := None |})
        else
          let newRetryCount := (retryCount session + 1)%nat in
          if (3 <? newRetryCount)%nat then
            (w, {| http_status := 400; http_code := Some "MAX_RETRIES_EXCEEDED";
                   http_success := false; http_retryCount := None |})
          else
            let w := Run.updateSession sessionId
              {| set_sessionId := None; set_status := Some "retrying"; set_expiresAt := None;
                 set_retryCount := Some newRetryCount; set_lastError := Some None;
                 set_extractedText := None; set_feedback := None; set_completedAt := None;
                 set_fileInfo := None |} w in
            let w := Run.emit (broadcastRetryStarted sessionId newRetryCount None) w in
            (w, {| http_status := 200; http_code := None; http_success := true;
                   http_retryCount := Some newRetryCount |})
    end.

(** The data of the event sent on connection: the result of a session
    that has completed with a feedback, the current status of any other.
    [toISOString] renders the dates of the nested [sessionData] object. *)
Definition snapshot (toISOString : Z → string) (now : Z) (session : Session)
  : string * gmap string value :=
  match feedback session with
  | Some result =>
      if String.eqb (status session) "completed" && Json.truthy result then
        ("analysis.completed",
         {[ "status" := VString "completed";
            "message" := VString "Analysis completed successfully";
            "stage" := VString "analysis";
            "feedback" := VJson result;
            "completedAt" := VTime (default now (completedAt session)) ]})
      else
        ("session.status",
         {[ "status" := VString (status session);
            "message" := VString ("Current status: " ++ status session);
            "sessionData" :=
              VJson (JObject [("sessionId", JString (sessionId session));
                              ("status", JString (status session));
                              ("createdAt", JString (toISOString (createdAt session)));
                              ("updatedAt", JString (toISOString (updatedAt session)))]) ]})
  | None =>
      ("session.status",
       {[ "status" := VString (status session);
          "message" := VString ("Current status: " ++ status session);
          "sessionData" :=
            VJson (JObject [("sessionId", JString (sessionId session));
                            ("status", JString (status session));
                            ("createdAt", JString (toISOString (createdAt session)));
                            ("updatedAt", JString (toISOString (updatedAt session)))]) ]})
  end.

(** [GET /api/events/:sessionId] for the response object [res]: the two
    managers afterwards, and the JSON error reply if there is one.  An
    error of [createConnection] propagates. *)
Definition connect (toISOString : Z → string) (now : Z) (sessionId : string) (res : loc)
    (sessionManager : SessionManager.t) (sseManager : SSEManager.t)
  : completion (SessionManager.t * SSEManager.t * option HttpResponse) :=
  if String.eqb sessionId "" then
    Return (sessionManager, sseManager,
            Some {| http_status := 400; http_code := Some "INVALID_SESSION_ID";
                    http_success := false; http_retryCount := None |})
  else
    let '(sessionManager, activeSessions) :=
      SessionManager.getActiveSessions now sessionManager in
    let '(sessionManager, found) := SessionManager.getSession now sessionId sessionManager in
    match found with
    | None =>
        Return (sessionManager, sseManager,
                Some {| http_status := 404; http_code := Some "SESSION_NOT_FOUND";
                        http_success := false; http_retryCount := None |})
    | Some (_, session) =>
        created ← SSEManager.createConnection now sessionId res sseManager;
        let '(sseManager, connectionCreated) := created in
        if negb connectionCreated then Return (sessionManager, sseManager, None)
        else
          let '(eventType, data) := snapshot toISOString now session in
          let sseManager := SSEManager.broadcastToSession now sessionId eventType data sseManager in
          let '(sessionManager, _) :=
            SessionManager.extendSession now sessionId SessionManager.defaultExpirationTime
              sessionManager in
          Return (sessionManager, sseManager, None)
    end.

(** [DELETE /api/events/:sessionId] *)
Definition close (sessionId : string) (sseManager : SSEManager.t) : SSEManager.t * HttpResponse :=
  if String.eqb sessionId "" then
    (sseManager, {| http_status := 400; http_code := Some "INVALID_SESSION_ID";
                    http_success := false; http_retryCount := None |})
  else
    (SSEManager.closeSessionConnections sessionId sseManager,
     {| http_status := 200; http_code := None; http_success := true;
        http_retryCount := None |}).

End Sse.

(** ** Vocabulary of the properties *)

(** The effects with which an attempt of the upload workflow begins, up
    to its call of the model. *)
Definition upload_prelude (sessionId : string) (retryCount : nat) : list Effect :=
  match retryCount with
  | O => [broadcastAnalysisStarted sessionId]
  | S _ => [broadcastRetryStarted sessionId retryCount (Some "analysis");
            setTimeout (Upload.delay retryCount)]
  end.

(** Assignments [o.status = v], [o.retryCount = v], ... to properties of
    the session object [l], as a caller that holds the reference may do. *)
Definition assign_properties (l : loc) (data : Partial) (this : SessionManager.t)
  : SessionManager.t :=
  {| SessionManager.sessions := SessionManager.sessions this;
     SessionManager.heap := alter (λ s, spread s data) l (SessionManager.heap this);
     SessionManager.files := SessionManager.files this |}.

(** No session id is mapped to an empty set of connections. *)
Definition no_empty_set (this : SSEManager.t) : Prop :=
  ∀ (sessionId : string) (set : list loc),
    SSEManager.connections this !! sessionId = Some set → set ≠ [].

(** Every set of connections is a set: it has no response twice. *)
Definition sets_have_no_duplicates (this : SSEManager.t) : Prop :=
  ∀ (sessionId : string) (set : list loc),
    SSEManager.connections this !! sessionId = Some set → NoDup set.

(** What [sendEvent] makes of a response: nothing when it is destroyed or
    finished or when the write throws, one more frame otherwise. *)
Definition delivered (f : Frame) (r : Response) : Response :=
  if Res.closed r then r
  else match Res.write f r with
       | Return r' => r'
       | Throw _ => r
       end.

(** The response [res] is in the set of connections of [sessionId]. *)
Definition attached (this : SSEManager.t) (sessionId : string) (res : loc) : Prop :=
  ∃ set : list loc, SSEManager.connections this !! sessionId = Some set ∧ res ∈ set.

(** The event that [broadcastToSession] writes. *)
Definition broadcast_frame (now : Z) (sessionId eventType : string)
    (data : gmap string value) : Frame :=
  {| frame_event := eventType;
     frame_data := data ∪ {[ "sessionId" := VString sessionId; "timestamp" := VTime now ]} |}.

(** The suffix of a string that starts at its first ['{']. *)
Fixpoint from_first_open (s : string) : option string :=
  match s with
  | EmptyString => None
  | String c s' => if Ascii.eqb c "{" then Some s else from_first_open s'
  end.

(** The prefix of a string that ends at its last ['}']. *)
Fixpoint upto_last_close (s : string) : option string :=
  match s with
  | EmptyString => None
  | String c s' =>
      match upto_last_close s' with
      | Some t => Some (String c t)
      | None => if Ascii.eqb c "}" then Some (String c EmptyString) else None
      end
  end.

(** The block of a response: its text from the first ['{'] to the last
    ['}'], when it has a ['{'] and a ['}'] after it. *)
Definition json_block (response : string) : option string :=
  from_first_open response ≫= upto_last_close.

(** The position of the first, and of the last, occurrence of a character. *)
Fixpoint find_first (c : ascii) (s : string) : option nat :=
  match s with
  | EmptyString => None
  | String d s' => if Ascii.eqb d c then Some 0%nat else S <$> find_first c s'
  end.

Fixpoint find_last (c : ascii) (s : string) : option nat :=
  match s with
  | EmptyString => None
  | String d s' =>
      match find_last c s' with
      | Some p => Some (S p)
      | None => if Ascii.eqb d c then Some 0%nat else None
      end
  end.

(** [JSON.parse] yields an object only for a text that has a ['{']. *)
Definition objects_have_braces (env : Env) : Prop :=
  ∀ (text : string) (fields : list (string * json)),
    JSON_parse env text = Some (JObject fields) → JS.indexOf text "{" ≠ (-1)%Z.

(** The session [sessionId] is stored and expires at [e]. *)
Definition expires_at (w : World) (sessionId : string) (e : Z) : Prop :=
  ∃ s : Session, Run.session w sessionId = Some s ∧ expiresAt s = Some e.

(** An outcome of the model that is a failure which the upload workflow
    takes for retryable. *)
Definition fails_retryably (outcome : StreamOutcome) : Prop :=
  ∃ error : ApiError,
    failure outcome = Some error ∧
    Upload.isRetryableError (GeminiService.rethrown error) = true.

(** The run [w'] of [analyzeWithRetry] from [w] at attempt [n] ended in
    error at once: the model was called once, nothing follows the failed
    attempt but one error event that is not retryable, and the session, if
    it has not expired, is in error with the message. *)
Definition ends_in_error (sessionId message : string) (service : GeminiService.t)
    (n : nat) (outcome : StreamOutcome) (w w' : World) : Prop :=
  calls w' = S (calls w) ∧
  (∃ details,
     effects w'
     = (effects w ++ upload_prelude sessionId n
          ++ callGenerateContentStream (GeminiService.model service)
          :: map (broadcastAnalysisStreaming sessionId) (chunks outcome)
          ++ [broadcastError sessionId message details])%list ∧
     retryable details = false ∧
     code details = "AI_ANALYSIS_FAILED" ∧
     stage details = "analysis") ∧
  (∀ e, sessionId ≠ "" → expires_at w sessionId e → (clock w' <= e)%Z →
        ∃ s', Run.session w' sessionId = Some s' ∧
              status s' = "error" ∧ lastError s' = Some message).

(** The time values of a [Date]: at most 8.64e15 ms from the epoch on
    either side.  Such a number, and the sum of two of them, is an
    integer that a JavaScript number holds exactly. *)
Definition valid_time (t : Z) : Prop :=
  (-8640000000000000 <= t <= 8640000000000000)%Z.

(** Every identifier of the registry refers to an object of the heap. *)
Definition sessions_allocated (st : SessionManager.t) : Prop :=
  map_Forall (λ _ l, is_Some (SessionManager.heap st !! l)) (SessionManager.sessions st).

(** [v.k] read as data: the own property [k] of an object, [None] for a
    value that is not an object. *)
Definition property (v : json) (k : string) : option json :=
  match v with
  | JObject fields => Json.assoc k fields
  | _ => None
  end.

(** The shape of a feedback that the application displays: the four
    sections, a score and a list in [clarity] and [grammar], the list of
    relevant skills, and a list of improvements. *)
Definition well_formed_feedback (feedback : json) : Prop :=
  ∃ clarity grammar skills improvements,
    property feedback "clarity" = Some clarity ∧
    property feedback "grammar" = Some grammar ∧
    property feedback "skills" = Some skills ∧
    property feedback "improvements" = Some improvements ∧
    Json.truthy_opt (property clarity "score") = true ∧
    Json.isArray (property clarity "suggestions") = true ∧
    Json.truthy_opt (property grammar "score") = true ∧
    Json.isArray (property grammar "corrections") = true ∧
    Json.isArray (property skills "relevantSkills") = true ∧
    Json.isArray (Some improvements) = true.

(** The first event of a stream, which [createConnection] writes. *)
Definition connected_frame (now : Z) (sessionId : string) : Frame :=
  {| frame_event := "connected";
     frame_data := {[ "sessionId" := VString sessionId; "timestamp" := VTime now;
                      "message" := VString "SSE connection established" ]} |}.

(** The last event of a stream, which [closeSessionConnections] writes. *)
Definition session_closed_frame (sessionId : string) : Frame :=
  {| frame_event := "session_closed";
     frame_data := {[ "sessionId" := VString sessionId;
                      "message" := VString "Session has been closed" ]} |}.

(** What [closeSessionConnections] makes of a response of the session:
    one that is neither destroyed nor finished is sent the last event
    and ended. *)
Definition closing (sessionId : string) (r : Response) : Response :=
  if Res.closed r then r else Res.end_ (delivered (session_closed_frame sessionId) r).

(** The responses of a set that are neither destroyed nor finished, or
    [None] when there is none. *)
Definition open_connections (this : SSEManager.t) (set : list loc) : option (list loc) :=
  let remaining := filter (λ res, Res.closed (SSEManager.responses this res) = false) set in
  if (length remaining =? 0)%nat then None else Some remaining.

(** The map of connections without the responses that are destroyed or
    finished, and without the sessions that have no other. *)
Definition pruned (this : SSEManager.t) : gmap string (list loc) :=
  omap (open_connections this) (SSEManager.connections this).

(** The event that [sendHeartbeat] writes. *)
Definition heartbeat_frame (now : Z) : Frame :=
  {| frame_event := "heartbeat";
     frame_data := {[ "timestamp" := VTime now; "type" := VString "heartbeat" ]} |}.

(** The events that end a run: the result, or an error. *)
Definition terminal (e : Effect) : bool :=
  match e with
  | broadcastAnalysisCompleted _ _ | broadcastError _ _ _ => true
  | _ => false
  end.

(** The effects of a run from [w] to [w'] are events that do not end
    the run, followed by exactly one that does, [last]. *)
Definition run_ends_with (w w' : World) (last : Effect) : Prop :=
  ∃ events : list Effect,
    effects w' = (effects w ++ events ++ [last])%list ∧
    terminal last = true ∧
    Forall (λ e, terminal e = false) events.

(** The stored session says what the last event of the run said. *)
Definition agrees_with (s : Session) (last : Effect) : Prop :=
  match last with
  | broadcastAnalysisCompleted _ result =>
      status s = "completed" ∧ feedback s = Some result
  | broadcastError _ message _ =>
      status s = "error" ∧ lastError s = Some message
  | _ => False
  end.

(** ** Sample inputs *)

Module Sample.

(** A registry holding one session, ["u1"], created at time 0. *)
Definition store : SessionManager.t :=
  (SessionManager.createSession 0 "u1" nothing SessionManager.new).1.

(** The session object that [store] holds for ["u1"]. *)
Definition session : Session :=
  {| sessionId := "u1"; status := "created"; createdAt := 0; updatedAt := 0;
     expiresAt := Some 3600000%Z; retryCount := 0; lastError := None;
     extractedText := None; feedback := None; completedAt := None;
     fileInfo := None |}.

(** Response objects: 2 is open but its [write] throws, 4 is destroyed,
    every other one is open and writable. *)
Definition responses (res : loc) : Response :=
  {| destroyed := (res =? 4)%nat; finished := false; headersSent := true;
     write_throws := (res =? 2)%nat; written := [] |}.

(** A connection registry where session ["s1"] has four subscribers. *)
Definition sse : SSEManager.t :=
  {| SSEManager.connections := {[ "s1" := [1; 2; 3; 4]%nat ]};
     SSEManager.responses := responses |}.

(** An environment in which the model answers [outcomes n] at its n-th
    call, the API key is set, every model initializes, the extractor
    returns [extraction], and [JSON.parse] throws on every text. *)
Definition env (outcomes : nat → StreamOutcome) (extraction : ExtractionResult) : Env :=
  {| JSON_parse := λ _, None;
     GEMINI_API_KEY := true;
     getGenerativeModel := λ _, true;
     generateContentStream := outcomes;
     extractText := λ _, extraction;
     extractElapsed := 50%N |}.

(** Outcomes of the model: failures with status 429, 401 and 404, each
    after 20 ms, and a stream of two chunks of plain text. *)
Definition rate_limited : StreamOutcome :=
  {| chunks := [];
     failure := Some {| err_status := Some 429%Z; err_message := "Too Many Requests" |};
     elapsed := 20%N |}.

Definition unauthorized : StreamOutcome :=
  {| chunks := [];
     failure := Some {| err_status := Some 401%Z; err_message := "Unauthorized" |};
     elapsed := 20%N |}.

Definition not_found : StreamOutcome :=
  {| chunks := [];
     failure := Some {| err_status := Some 404%Z; err_message := "Not Found" |};
     elapsed := 20%N |}.

Definition invalid_key : StreamOutcome :=
  {| chunks := [];
     failure := Some {| err_status := Some 400%Z;
                        err_message := "API key not valid. Please pass a valid API key." |};
     elapsed := 20%N |}.

Definition plain_text : StreamOutcome :=
  {| chunks := ["Looks "; "good"]; failure := None; elapsed := 20%N |}.

Definition extraction : ExtractionResult := ExtractionOk "Hello" 5 1.

Definition service : GeminiService.t := {| GeminiService.model := "gemini-2.0-flash" |}.

(** The world at time 10, with the registry [store] and nothing done yet. *)
Definition world : World :=
  {| manager := store; clock := 10; calls := 0; effects := [] |}.

(** A JSON text, the value that [JSON.parse] returns for it, and a
    response of the model that has the text inside a sentence. *)
Definition quoted (s : string) : string :=
  String "034"%char EmptyString ++ s ++ String "034"%char EmptyString.

Definition feedback_text : string :=
  "{" ++ quoted "clarity" ++ ":{" ++ quoted "score" ++ ":7," ++ quoted "suggestions" ++ ":[]},"
  ++ quoted "grammar" ++ ":{" ++ quoted "score" ++ ":8," ++ quoted "corrections" ++ ":[]},"
  ++ quoted "skills" ++ ":{" ++ quoted "relevantSkills" ++ ":[]},"
  ++ quoted "improvements" ++ ":[]}".

Definition feedback_value : json :=
  JObject [
    ("clarity", JObject [("score", JNumber 7%float); ("suggestions", JArray [])]);
    ("grammar", JObject [("score", JNumber 8%float); ("corrections", JArray [])]);
    ("skills", JObject [("relevantSkills", JArray [])]);
    ("improvements", JArray [])
  ].

Definition response : string :=
  "  Here is the analysis: " ++ feedback_text ++ " I hope it helps.  ".

(** An environment whose [JSON.parse] is known on [feedback_text] and
    throws on every other text. *)
Definition parsing_env : Env :=
  {| JSON_parse := λ text, if String.eqb text feedback_text then Some feedback_value else None;
     GEMINI_API_KEY := true;
     getGenerativeModel := λ _, true;
     generateContentStream := λ _, plain_text;
     extractText := λ _, extraction;
     extractElapsed := 50%N |}.

(** A session that completed after three retries, its registry and its
    world at time 10. *)
Definition completed_session : Session :=
  {| sessionId := "u1"; status := "completed"; createdAt := 0; updatedAt := 5;
     expiresAt := Some 3600000%Z; retryCount := 3; lastError := None;
     extractedText := None; feedback := Some feedback_value; completedAt := Some 5%Z;
     fileInfo := None |}.

Definition completed_store : SessionManager.t :=
  (SessionManager.updateSession 5 "u1"
     {| set_sessionId := None; set_status := Some "completed"; set_expiresAt := None;
        set_retryCount := Some 3%nat; set_lastError := None; set_extractedText := None;
        set_feedback := Some feedback_value; set_completedAt := Some 5%Z;
        set_fileInfo := None |} store).1.

Definition completed_world : World :=
  {| manager := completed_store; clock := 10; calls := 0; effects := [] |}.

(** Inputs of the further properties. *)

(** An update that sets the status and tries to set another session id. *)
Definition rename_update : Partial :=
  {| set_sessionId := Some "other"; set_status := Some "extracting"; set_expiresAt := None;
     set_retryCount := None; set_lastError := None; set_extractedText := None;
     set_feedback := None; set_completedAt := None; set_fileInfo := None |}.

(** Initial data of an upload: an id and the status ['uploaded']. *)
Definition upload_data : Partial :=
  {| set_sessionId := Some "u2"; set_status := Some "uploaded"; set_expiresAt := None;
     set_retryCount := None; set_lastError := None; set_extractedText := None;
     set_feedback := None; set_completedAt := None; set_fileInfo := None |}.

(** A registry with two sessions: ["u1"], created at 0, and ["u2"],
    created at 1000000. *)
Definition two_sessions : SessionManager.t :=
  (SessionManager.createSession 1000000 "fresh" upload_data store).1.

(** An environment in which the first model of the list fails to
    initialize. *)
Definition first_model_unavailable : Env :=
  {| JSON_parse := λ _, None;
     GEMINI_API_KEY := true;
     getGenerativeModel := λ name, negb (String.eqb name "gemini-2.0-flash");
     generateContentStream := λ _, not_found;
     extractText := λ _, extraction;
     extractElapsed := 50%N |}.

(** Response objects on which nothing has been written yet. *)
Definition unsent (res : loc) : Response :=
  {| destroyed := false; finished := false; headersSent := false;
     write_throws := false; written := [] |}.

(** A connection registry where ["s1"] has the subscribers 1 and 2 and
    ["s2"] the subscriber 3, none of which has received anything. *)
Definition lobby : SSEManager.t :=
  {| SSEManager.connections := {[ "s1" := [1; 2]%nat; "s2" := [3]%nat ]};
     SSEManager.responses := unsent |}.

(** The model answers with the two chunks of [plain_text] at every
    call. *)
Definition answering : Env := env (λ _, plain_text) extraction.

(** A connection registry where ["u1"] has the subscribers 1 and 2,
    which have received nothing yet. *)
Definition audience : SSEManager.t :=
  {| SSEManager.connections := {[ "u1" := [1; 2]%nat ]};
     SSEManager.responses := unsent |}.

End Sample.

(** * Properties *)

(** ** Effects of the steps of a run *)

Lemma emit_chunks_effects (mk : string -> Effect) (chunks : list string) (w : World) :
  effects (fold_left (λ w chunk, Run.emit (mk chunk) w) chunks w)
  = (effects w ++ map mk chunks)%list.
Proof.
  revert w. induction chunks as [|c cs IH]; intros w; simpl.
  - by rewrite app_nil_r.
  - rewrite IH. simpl. by rewrite <- app_assoc.
Qed.

Lemma emit_chunks_frame (mk : string -> Effect) (chunks : list string) (w : World) :
  let w' := fold_left (λ w chunk, Run.emit (mk chunk) w) chunks w in
  manager w' = manager w ∧ clock w' = clock w ∧ calls w' = calls w.
Proof.
  revert w. induction chunks as [|c cs IH]; intros w; simpl; [done|].
  destruct (IH (Run.emit (mk c) w)) as (-> & -> & ->). done.
Qed.

Lemma upload_attempt_effects env sessionId service retryCount w :
  ∃ rest,
    effects (Upload.attempt env sessionId service retryCount w).1
    = (effects w ++ upload_prelude sessionId retryCount
         ++ callGenerateContentStream (GeminiService.model service) :: rest)%list.
Proof.
  unfold Upload.attempt.
  destruct (0 <? retryCount)%nat eqn:Hpos.
  - destruct retryCount as [|n]; [done|].
    cbn [Run.generate GeminiService.analyzeResumeStreaming].
    destruct (failure _) as [e|]; cbn [fst].
    + eexists. rewrite emit_chunks_effects. cbn.
      rewrite <- !app_assoc. reflexivity.
    + eexists. cbn. rewrite emit_chunks_effects. cbn.
      rewrite <- !app_assoc. cbn. reflexivity.
  - destruct retryCount as [|n]; [|done].
    cbn [Run.generate GeminiService.analyzeResumeStreaming].
    destruct (failure _) as [e|]; cbn [fst].
    + eexists. rewrite emit_chunks_effects. cbn.
      rewrite <- !app_assoc. reflexivity.
    + eexists. cbn. rewrite emit_chunks_effects. cbn.
      rewrite <- !app_assoc. cbn. reflexivity.
Qed.

Lemma process_attempt_effects env sessionId service retryCount w :
  ∃ rest,
    effects (Process.attempt env sessionId service retryCount w).1
    = (effects w ++ upload_prelude sessionId retryCount
         ++ callGenerateContentStream (GeminiService.model service) :: rest)%list.
Proof.
  unfold Process.attempt.
  destruct retryCount as [|n]; cbn [Nat.ltb Nat.leb];
    cbn [Run.generate GeminiService.analyzeResumeStreaming];
    destruct (failure _) as [e|]; cbn [fst];
    eexists; cbn; rewrite emit_chunks_effects; cbn;
    rewrite <- !app_assoc; reflexivity.
Qed.

(** C5. In both workflows, attempt [n + 1] of the analysis (a retry) emits
    retry-started and then waits exactly [min(1000 * 2^n, 10000)]
    milliseconds, that is [min(1000 * 2^((n+1)-1), 10000)], before it calls
    the model; the first attempt (number 0) calls the model right after
    analysis-started, with no timer in between. *)
Theorem backoff_before_model_call env sessionId service (n : nat) w :
  (∃ rest,
     effects (Upload.attempt env sessionId service (S n) w).1
     = (effects w ++
          [broadcastRetryStarted sessionId (S n) (Some "analysis");
           setTimeout (Z.min (1000 * 2 ^ (Z.of_nat (S n) - 1)) 10000);
           callGenerateContentStream (GeminiService.model service)] ++ rest)%list) ∧
  (∃ rest,
     effects (Upload.attempt env sessionId service 0 w).1
     = (effects w ++
          [broadcastAnalysisStarted sessionId;
           callGenerateContentStream (GeminiService.model service)] ++ rest)%list) ∧
  (∃ rest,
     effects (Process.attempt env sessionId service (S n) w).1
     = (effects w ++
          [broadcastRetryStarted sessionId (S n) (Some "analysis");
           setTimeout (Z.min (1000 * 2 ^ (Z.of_nat (S n) - 1)) 10000);
           callGenerateContentStream (GeminiService.model service)] ++ rest)%list) ∧
  (∃ rest,
     effects (Process.attempt env sessionId service 0 w).1
     = (effects w ++
          [broadcastAnalysisStarted sessionId;
           callGenerateContentStream (GeminiService.model service)] ++ rest)%list).
Proof.
  repeat split.
  - destruct (upload_attempt_effects env sessionId service (S n) w) as [rest H].
    exists rest. rewrite H. reflexivity.
  - destruct (upload_attempt_effects env sessionId service 0 w) as [rest H].
    exists rest. rewrite H. reflexivity.
  - destruct (process_attempt_effects env sessionId service (S n) w) as [rest H].
    exists rest. rewrite H. reflexivity.
  - destruct (process_attempt_effects env sessionId service 0 w) as [rest H].
    exists rest. rewrite H. reflexivity.
Qed.

Lemma delay_capped (n : nat) : (5 <= n)%nat → Upload.delay n = 10000%Z.
Proof.
  intros Hn. unfold Upload.delay.
  assert (2 ^ 4 <= 2 ^ (Z.of_nat n - 1))%Z by (apply Z.pow_le_mono_r; lia).
  lia.
Qed.

Example delay_values :
  map Upload.delay [1; 2; 3; 4; 5; 6]%nat = [1000; 2000; 4000; 8000; 10000; 10000]%Z ∧
  map Process.delay [1; 2; 3]%nat = [1000; 2000; 4000]%Z.
Proof. done. Qed.

(** ** The session registry *)

Lemma invalidId_false (sessionId : string) :
  sessionId ≠ "" → SessionManager.invalidId sessionId = false.
Proof. intros H. unfold SessionManager.invalidId. by apply String.eqb_neq. Qed.

Lemma alloc_fresh (s : Session) (st : SessionManager.t) :
  SessionManager.heap st !! (SessionManager.alloc s st).2 = None.
Proof. cbn. apply not_elem_of_dom, is_fresh. Qed.

Lemma alloc_lookup_old (s : Session) (st : SessionManager.t) (l : loc) (s' : Session) :
  SessionManager.heap st !! l = Some s' →
  SessionManager.heap (SessionManager.alloc s st).1 !! l = Some s'.
Proof.
  intros H. cbn. rewrite lookup_insert_ne; [done|].
  intros <-. pose proof (alloc_fresh s st) as Hf. cbn in Hf. congruence.
Qed.

Lemma alloc_get_old (s : Session) (st : SessionManager.t) (sessionId : string) (s' : Session) :
  SessionManager.get st sessionId = Some s' →
  SessionManager.get (SessionManager.alloc s st).1 sessionId = Some s'.
Proof.
  unfold SessionManager.get. cbn [SessionManager.alloc fst SessionManager.sessions].
  destruct (SessionManager.sessions st !! sessionId) as [l|]; [|done]. cbn.
  intros H. rewrite lookup_insert_ne; [done|].
  intros <-. pose proof (alloc_fresh s st) as Hf. cbn in Hf. congruence.
Qed.

(** C6, on the code.  A stored session whose [expiresAt] lies in the past
    is absent for [getSession], which returns [null] and removes the
    entry from the map, as [sessionExists] does; [updateSession] returns
    [false] and changes nothing, but it does not remove the entry: the
    expired session stays in the map.  No sweep is involved. *)
Theorem expired_session_is_absent (now : Z) (sessionId : string)
    (st : SessionManager.t) (s : Session) (e : Z) (updateData : Partial) :
  sessionId ≠ "" →
  SessionManager.get st sessionId = Some s →
  expiresAt s = Some e →
  (e < now)%Z →
  SessionManager.getSession now sessionId st
  = (SessionManager.set_sessions (delete sessionId (SessionManager.sessions st)) st, None) ∧
  SessionManager.sessions (SessionManager.getSession now sessionId st).1 !! sessionId = None ∧
  SessionManager.sessionExists now sessionId st
  = (SessionManager.set_sessions (delete sessionId (SessionManager.sessions st)) st, false) ∧
  SessionManager.updateSession now sessionId updateData st = (st, false) ∧
  SessionManager.get (SessionManager.updateSession now sessionId updateData st).1 sessionId
  = Some s.
Proof.
  intros Hid Hget Hexp Hpast.
  assert (SessionManager.isSessionExpired now (Some s) = true) as Hx.
  { cbn. rewrite Hexp. by apply Z.ltb_lt. }
  assert (SessionManager.getSession now sessionId st
          = (SessionManager.set_sessions (delete sessionId (SessionManager.sessions st)) st, None))
    as Hg.
  { unfold SessionManager.getSession, SessionManager.deleteSession.
    rewrite (invalidId_false _ Hid), Hget, Hx. done. }
  assert (SessionManager.sessionExists now sessionId st
          = (SessionManager.set_sessions (delete sessionId (SessionManager.sessions st)) st,
             false)) as Hs.
  { unfold SessionManager.sessionExists, SessionManager.deleteSession.
    rewrite (invalidId_false _ Hid), Hget, Hx. done. }
  assert (SessionManager.updateSession now sessionId updateData st = (st, false)) as Hu.
  { unfold SessionManager.updateSession.
    rewrite (invalidId_false _ Hid), Hget, Hx. done. }
  rewrite Hg, Hs, Hu. cbn. rewrite lookup_delete_eq. done.
Qed.

(** C9. For a stored, unexpired session, [getSession] returns a new
    object: its identity differs from that of the stored object, its
    properties are those of the stored object, the map is unchanged, and
    assigning to properties of the returned object changes that object and
    leaves every stored session as it was.  (The copy is one level deep:
    the two objects hold the same reference to the nested [fileInfo].) *)
Theorem getSession_returns_copy (now : Z) (sessionId : string)
    (st : SessionManager.t) (stored : loc) (s : Session) (e : Z) :
  sessionId ≠ "" →
  SessionManager.sessions st !! sessionId = Some stored →
  SessionManager.heap st !! stored = Some s →
  expiresAt s = Some e →
  (now <= e)%Z →
  ∃ (copy : loc) (st' : SessionManager.t),
    SessionManager.getSession now sessionId st = (st', Some (copy, s)) ∧
    copy ≠ stored ∧
    SessionManager.heap st' !! copy = Some s ∧
    SessionManager.heap st' !! stored = Some s ∧
    SessionManager.sessions st' = SessionManager.sessions st ∧
    ∀ data : Partial,
      SessionManager.heap (assign_properties copy data st') !! copy = Some (spread s data) ∧
      SessionManager.sessions (assign_properties copy data st') = SessionManager.sessions st ∧
      ∀ (other : string) (s' : Session),
        SessionManager.get st other = Some s' →
        SessionManager.get (assign_properties copy data st') other = Some s'.
Proof.
  intros Hid Hmap Hheap Hexp Hle.
  assert (SessionManager.isSessionExpired now (Some s) = false) as Hlive.
  { cbn. rewrite Hexp. by apply Z.ltb_ge. }
  assert (SessionManager.get st sessionId = Some s) as Hget.
  { unfold SessionManager.get. rewrite Hmap. done. }
  pose proof (alloc_fresh s st) as Hfresh.
  exists (SessionManager.alloc s st).2, (SessionManager.alloc s st).1.
  split; [|split; [|split; [|split; [|split]]]].
  - unfold SessionManager.getSession.
    rewrite (invalidId_false _ Hid), Hget, Hlive. done.
  - intros Heq. rewrite Heq in Hfresh. congruence.
  - cbn. by rewrite lookup_insert_eq.
  - by apply alloc_lookup_old.
  - done.
  - intros data. split; [|split].
    + cbn. rewrite lookup_alter_eq, lookup_insert_eq. done.
    + done.
    + intros other s' Hother.
      unfold SessionManager.get in *. cbn.
      destruct (SessionManager.sessions st !! other) as [l|]; [|done]. cbn in *.
      assert (l ≠ fresh (dom (SessionManager.heap st))) as Hne.
      { intros ->. cbn in Hfresh. congruence. }
      rewrite lookup_alter_ne, lookup_insert_ne; done.
Qed.

(** Evaluated: [updateSession] on the expired session of [Sample.store]
    returns [false] and the expired entry is still in the map afterwards. *)
Lemma updateSession_does_not_evict :
  (SessionManager.updateSession 3600001 "u1" nothing Sample.store).2 = false ∧
  (expiresAt <$> SessionManager.get Sample.store "u1") = Some (Some 3600000%Z) ∧
  is_Some (SessionManager.sessions
             (SessionManager.updateSession 3600001 "u1" nothing Sample.store).1 !! "u1").
Proof. vm_compute. split; [done|]. split; [done|]. eexists. reflexivity. Qed.

Lemma expired_session_is_absent_witness :
  SessionManager.getSession 3600001 "u1" Sample.store
  = (SessionManager.set_sessions (delete "u1" (SessionManager.sessions Sample.store))
       Sample.store, None) ∧
  SessionManager.sessions (SessionManager.getSession 3600001 "u1" Sample.store).1 !! "u1"
  = None ∧
  SessionManager.sessionExists 3600001 "u1" Sample.store
  = (SessionManager.set_sessions (delete "u1" (SessionManager.sessions Sample.store))
       Sample.store, false) ∧
  SessionManager.updateSession 3600001 "u1" nothing Sample.store = (Sample.store, false) ∧
  SessionManager.get (SessionManager.updateSession 3600001 "u1" nothing Sample.store).1 "u1"
  = Some Sample.session.
Proof.
  apply (expired_session_is_absent 3600001 "u1" Sample.store Sample.session 3600000 nothing).
  - discriminate.
  - reflexivity.
  - reflexivity.
  - lia.
Defined.

Lemma getSession_returns_copy_witness :
  ∃ (copy : loc) (st' : SessionManager.t),
    SessionManager.getSession 1000 "u1" Sample.store
    = (st', Some (copy, Sample.session)) ∧
    copy ≠ 0%nat ∧
    SessionManager.heap st' !! copy = Some Sample.session ∧
    SessionManager.heap st' !! 0%nat = Some Sample.session ∧
    SessionManager.sessions st' = SessionManager.sessions Sample.store ∧
    ∀ data : Partial,
      SessionManager.heap (assign_properties copy data st') !! copy
      = Some (spread Sample.session data) ∧
      SessionManager.sessions (assign_properties copy data st')
      = SessionManager.sessions Sample.store ∧
      ∀ (other : string) (s' : Session),
        SessionManager.get Sample.store other = Some s' →
        SessionManager.get (assign_properties copy data st') other = Some s'.
Proof.
  apply (getSession_returns_copy 1000 "u1" Sample.store 0%nat Sample.session 3600000).
  - discriminate.
  - reflexivity.
  - reflexivity.
  - reflexivity.
  - lia.
Defined.

(** ** The connection registry *)

Lemma fold_left_invariant {A B : Type} (P : A → Prop) (f : A → B → A) (l : list B) (a : A) :
  (∀ a x, P a → P (f a x)) → P a → P (fold_left f l a).
Proof.
  intros Hstep. revert a. induction l as [|x l IH]; intros a Ha; simpl; [done|].
  apply IH, Hstep, Ha.
Qed.

Lemma sendEvent_returns res eventType data this :
  SSEManager.sendEvent res eventType data this
  = Return (SSEManager.set_response res
              (delivered {| frame_event := eventType; frame_data := data |}
                 (SSEManager.responses this res)) this)
  ∨ (SSEManager.sendEvent res eventType data this = Return this ∧
     delivered {| frame_event := eventType; frame_data := data |}
       (SSEManager.responses this res) = SSEManager.responses this res).
Proof.
  unfold SSEManager.sendEvent, delivered.
  destruct (Res.closed _); [by right|].
  destruct (Res.write _ _) as [r'|m]; [by left|by right].
Qed.

Lemma sendEvent_connections res eventType data this this' :
  SSEManager.sendEvent res eventType data this = Return this' →
  SSEManager.connections this' = SSEManager.connections this.
Proof.
  destruct (sendEvent_returns res eventType data this) as [H|[H _]];
    rewrite H; intros [= <-]; done.
Qed.

Lemma removeConnection_no_empty sessionId res this :
  no_empty_set this → no_empty_set (SSEManager.removeConnection sessionId res this).
Proof.
  intros Hinv. unfold SSEManager.removeConnection.
  destruct (String.eqb sessionId ""); [done|].
  destruct (SSEManager.connections this !! sessionId) as [set|] eqn:Hset; [|done].
  destruct (length (SSEManager.set_delete res set) =? 0)%nat eqn:Hlen.
  - intros k set' Hk. cbn in Hk.
    apply lookup_delete_Some in Hk as [_ Hk]. by eapply Hinv.
  - intros k set' Hk. cbn in Hk.
    apply lookup_insert_Some in Hk as [[_ <-]|[_ Hk]]; [|by eapply Hinv].
    intros Hnil. rewrite Hnil in Hlen. done.
Qed.

Lemma remove_all_no_empty sessionId dead this :
  no_empty_set this → no_empty_set (SSEManager.remove_all sessionId dead this).
Proof.
  intros H. unfold SSEManager.remove_all.
  apply (fold_left_invariant no_empty_set); [|done].
  intros a x Ha. by apply removeConnection_no_empty.
Qed.

Lemma deliver_connections eventType data res acc :
  SSEManager.connections (SSEManager.deliver eventType data res acc).1
  = SSEManager.connections acc.1.
Proof.
  destruct acc as [this dead]. unfold SSEManager.deliver.
  destruct (negb _); [|done].
  destruct (SSEManager.sendEvent _ _ _ _) as [this'|m] eqn:Hs; [|done].
  cbn. by eapply sendEvent_connections.
Qed.

Lemma deliver_all_connections eventType data set this :
  SSEManager.connections (SSEManager.deliver_all eventType data set this).1
  = SSEManager.connections this.
Proof.
  unfold SSEManager.deliver_all.
  apply (fold_left_invariant
           (λ acc, SSEManager.connections acc.1 = SSEManager.connections this)); [|done].
  intros acc res Hacc. by rewrite deliver_connections.
Qed.

Lemma deliver_all_no_empty eventType data set this :
  no_empty_set this → no_empty_set (SSEManager.deliver_all eventType data set this).1.
Proof.
  intros H k set' Hk. rewrite deliver_all_connections in Hk. by eapply H.
Qed.

Lemma broadcastToSession_no_empty now sessionId eventType data this :
  no_empty_set this →
  no_empty_set (SSEManager.broadcastToSession now sessionId eventType data this).
Proof.
  intros H. unfold SSEManager.broadcastToSession.
  destruct (_ || _); [done|].
  destruct (SSEManager.connections this !! sessionId) as [set|]; [|done].
  destruct (length set =? 0)%nat; [done|].
  destruct (SSEManager.deliver_all _ _ _ _) as [this' dead] eqn:Hd.
  apply remove_all_no_empty.
  pose proof (deliver_all_no_empty eventType
    (data ∪ {[ "sessionId" := VString sessionId; "timestamp" := VTime now ]}) set this H) as H'.
  by rewrite Hd in H'.
Qed.

Lemma heartbeat_entry_no_empty now this entry :
  no_empty_set this → no_empty_set (SSEManager.heartbeat_entry now this entry).
Proof.
  intros H. destruct entry as [sessionId set]. unfold SSEManager.heartbeat_entry.
  destruct (SSEManager.deliver_all _ _ _ _) as [this' dead] eqn:Hd.
  apply remove_all_no_empty.
  pose proof (deliver_all_no_empty "heartbeat"
    {[ "timestamp" := VTime now; "type" := VString "heartbeat" ]} set this H) as H'.
  by rewrite Hd in H'.
Qed.

Lemma cleanup_entry_no_empty acc entry :
  no_empty_set acc.1 → no_empty_set (SSEManager.cleanup_entry acc entry).1.
Proof.
  destruct acc as [this n], entry as [sessionId set]. cbn [fst].
  intros H. unfold SSEManager.cleanup_entry.
  match goal with |- context [(length ?rem =? 0)%nat] => destruct (length rem =? 0)%nat eqn:Hlen end.
  - intros k set' Hk. cbn in Hk.
    apply lookup_delete_Some in Hk as [_ Hk]. by eapply H.
  - intros k set' Hk. cbn in Hk.
    apply lookup_insert_Some in Hk as [[_ <-]|[_ Hk]]; [|by eapply H].
    intros Hnil. rewrite Hnil in Hlen. done.
Qed.

Lemma close_one_connections sessionId this res :
  SSEManager.connections (SSEManager.close_one sessionId this res)
  = SSEManager.connections this.
Proof.
  unfold SSEManager.close_one. destruct (negb _); [|done].
  destruct (SSEManager.sendEvent _ _ _ _) as [this'|m] eqn:Hs; [|done].
  cbn. by eapply sendEvent_connections.
Qed.

Lemma closeSessionConnections_no_empty sessionId this :
  no_empty_set this → no_empty_set (SSEManager.closeSessionConnections sessionId this).
Proof.
  intros H. unfold SSEManager.closeSessionConnections.
  destruct (SSEManager.connections this !! sessionId) as [set|]; [|done].
  intros k set' Hk. cbn in Hk.
  apply lookup_delete_Some in Hk as [_ Hk].
  assert (SSEManager.connections (fold_left (SSEManager.close_one sessionId) set this)
          = SSEManager.connections this) as Hc.
  { apply (fold_left_invariant
             (λ a, SSEManager.connections a = SSEManager.connections this)); [|done].
    intros a x Ha. by rewrite close_one_connections. }
  rewrite Hc in Hk. by eapply H.
Qed.

Lemma createConnection_no_empty now sessionId res this this' b :
  no_empty_set this →
  SSEManager.createConnection now sessionId res this = Return (this', b) →
  no_empty_set this'.
Proof.
  intros H. unfold SSEManager.createConnection.
  destruct (String.eqb sessionId ""); [by intros [= <- _]|].
  destruct (Res.writeHead _) as [r|m]; [|done]. cbn.
  destruct (SSEManager.sendEvent _ _ _ _) as [this1|m] eqn:Hs; [|done]. cbn.
  intros [= <- _].
  apply sendEvent_connections in Hs. cbn in Hs.
  intros k set' Hk. cbn in Hk.
  apply lookup_insert_Some in Hk as [[_ <-]|[_ Hk]].
  - unfold SSEManager.set_add. case_bool_decide as Hin.
    + intros Hnil. rewrite Hnil in Hin. by apply not_elem_of_nil in Hin.
    + by destruct (default [] _).
  - rewrite Hs in Hk. by eapply H.
Qed.

(** C10. The property that no session id is mapped to an empty set holds
    of a new manager and is kept by [createConnection], [removeConnection],
    [broadcastToSession], [sendHeartbeat], [cleanupDeadConnections] and
    [closeSessionConnections]; where it holds, a session id is a key of the
    map exactly when it has at least one connection, that is when
    [getConnectionCount] is positive. *)
Theorem connections_map_has_no_empty_set (this : SSEManager.t) :
  no_empty_set this →
  (∀ now sessionId res this' b,
     SSEManager.createConnection now sessionId res this = Return (this', b) →
     no_empty_set this') ∧
  (∀ sessionId res, no_empty_set (SSEManager.removeConnection sessionId res this)) ∧
  (∀ now sessionId eventType data,
     no_empty_set (SSEManager.broadcastToSession now sessionId eventType data this)) ∧
  (∀ now, no_empty_set (SSEManager.sendHeartbeat now this)) ∧
  no_empty_set (SSEManager.cleanupDeadConnections this).1 ∧
  (∀ sessionId, no_empty_set (SSEManager.closeSessionConnections sessionId this)) ∧
  (∀ sessionId,
     is_Some (SSEManager.connections this !! sessionId)
     ↔ (0 < SSEManager.getConnectionCount this sessionId)%nat) ∧
  (∀ sessionId,
     is_Some (SSEManager.connections this !! sessionId)
     ↔ ∃ set res, SSEManager.connections this !! sessionId = Some set ∧ res ∈ set) ∧
  (∀ responses, no_empty_set (SSEManager.new responses)).
Proof.
  intros H. split_and!.
  - intros now sid res this' b. by apply createConnection_no_empty.
  - intros. by apply removeConnection_no_empty.
  - intros. by apply broadcastToSession_no_empty.
  - intros now. unfold SSEManager.sendHeartbeat.
    apply (fold_left_invariant no_empty_set); [|done].
    intros a x Ha. by apply heartbeat_entry_no_empty.
  - unfold SSEManager.cleanupDeadConnections.
    apply (fold_left_invariant (λ acc, no_empty_set acc.1)); [|done].
    intros a x Ha. by apply cleanup_entry_no_empty.
  - intros. by apply closeSessionConnections_no_empty.
  - intros sid. unfold SSEManager.getConnectionCount. split.
    + intros [set Hset]. rewrite Hset.
      specialize (H _ _ Hset). destruct set; [done|cbn; lia].
    + destruct (SSEManager.connections this !! sid); [done|lia].
  - intros sid. split.
    + intros [set Hset]. specialize (H _ _ Hset).
      destruct set as [|res set]; [done|].
      exists (res :: set), res. split; [done|]. apply list_elem_of_here.
    + intros (set & res & Hset & _). by exists set.
  - intros responses k set Hk. cbn in Hk. by rewrite lookup_empty in Hk.
Qed.

Lemma connections_map_has_no_empty_set_witness :
  (∀ now sessionId res this' b,
     SSEManager.createConnection now sessionId res Sample.sse = Return (this', b) →
     no_empty_set this') ∧
  (∀ sessionId res, no_empty_set (SSEManager.removeConnection sessionId res Sample.sse)) ∧
  (∀ now sessionId eventType data,
     no_empty_set (SSEManager.broadcastToSession now sessionId eventType data Sample.sse)) ∧
  (∀ now, no_empty_set (SSEManager.sendHeartbeat now Sample.sse)) ∧
  no_empty_set (SSEManager.cleanupDeadConnections Sample.sse).1 ∧
  (∀ sessionId, no_empty_set (SSEManager.closeSessionConnections sessionId Sample.sse)) ∧
  (∀ sessionId,
     is_Some (SSEManager.connections Sample.sse !! sessionId)
     ↔ (0 < SSEManager.getConnectionCount Sample.sse sessionId)%nat) ∧
  (∀ sessionId,
     is_Some (SSEManager.connections Sample.sse !! sessionId)
     ↔ ∃ set res, SSEManager.connections Sample.sse !! sessionId = Some set ∧ res ∈ set) ∧
  (∀ responses, no_empty_set (SSEManager.new responses)).
Proof.
  apply (connections_map_has_no_empty_set Sample.sse).
  intros k set Hk. cbn in Hk.
  apply lookup_singleton_Some in Hk as [_ <-]. discriminate.
Defined.

(** The sets of connections stay sets: [Set.add] and [Set.delete] keep
    them free of duplicates, which the lemmas on the fan-out assume. *)
Lemma removeConnection_no_duplicates sessionId res this :
  sets_have_no_duplicates this →
  sets_have_no_duplicates (SSEManager.removeConnection sessionId res this).
Proof.
  intros Hinv. unfold SSEManager.removeConnection.
  destruct (String.eqb sessionId ""); [done|].
  destruct (SSEManager.connections this !! sessionId) as [set|] eqn:Hset; [|done].
  destruct (length (SSEManager.set_delete res set) =? 0)%nat.
  - intros k set' Hk. cbn in Hk.
    apply lookup_delete_Some in Hk as [_ Hk]. by eapply Hinv.
  - intros k set' Hk. cbn in Hk.
    apply lookup_insert_Some in Hk as [[_ <-]|[_ Hk]]; [|by eapply Hinv].
    apply NoDup_filter. by eapply Hinv.
Qed.

Lemma createConnection_no_duplicates now sessionId res this this' b :
  sets_have_no_duplicates this →
  SSEManager.createConnection now sessionId res this = Return (this', b) →
  sets_have_no_duplicates this'.
Proof.
  intros H. unfold SSEManager.createConnection.
  destruct (String.eqb sessionId ""); [by intros [= <- _]|].
  destruct (Res.writeHead _) as [r|m]; [|done]. cbn.
  destruct (SSEManager.sendEvent _ _ _ _) as [this1|m] eqn:Hs; [|done]. cbn.
  intros [= <- _].
  apply sendEvent_connections in Hs. cbn in Hs.
  intros k set' Hk. cbn in Hk.
  apply lookup_insert_Some in Hk as [[_ <-]|[_ Hk]]; [|rewrite Hs in Hk; by eapply H].
  assert (NoDup (default [] (SSEManager.connections this1 !! sessionId))) as Hnd.
  { destruct (SSEManager.connections this1 !! sessionId) as [set|] eqn:Hset; cbn.
    - rewrite Hs in Hset. by eapply H.
    - apply NoDup_nil_2. }
  unfold SSEManager.set_add. case_bool_decide as Hin; [done|].
  apply NoDup_app. split; [done|]. split.
  - intros x Hx ->%list_elem_of_singleton. done.
  - apply NoDup_singleton.
Qed.

Lemma broadcastToSession_no_duplicates now sessionId eventType data this :
  sets_have_no_duplicates this →
  sets_have_no_duplicates (SSEManager.broadcastToSession now sessionId eventType data this).
Proof.
  intros H. unfold SSEManager.broadcastToSession.
  destruct (_ || _); [done|].
  destruct (SSEManager.connections this !! sessionId) as [set|]; [|done].
  destruct (length set =? 0)%nat; [done|].
  destruct (SSEManager.deliver_all _ _ _ _) as [this' dead] eqn:Hd.
  unfold SSEManager.remove_all.
  apply (fold_left_invariant sets_have_no_duplicates).
  - intros a x Ha. by apply removeConnection_no_duplicates.
  - intros k set' Hk.
    pose proof (deliver_all_connections eventType
      (data ∪ {[ "sessionId" := VString sessionId; "timestamp" := VTime now ]}) set this) as Hc.
    rewrite Hd in Hc. cbn in Hc. rewrite Hc in Hk. by eapply H.
Qed.

(** *** Fan-out *)

Lemma delivered_closed (f : Frame) (r : Response) :
  Res.closed (delivered f r) = Res.closed r.
Proof.
  unfold delivered. destruct (Res.closed r) eqn:Hc; [done|].
  unfold Res.write. destruct (write_throws r); done.
Qed.

Lemma deliver_step eventType data res this dead :
  let f := {| frame_event := eventType; frame_data := data |} in
  ∃ this1,
    SSEManager.deliver eventType data res (this, dead)
    = (this1, if Res.closed (SSEManager.responses this res) then (dead ++ [res])%list else dead) ∧
    SSEManager.connections this1 = SSEManager.connections this ∧
    ∀ r, SSEManager.responses this1 r
         = if bool_decide (r = res) then delivered f (SSEManager.responses this res)
           else SSEManager.responses this r.
Proof.
  intros f. subst f. unfold SSEManager.deliver.
  destruct (Res.closed (SSEManager.responses this res)) eqn:Hc; cbn [negb].
  - exists this. split; [done|]. split; [done|].
    intros r. case_bool_decide as Hr; [|done]. subst r.
    unfold delivered. by rewrite Hc.
  - destruct (sendEvent_returns res eventType data this) as [H|[H Hsame]]; rewrite H.
    + eexists. split; [done|]. split; [done|].
      intros r. cbn. case_bool_decide as Hr.
      * subst r. by rewrite fn_lookup_insert.
      * by rewrite fn_lookup_insert_ne.
    + exists this. split; [done|]. split; [done|].
      intros r. case_bool_decide as Hr; [|done]. subst r. by rewrite Hsame.
Qed.

Lemma deliver_all_spec eventType data set :
  let f := {| frame_event := eventType; frame_data := data |} in
  ∀ this dead,
    NoDup set →
    let result := fold_left (λ acc res, SSEManager.deliver eventType data res acc) set (this, dead) in
    SSEManager.connections result.1 = SSEManager.connections this ∧
    (∀ r, SSEManager.responses result.1 r
          = if bool_decide (r ∈ set) then delivered f (SSEManager.responses this r)
            else SSEManager.responses this r) ∧
    (∀ r, r ∈ result.2
          ↔ r ∈ dead ∨ (r ∈ set ∧ Res.closed (SSEManager.responses this r) = true)).
Proof.
  intros f. subst f. induction set as [|x xs IH]; intros this dead Hnd; cbn [fold_left].
  - split; [done|]. split; [done|]. intros r. cbn. split; [by left|].
    intros [H|[H _]]; [done|]. by apply not_elem_of_nil in H.
  - apply NoDup_cons in Hnd as [Hx Hnd].
    destruct (deliver_step eventType data x this dead) as (this1 & Hstep & Hconn & Hresp).
    rewrite Hstep.
    destruct (IH this1 (if Res.closed (SSEManager.responses this x)
                        then (dead ++ [x])%list else dead) Hnd) as (Hc & Hr & Hd).
    split; [by rewrite Hc|]. split.
    + intros r. rewrite Hr, !Hresp.
      case_bool_decide as Hin.
      * assert (r ≠ x) as Hne by (intros ->; done).
        rewrite bool_decide_eq_false_2 by done.
        rewrite bool_decide_eq_true_2; [done|]. by apply elem_of_cons; right.
      * case_bool_decide as Hrx.
        -- subst r. rewrite bool_decide_eq_true_2; [done|]. apply list_elem_of_here.
        -- rewrite bool_decide_eq_false_2; [done|].
           intros [?|?]%elem_of_cons; done.
    + intros r. rewrite Hd. rewrite Hresp.
      assert (∀ y, y ∈ xs → bool_decide (y = x) = false) as Hxs.
      { intros y Hy. apply bool_decide_eq_false_2. by intros ->. }
      split.
      * intros [Hr'|[Hin Hcl]].
        -- destruct (Res.closed (SSEManager.responses this x)) eqn:Hcx; [|by left].
           apply elem_of_app in Hr' as [?|Hr']; [by left|].
           apply list_elem_of_singleton in Hr' as ->. right. split; [apply list_elem_of_here|done].
        -- rewrite (Hxs _ Hin) in Hcl. right. split; [by apply elem_of_cons; right|done].
      * intros [Hr'|[Hin Hcl]].
        -- left. destruct (Res.closed _); [apply elem_of_app; by left|done].
        -- apply elem_of_cons in Hin as [->|Hin].
           ++ left. rewrite Hcl. apply elem_of_app. right. apply list_elem_of_singleton. done.
           ++ right. rewrite (Hxs _ Hin). done.
Qed.

Lemma removeConnection_responses sessionId res this :
  SSEManager.responses (SSEManager.removeConnection sessionId res this)
  = SSEManager.responses this.
Proof.
  unfold SSEManager.removeConnection.
  destruct (String.eqb sessionId ""); [done|].
  destruct (SSEManager.connections this !! sessionId); [|done].
  destruct (length _ =? 0)%nat; done.
Qed.

Lemma removeConnection_attached sessionId res this r :
  sessionId ≠ "" →
  attached (SSEManager.removeConnection sessionId res this) sessionId r
  ↔ attached this sessionId r ∧ r ≠ res.
Proof.
  intros Hid. unfold SSEManager.removeConnection, attached.
  apply String.eqb_neq in Hid. rewrite Hid.
  destruct (SSEManager.connections this !! sessionId) as [set|] eqn:Hset.
  - destruct (length (SSEManager.set_delete res set) =? 0)%nat eqn:Hlen.
    + cbn. rewrite lookup_delete_eq. split.
      * intros (set' & ? & _). done.
      * intros [(set' & [= <-] & Hin) Hne]. exfalso.
        assert (r ∈ SSEManager.set_delete res set) as Hr
          by (apply list_elem_of_filter; done).
        destruct (SSEManager.set_delete res set); [by apply not_elem_of_nil in Hr|done].
    + cbn. rewrite lookup_insert_eq. split.
      * intros (set' & [= <-] & Hin). apply list_elem_of_filter in Hin as [Hne Hin].
        split; [by exists set|done].
      * intros [(set' & [= <-] & Hin) Hne]. eexists. split; [done|].
        by apply list_elem_of_filter.
  - rewrite Hset. split.
    + intros (set' & ? & _). done.
    + intros [(set' & ? & _) _]. done.
Qed.

Lemma remove_all_responses sessionId dead this :
  SSEManager.responses (SSEManager.remove_all sessionId dead this)
  = SSEManager.responses this.
Proof.
  unfold SSEManager.remove_all.
  apply (fold_left_invariant
           (λ a, SSEManager.responses a = SSEManager.responses this)); [|done].
  intros a x Ha. by rewrite removeConnection_responses.
Qed.

Lemma remove_all_attached sessionId dead this r :
  sessionId ≠ "" →
  attached (SSEManager.remove_all sessionId dead this) sessionId r
  ↔ attached this sessionId r ∧ r ∉ dead.
Proof.
  intros Hid. revert this. induction dead as [|x ds IH]; intros this; cbn.
  - split; [|by intros [? _]]. intros H. split; [done|]. apply not_elem_of_nil.
  - unfold SSEManager.remove_all in IH. rewrite IH.
    rewrite removeConnection_attached by done.
    rewrite not_elem_of_cons. tauto.
Qed.

(** What [broadcastToSession] does to the subscribers of a session. *)
Lemma broadcastToSession_spec now sessionId eventType data this set :
  sessionId ≠ "" →
  eventType ≠ "" →
  SSEManager.connections this !! sessionId = Some set →
  NoDup set →
  let this' := SSEManager.broadcastToSession now sessionId eventType data this in
  (∀ r, attached this' sessionId r
        ↔ r ∈ set ∧ Res.closed (SSEManager.responses this r) = false) ∧
  (∀ r, r ∈ set →
        SSEManager.responses this' r
        = delivered (broadcast_frame now sessionId eventType data)
            (SSEManager.responses this r)) ∧
  (∀ r, r ∉ set → SSEManager.responses this' r = SSEManager.responses this r).
Proof.
  intros Hid Hev Hset Hnd this'. subst this'.
  unfold SSEManager.broadcastToSession.
  apply String.eqb_neq in Hid as Hid', Hev. rewrite Hid', Hev, Hset. cbn [orb].
  destruct set as [|x xs].
  { cbn. split; [|split]; [|intros r Hr; by apply not_elem_of_nil in Hr|done].
    intros r. unfold attached. rewrite Hset. split.
    - intros (? & [= <-] & Hr). by apply not_elem_of_nil in Hr.
    - intros [Hr _]. by apply not_elem_of_nil in Hr. }
  cbn [length Nat.eqb].
  set (eventData := data ∪ _).
  pose proof (deliver_all_spec eventType eventData (x :: xs) this [] Hnd) as Hspec.
  unfold SSEManager.deliver_all.
  destruct (fold_left _ _ _) as [this1 dead] eqn:Hfold.
  cbn [fst snd] in Hspec. destruct Hspec as (Hconn & Hresp & Hdead).
  split; [|split].
  - intros r. rewrite remove_all_attached by done. rewrite Hdead.
    unfold attached. rewrite Hconn, Hset. split.
    + intros [(set' & [= <-] & Hin) Hnot]. split; [done|].
      destruct (Res.closed _) eqn:Hc; [|done]. exfalso. apply Hnot. by right.
    + intros [Hin Hc]. split; [by eexists|].
      intros [H|[_ H]]; [by apply not_elem_of_nil in H|congruence].
  - intros r Hr. rewrite remove_all_responses, Hresp.
    by rewrite bool_decide_eq_true_2.
  - intros r Hr. rewrite remove_all_responses, Hresp.
    by rewrite bool_decide_eq_false_2.
Qed.

(** C7, on the code.  [broadcastToSession] writes the event to every
    subscriber that is neither destroyed nor finished and whose write
    succeeds, and detaches every subscriber that is destroyed or finished;
    a failure of a write does not stop the delivery to the others, but the
    subscriber whose write throws is not marked dead: it receives nothing
    and is still attached afterwards. *)
Theorem broadcast_write_failure_keeps_stream now sessionId eventType data this set failing :
  sessionId ≠ "" →
  eventType ≠ "" →
  SSEManager.connections this !! sessionId = Some set →
  NoDup set →
  failing ∈ set →
  Res.closed (SSEManager.responses this failing) = false →
  write_throws (SSEManager.responses this failing) = true →
  let this' := SSEManager.broadcastToSession now sessionId eventType data this in
  attached this' sessionId failing ∧
  SSEManager.responses this' failing = SSEManager.responses this failing ∧
  (∀ r, r ∈ set →
        Res.closed (SSEManager.responses this r) = false →
        write_throws (SSEManager.responses this r) = false →
        attached this' sessionId r ∧
        written (SSEManager.responses this' r)
        = (written (SSEManager.responses this r)
             ++ [broadcast_frame now sessionId eventType data])%list) ∧
  (∀ r, r ∈ set →
        Res.closed (SSEManager.responses this r) = true →
        ¬ attached this' sessionId r ∧
        SSEManager.responses this' r = SSEManager.responses this r).
Proof.
  intros Hid Hev Hset Hnd Hin Hopen Hthrows this'.
  destruct (broadcastToSession_spec now sessionId eventType data this set Hid Hev Hset Hnd)
    as (Hatt & Hresp & _).
  fold this' in Hatt, Hresp.
  split; [by apply Hatt|]. split; [|split].
  - rewrite (Hresp _ Hin). unfold delivered, Res.write. by rewrite Hopen, Hthrows.
  - intros r Hr Hc Hw. split; [by apply Hatt|].
    rewrite (Hresp _ Hr). unfold delivered, Res.write. by rewrite Hc, Hw.
  - intros r Hr Hc. split.
    + intros [_ H]%Hatt. congruence.
    + rewrite (Hresp _ Hr). unfold delivered. by rewrite Hc.
Qed.

Lemma broadcast_write_failure_keeps_stream_witness :
  let this' := SSEManager.broadcastToSession 5 "s1" "analysis.started" ∅ Sample.sse in
  attached this' "s1" 2%nat ∧
  SSEManager.responses this' 2%nat = SSEManager.responses Sample.sse 2%nat ∧
  (∀ r, r ∈ [1; 2; 3; 4]%nat →
        Res.closed (SSEManager.responses Sample.sse r) = false →
        write_throws (SSEManager.responses Sample.sse r) = false →
        attached this' "s1" r ∧
        written (SSEManager.responses this' r)
        = (written (SSEManager.responses Sample.sse r)
             ++ [broadcast_frame 5 "s1" "analysis.started" ∅])%list) ∧
  (∀ r, r ∈ [1; 2; 3; 4]%nat →
        Res.closed (SSEManager.responses Sample.sse r) = true →
        ¬ attached this' "s1" r ∧
        SSEManager.responses this' r = SSEManager.responses Sample.sse r).
Proof.
  apply (broadcast_write_failure_keeps_stream 5 "s1" "analysis.started" ∅ Sample.sse
           [1; 2; 3; 4]%nat 2%nat).
  - discriminate.
  - discriminate.
  - reflexivity.
  - compute_done.
  - compute_done.
  - reflexivity.
  - reflexivity.
Defined.

(** The same run, evaluated: after the broadcast to the four subscribers
    of ["s1"], 1 and 3 have the event, 2 (whose write throws) has nothing
    and is still in the set, 4 (destroyed) has been removed. *)
Example broadcast_on_sample :
  let this' := SSEManager.broadcastToSession 5 "s1" "analysis.started" ∅ Sample.sse in
  SSEManager.connections this' !! "s1" = Some [1; 2; 3]%nat ∧
  written (SSEManager.responses this' 1%nat) = [broadcast_frame 5 "s1" "analysis.started" ∅] ∧
  written (SSEManager.responses this' 2%nat) = [] ∧
  written (SSEManager.responses this' 3%nat) = [broadcast_frame 5 "s1" "analysis.started" ∅].
Proof. vm_compute. done. Qed.

(** ** Parsing of the response of the model *)

Lemma indexOf_from_find (c : ascii) (s : string) (k : Z) :
  JS.indexOf_from c s k
  = match find_first c s with Some p => (k + Z.of_nat p)%Z | None => (-1)%Z end.
Proof.
  revert k. induction s as [|d s IH]; intros k; cbn; [done|].
  destruct (Ascii.eqb d c); [cbn; lia|].
  rewrite IH. destruct (find_first c s); cbn; [lia|done].
Qed.

Lemma lastIndexOf_from_find (c : ascii) (s : string) (k found : Z) :
  JS.lastIndexOf_from c s k found
  = match find_last c s with Some p => (k + Z.of_nat p)%Z | None => found end.
Proof.
  revert k found. induction s as [|d s IH]; intros k found; cbn; [done|].
  rewrite IH. destruct (find_last c s); [lia|].
  destruct (Ascii.eqb d c); [lia|done].
Qed.

Lemma find_first_lt (c : ascii) (s : string) (p : nat) :
  find_first c s = Some p → (p < String.length s)%nat.
Proof.
  revert p. induction s as [|d s IH]; intros p; cbn; [done|].
  destruct (Ascii.eqb d c); [intros [= <-]; lia|].
  destruct (find_first c s) as [p'|]; [|done]. cbn. intros [= <-].
  specialize (IH _ eq_refl). lia.
Qed.

Lemma find_last_lt (c : ascii) (s : string) (p : nat) :
  find_last c s = Some p → (p < String.length s)%nat.
Proof.
  revert p. induction s as [|d s IH]; intros p; cbn; [done|].
  destruct (find_last c s) as [p'|].
  - intros [= <-]. specialize (IH _ eq_refl). lia.
  - destruct (Ascii.eqb d c); [intros [= <-]; lia|done].
Qed.

Lemma from_first_open_None (s : string) :
  find_first "{" s = None → from_first_open s = None.
Proof.
  induction s as [|d s IH]; cbn; [done|].
  destruct (Ascii.eqb d "{"); [done|].
  destruct (find_first "{" s); [done|]. intros _. by apply IH.
Qed.

Lemma from_first_open_Some (s : string) (p : nat) :
  find_first "{" s = Some p →
  ∃ suffix,
    from_first_open s = Some suffix ∧
    (∀ m, String.substring p m s = String.substring 0 m suffix) ∧
    (∀ q, find_last "}" suffix = Some q → find_last "}" s = Some (p + q)%nat) ∧
    (find_last "}" suffix = None →
     match find_last "}" s with Some q => (q < p)%nat | None => True end).
Proof.
  revert p. induction s as [|d s IH]; intros p; cbn [find_first from_first_open]; [done|].
  destruct (Ascii.eqb d "{") eqn:Hd.
  - intros [= <-]. exists (String d s). split; [done|]. split; [done|].
    split; [done|]. by intros ->.
  - destruct (find_first "{" s) as [p'|]; [|done]. cbn. intros [= <-].
    destruct (IH _ eq_refl) as (suffix & Hsuf & Hsub & Hlast & Hnone).
    exists suffix. split; [done|]. split; [|split].
    + intros m. cbn. apply Hsub.
    + intros q Hq. cbn. by rewrite (Hlast _ Hq).
    + intros Hq. specialize (Hnone Hq). cbn.
      destruct (find_last "}" s) as [q|]; [lia|].
      destruct (Ascii.eqb d "}"); [lia|done].
Qed.

Lemma upto_last_close_find (s : string) :
  upto_last_close s
  = (λ q, String.substring 0 (S q) s) <$> find_last "}" s.
Proof.
  induction s as [|d s IH]; cbn; [done|].
  rewrite IH. destruct (find_last "}" s) as [q|]; cbn; [done|].
  destruct (Ascii.eqb d "}"); cbn; [|done].
  by destruct s.
Qed.

Lemma no_open_before (s : string) (p a m : nat) :
  find_first "{" s = Some p → (a + m <= p)%nat →
  find_first "{" (String.substring a m s) = None.
Proof.
  revert p a m. induction s as [|d s IH]; intros p a m; cbn [find_first]; [done|].
  destruct (Ascii.eqb d "{") eqn:Hd.
  - intros [= <-] Hle. assert (a = 0 ∧ m = 0)%nat as [-> ->] by lia. done.
  - destruct (find_first "{" s) as [p'|] eqn:Hp; [|done]. cbn. intros [= <-] Hle.
    destruct a as [|a].
    + destruct m as [|m]; [done|]. cbn. rewrite Hd.
      rewrite (IH p' 0%nat m eq_refl); [done|lia].
    + cbn. apply (IH p'); [done|lia].
Qed.

Lemma whitespace_not_brace (c : ascii) :
  JS.is_whitespace c = true → Ascii.eqb c "{" = false ∧ Ascii.eqb c "}" = false.
Proof.
  destruct c as [b0 b1 b2 b3 b4 b5 b6 b7].
  destruct b0, b1, b2, b3, b4, b5, b6, b7; vm_compute; intuition congruence.
Qed.

Lemma trimEnd_cons (c : ascii) (s : string) :
  JS.is_whitespace c = false → JS.trimEnd (String c s) = String c (JS.trimEnd s).
Proof. intros H. cbn. rewrite H. by destruct (JS.trimEnd s). Qed.

Lemma from_first_open_trimStart (s : string) :
  from_first_open (JS.trimStart s) = from_first_open s.
Proof.
  induction s as [|c s IH]; cbn; [done|].
  destruct (JS.is_whitespace c) eqn:Hw; [|done].
  destruct (whitespace_not_brace c Hw) as [-> _]. done.
Qed.

Lemma from_first_open_trimEnd (s : string) :
  from_first_open (JS.trimEnd s) = JS.trimEnd <$> from_first_open s.
Proof.
  induction s as [|c s IH]; [done|].
  destruct (JS.is_whitespace c) eqn:Hw.
  - destruct (whitespace_not_brace c Hw) as [Ho _].
    cbn. rewrite Hw, Ho.
    destruct (JS.trimEnd s) eqn:Ht.
    + cbn in *. by destruct (from_first_open s).
    + cbn [from_first_open]. by rewrite Ho.
  - rewrite trimEnd_cons by done. cbn [from_first_open].
    destruct (Ascii.eqb c "{"); [|done].
    change (Some (String c (JS.trimEnd s)) = Some (JS.trimEnd (String c s))).
    by rewrite trimEnd_cons.
Qed.

Lemma upto_last_close_trimEnd (s : string) :
  upto_last_close (JS.trimEnd s) = upto_last_close s.
Proof.
  induction s as [|c s IH]; [done|].
  destruct (JS.is_whitespace c) eqn:Hw.
  - destruct (whitespace_not_brace c Hw) as [_ Hc].
    cbn. rewrite Hw. rewrite <- IH.
    destruct (JS.trimEnd s) eqn:Ht; cbn; [by rewrite Hc|done].
  - rewrite trimEnd_cons by done. cbn. by rewrite IH.
Qed.

Lemma json_block_trim (response : string) :
  json_block (JS.trim response) = json_block response.
Proof.
  unfold json_block, JS.trim.
  rewrite from_first_open_trimEnd, from_first_open_trimStart.
  destruct (from_first_open response) as [suffix|]; [|done].
  cbn. apply upto_last_close_trimEnd.
Qed.

Lemma substring_nat (s : string) (a b : nat) :
  (a <= String.length s)%nat → (b <= String.length s)%nat →
  JS.substring s (Z.of_nat a) (Z.of_nat b)
  = String.substring (Nat.min a b) (Nat.max a b - Nat.min a b) s.
Proof.
  intros Ha Hb. unfold JS.substring. f_equal; lia.
Qed.

Lemma validated_is_object (parsed : json) (u : unit) :
  GeminiService.validateFeedbackStructure parsed = Return u →
  ∃ fields, parsed = JObject fields.
Proof. destruct parsed; try done. intros _. by eexists. Qed.

(** C8. [parseResponse] is a total function of the raw response: it never
    throws.  It takes the text from the first ['{'] to the last ['}'] of
    the response, parses it and validates it, and returns the parsed
    value; when the response has no such block, when [JSON.parse] throws
    or when the validation throws, it returns the fixed structure of
    [getFallbackFeedback]. *)
Theorem parseResponse_block_or_fallback (env : Env) (response : string) :
  objects_have_braces env →
  GeminiService.parseResponse env response
  = match json_block response with
    | Some block =>
        match JSON_parse env block with
        | Some parsed =>
            match GeminiService.validateFeedbackStructure parsed with
            | Return _ => parsed
            | Throw _ => GeminiService.getFallbackFeedback
            end
        | None => GeminiService.getFallbackFeedback
        end
    | None => GeminiService.getFallbackFeedback
    end.
Proof.
  intros Hobj. rewrite <- json_block_trim.
  unfold GeminiService.parseResponse, GeminiService.parseResponse_try.
  set (t := JS.trim response).
  unfold JS.indexOf, JS.lastIndexOf, json_block.
  rewrite indexOf_from_find, lastIndexOf_from_find.
  destruct (find_first "{" t) as [p|] eqn:Hp.
  - destruct (from_first_open_Some t p Hp) as (suffix & -> & Hsub & Hlast & Hnone).
    pose proof (find_first_lt _ _ _ Hp) as Hplt.
    cbn [mbind option_bind]. rewrite upto_last_close_find.
    destruct (find_last "}" suffix) as [q|] eqn:Hq.
    + rewrite (Hlast q eq_refl).
      pose proof (find_last_lt _ _ _ (Hlast q eq_refl)) as Hqlt.
      replace (0 + Z.of_nat p =? -1)%Z with false by (symmetry; apply Z.eqb_neq; lia).
      replace (0 + Z.of_nat (p + q) =? -1)%Z with false by (symmetry; apply Z.eqb_neq; lia).
      cbn [orb fmap option_fmap option_map].
      replace (0 + Z.of_nat p)%Z with (Z.of_nat p) by lia.
      replace (0 + Z.of_nat (p + q) + 1)%Z with (Z.of_nat (S (p + q))) by lia.
      rewrite substring_nat by lia.
      replace (Nat.min p (S (p + q))) with p by lia.
      replace (Nat.max p (S (p + q)) - p)%nat with (S q) by lia.
      rewrite Hsub.
      destruct (JSON_parse env _) as [parsed|]; [|done].
      by destruct (GeminiService.validateFeedbackStructure parsed).
    + specialize (Hnone eq_refl). cbn [fmap option_fmap option_map].
      destruct (find_last "}" t) as [q'|] eqn:Hq'.
      * replace (0 + Z.of_nat p =? -1)%Z with false by (symmetry; apply Z.eqb_neq; lia).
        replace (0 + Z.of_nat q' =? -1)%Z with false by (symmetry; apply Z.eqb_neq; lia).
        cbn [orb].
        replace (0 + Z.of_nat p)%Z with (Z.of_nat p) by lia.
        replace (0 + Z.of_nat q' + 1)%Z with (Z.of_nat (S q')) by lia.
        rewrite substring_nat by lia.
        destruct (JSON_parse env _) as [parsed|] eqn:Hparse; [|done].
        destruct (GeminiService.validateFeedbackStructure parsed) as [u|m] eqn:Hv; [|done].
        exfalso. destruct (validated_is_object _ _ Hv) as [fields ->].
        apply (Hobj _ _ Hparse).
        unfold JS.indexOf. rewrite indexOf_from_find.
        rewrite (no_open_before t p); [done|done|lia].
      * replace (0 + Z.of_nat p =? -1)%Z with false by (symmetry; apply Z.eqb_neq; lia). done.
  - rewrite (from_first_open_None _ Hp). done.
Qed.

Lemma parsing_env_objects_have_braces : objects_have_braces Sample.parsing_env.
Proof.
  intros text fields H. cbn in H.
  destruct (String.eqb_spec text Sample.feedback_text) as [->|]; [|done].
  by vm_compute.
Qed.

Lemma parseResponse_block_or_fallback_witness :
  GeminiService.parseResponse Sample.parsing_env Sample.response
  = match json_block Sample.response with
    | Some block =>
        match JSON_parse Sample.parsing_env block with
        | Some parsed =>
            match GeminiService.validateFeedbackStructure parsed with
            | Return _ => parsed
            | Throw _ => GeminiService.getFallbackFeedback
            end
        | None => GeminiService.getFallbackFeedback
        end
    | None => GeminiService.getFallbackFeedback
    end.
Proof.
  apply (parseResponse_block_or_fallback Sample.parsing_env Sample.response).
  apply parsing_env_objects_have_braces.
Defined.

(** Responses evaluated: a block inside a sentence is extracted and
    parsed; a response without braces, one whose only ['}'] comes before
    its only ['{'], and a block that [JSON.parse] rejects give the
    fallback. *)
Example parseResponse_on_samples :
  json_block Sample.response = Some Sample.feedback_text ∧
  GeminiService.parseResponse Sample.parsing_env Sample.response = Sample.feedback_value ∧
  GeminiService.parseResponse Sample.parsing_env "no braces here"
  = GeminiService.getFallbackFeedback ∧
  GeminiService.parseResponse Sample.parsing_env "} 1 {"
  = GeminiService.getFallbackFeedback ∧
  GeminiService.parseResponse Sample.parsing_env "{ not json }"
  = GeminiService.getFallbackFeedback.
Proof. vm_compute. done. Qed.

(** ** The analysis workflow of the upload route *)

Lemma upload_analyzeWithRetry_unfold env sessionId service retryCount w :
  Upload.analyzeWithRetry env sessionId service retryCount w
  = match Upload.attempt env sessionId service retryCount w with
    | (w1, None) => w1
    | (w1, Some message) =>
        let modelError := JS.includes message "model not found" in
        let reinit := GeminiService.reinitializeModel env service in
        if modelError && reinit.2 && (retryCount <? Upload.maxRetries)%nat then
          Upload.analyzeWithRetry env sessionId reinit.1 (S retryCount) w1
        else if Upload.isRetryableError message && (retryCount <? Upload.maxRetries)%nat then
          Upload.analyzeWithRetry env sessionId
            (if modelError then reinit.1 else service) (S retryCount) w1
        else Upload.giveUp sessionId message retryCount w1
    end.
Proof.
  rewrite Upload.analyzeWithRetry_equation_1.
  destruct (Upload.attempt env sessionId service retryCount w) as [w1 [message|]]; [|done].
  rewrite Upload.analyzeWithRetry_clause_1_equation_1. cbn zeta.
  destruct (lt_dec retryCount Upload.maxRetries) as [Hlt|Hge];
    [assert ((retryCount <? Upload.maxRetries)%nat = true) as -> by (by apply Nat.ltb_lt)
    |assert ((retryCount <? Upload.maxRetries)%nat = false) as -> by (by apply Nat.ltb_nlt)];
    destruct (JS.includes message "model not found");
    destruct (GeminiService.reinitializeModel env service) as [service' []];
    destruct (Upload.isRetryableError message); done.
Qed.

Lemma run_updateSession_frame sessionId data w :
  clock (Run.updateSession sessionId data w) = clock w ∧
  calls (Run.updateSession sessionId data w) = calls w ∧
  effects (Run.updateSession sessionId data w) = effects w.
Proof. done. Qed.

(** An update that does not set [expiresAt] keeps the session stored, with
    its expiry, whether the update is applied or refused. *)
Lemma run_updateSession_expires_at sessionId data w e :
  set_expiresAt data = None →
  expires_at w sessionId e →
  expires_at (Run.updateSession sessionId data w) sessionId e.
Proof.
  intros Hdata (s & Hs & He). unfold expires_at, Run.session, Run.updateSession in *.
  cbn [manager]. unfold SessionManager.updateSession.
  destruct (SessionManager.invalidId sessionId); [by exists s|].
  rewrite Hs. destruct (SessionManager.isSessionExpired _ _); [by exists s|].
  eexists. split.
  - unfold SessionManager.get. cbn. rewrite lookup_insert_eq. cbn.
    rewrite lookup_insert_eq. done.
  - cbn. by rewrite Hdata.
Qed.

(** An update of a session that is stored and not expired is applied. *)
Lemma run_updateSession_live sessionId data w s e :
  sessionId ≠ "" →
  Run.session w sessionId = Some s →
  expiresAt s = Some e →
  (clock w <= e)%Z →
  Run.session (Run.updateSession sessionId data w) sessionId
  = Some (with_sessionId sessionId (with_updatedAt (clock w) (spread s data))).
Proof.
  intros Hid Hs He Hle. unfold Run.session, Run.updateSession in *.
  cbn [manager]. unfold SessionManager.updateSession.
  rewrite (invalidId_false _ Hid), Hs.
  assert (SessionManager.isSessionExpired (clock w) (Some s) = false) as ->.
  { cbn. rewrite He. by apply Z.ltb_ge. }
  unfold SessionManager.get. cbn. rewrite lookup_insert_eq. cbn.
  by rewrite lookup_insert_eq.
Qed.

Lemma emit_chunks_session (mk : string → Effect) chunks w sessionId :
  Run.session (fold_left (λ w chunk, Run.emit (mk chunk) w) chunks w) sessionId
  = Run.session w sessionId.
Proof.
  unfold Run.session.
  by destruct (emit_chunks_frame mk chunks w) as (-> & _ & _).
Qed.

(** What a failed attempt leaves: the error rethrown by
    [analyzeResumeStreaming], one more call of the model, and the session
    still stored with its expiry. *)
Lemma upload_attempt_failure env sessionId service retryCount w error :
  failure (generateContentStream env (calls w)) = Some error →
  ∃ w1,
    Upload.attempt env sessionId service retryCount w
    = (w1, Some (GeminiService.rethrown error)) ∧
    calls w1 = S (calls w) ∧
    (∀ e, expires_at w sessionId e → expires_at w1 sessionId e).
Proof.
  intros Hfail. unfold Upload.attempt.
  set (w0 := if (0 <? retryCount)%nat then _ else _).
  assert (calls w0 = calls w ∧ ∀ e, expires_at w sessionId e → expires_at w0 sessionId e)
    as [Hcalls Hexp].
  { subst w0. destruct (0 <? retryCount)%nat; (split; [done|]); intros e He.
    - eapply run_updateSession_expires_at in He; [exact He|done].
    - eapply run_updateSession_expires_at in He; [exact He|done]. }
  unfold Run.generate, GeminiService.analyzeResumeStreaming.
  rewrite Hcalls, Hfail.
  eexists. split; [reflexivity|]. split.
  - by destruct (emit_chunks_frame (broadcastAnalysisStreaming sessionId)
                   (chunks (generateContentStream env (calls w)))
                   {| manager := manager w0;
                      clock := clock w0 + Z.of_N (elapsed (generateContentStream env (calls w)));
                      calls := S (calls w);
                      effects := (effects w0 ++ [callGenerateContentStream
                                                  (GeminiService.model service)])%list |})
      as (_ & _ & ->).
  - intros e He. specialize (Hexp e He). unfold expires_at in *.
    rewrite emit_chunks_session. exact Hexp.
Qed.

(** What giving up does: one error event, and the session in error when
    it is stored and not expired. *)
Lemma upload_giveUp_spec sessionId message (n : nat) w :
  clock (Upload.giveUp sessionId message n w) = clock w ∧
  calls (Upload.giveUp sessionId message n w) = calls w ∧
  effects (Upload.giveUp sessionId message n w)
  = (effects w ++
       [broadcastError sessionId message
          {| code := "AI_ANALYSIS_FAILED"; stage := "analysis";
             retryable := Upload.isRetryableError message;
             details_retryCount := Some (n + 1)%nat |}])%list ∧
  (∀ s e,
     sessionId ≠ "" →
     Run.session w sessionId = Some s →
     expiresAt s = Some e →
     (clock w <= e)%Z →
     ∃ s',
       Run.session (Upload.giveUp sessionId message n w) sessionId = Some s' ∧
       status s' = "error" ∧
       lastError s' = Some message ∧
       retryCount s' = (n + 1)%nat).
Proof.
  split; [done|]. split; [done|]. split; [done|].
  intros s e Hid Hs He Hle. unfold Upload.giveUp.
  eexists. split.
  - unfold Run.session, Run.emit. cbn [manager].
    apply (run_updateSession_live sessionId _ w s e Hid Hs He Hle).
  - done.
Qed.

Lemma retryable_not_model_error (message : string) :
  Upload.isRetryableError message = true → JS.includes message "model not found" = false.
Proof.
  unfold Upload.isRetryableError.
  destruct (JS.includes message "model not found"); [done|done].
Qed.

Lemma upload_retry_step env sessionId service (n : nat) w error :
  failure (generateContentStream env (calls w)) = Some error →
  Upload.isRetryableError (GeminiService.rethrown error) = true →
  (n < Upload.maxRetries)%nat →
  ∃ w1,
    Upload.attempt env sessionId service n w = (w1, Some (GeminiService.rethrown error)) ∧
    calls w1 = S (calls w) ∧
    (∀ e, expires_at w sessionId e → expires_at w1 sessionId e) ∧
    Upload.analyzeWithRetry env sessionId service n w
    = Upload.analyzeWithRetry env sessionId service (S n) w1.
Proof.
  intros Hfail Hretry Hlt.
  destruct (upload_attempt_failure env sessionId service n w error Hfail)
    as (w1 & Hatt & Hcalls & Hexp).
  exists w1. split; [done|]. split; [done|]. split; [done|].
  rewrite upload_analyzeWithRetry_unfold, Hatt. cbn zeta.
  rewrite (retryable_not_model_error _ Hretry), Hretry.
  apply Nat.ltb_lt in Hlt. rewrite Hlt. done.
Qed.

Lemma upload_last_step env sessionId service (n : nat) w error :
  failure (generateContentStream env (calls w)) = Some error →
  Upload.isRetryableError (GeminiService.rethrown error) = true →
  (Upload.maxRetries <= n)%nat →
  ∃ w1,
    Upload.attempt env sessionId service n w = (w1, Some (GeminiService.rethrown error)) ∧
    calls w1 = S (calls w) ∧
    (∀ e, expires_at w sessionId e → expires_at w1 sessionId e) ∧
    Upload.analyzeWithRetry env sessionId service n w
    = Upload.giveUp sessionId (GeminiService.rethrown error) n w1.
Proof.
  intros Hfail Hretry Hge.
  destruct (upload_attempt_failure env sessionId service n w error Hfail)
    as (w1 & Hatt & Hcalls & Hexp).
  exists w1. split; [done|]. split; [done|]. split; [done|].
  rewrite upload_analyzeWithRetry_unfold, Hatt. cbn zeta.
  rewrite (retryable_not_model_error _ Hretry), Hretry.
  assert ((n <? Upload.maxRetries)%nat = false) as -> by (apply Nat.ltb_ge; lia).
  done.
Qed.

(** A run in which every attempt fails with a retryable error: four calls
    of the model, then the workflow gives up at [retryCount = 3]. *)
Lemma upload_exhausted_run env sessionId service w :
  (∀ k, fails_retryably (generateContentStream env k)) →
  ∃ w4 error,
    Upload.isRetryableError (GeminiService.rethrown error) = true ∧
    Upload.analyzeWithRetry env sessionId service 0 w
    = Upload.giveUp sessionId (GeminiService.rethrown error) 3 w4 ∧
    calls w4 = (calls w + 4)%nat ∧
    (∀ e, expires_at w sessionId e → expires_at w4 sessionId e).
Proof.
  intros Hall.
  destruct (Hall (calls w)) as (e0 & Hf0 & Hr0).
  destruct (upload_retry_step env sessionId service 0 w e0 Hf0 Hr0)
    as (w1 & _ & Hc1 & Hx1 & ->); [unfold Upload.maxRetries; lia|].
  destruct (Hall (calls w1)) as (e1 & Hf1 & Hr1).
  destruct (upload_retry_step env sessionId service 1 w1 e1 Hf1 Hr1)
    as (w2 & _ & Hc2 & Hx2 & ->); [unfold Upload.maxRetries; lia|].
  destruct (Hall (calls w2)) as (e2 & Hf2 & Hr2).
  destruct (upload_retry_step env sessionId service 2 w2 e2 Hf2 Hr2)
    as (w3 & _ & Hc3 & Hx3 & ->); [unfold Upload.maxRetries; lia|].
  destruct (Hall (calls w3)) as (e3 & Hf3 & Hr3).
  destruct (upload_last_step env sessionId service 3 w3 e3 Hf3 Hr3)
    as (w4 & _ & Hc4 & Hx4 & ->); [unfold Upload.maxRetries; lia|].
  exists w4, e3. split; [done|]. split; [done|]. split; [lia|].
  intros e He. by apply Hx4, Hx3, Hx2, Hx1.
Qed.

(** C4, on the code.  When every attempt of the analysis fails with a
    retryable error, the upload workflow gives up after four calls of the
    model: the session, if it has not expired, is set to ['error'], and
    the error event carries the final attempt count 4; but the [retryable]
    flag of that event is [true], not [false]. *)
Theorem exhausted_retries_report_retryable env sessionId service w s e :
  (∀ k, fails_retryably (generateContentStream env k)) →
  sessionId ≠ "" →
  Run.session w sessionId = Some s →
  expiresAt s = Some e →
  (clock (Upload.analyzeWithRetry env sessionId service 0 w) <= e)%Z →
  let w' := Upload.analyzeWithRetry env sessionId service 0 w in
  calls w' = (calls w + 4)%nat ∧
  (∃ before message,
     effects w'
     = (before ++
          [broadcastError sessionId message
             {| code := "AI_ANALYSIS_FAILED"; stage := "analysis";
                retryable := true; details_retryCount := Some 4%nat |}])%list) ∧
  (∃ s', Run.session w' sessionId = Some s' ∧ status s' = "error").
Proof.
  intros Hall Hid Hs He Hclock w'. subst w'.
  destruct (upload_exhausted_run env sessionId service w Hall)
    as (w4 & error & Hretry & Hrun & Hcalls & Hexp).
  rewrite Hrun in *.
  destruct (upload_giveUp_spec sessionId (GeminiService.rethrown error) 3 w4)
    as (Hclk & Hc & Heff & Hsess).
  split; [by rewrite Hc|]. split.
  - exists (effects w4), (GeminiService.rethrown error). by rewrite Heff, Hretry.
  - destruct (Hexp e) as (s4 & Hs4 & He4); [by exists s|].
    rewrite Hclk in Hclock.
    destruct (Hsess s4 e Hid Hs4 He4 Hclock) as (s' & Hs' & Hst & _).
    by exists s'.
Qed.

(** C1, on the code.  When every attempt of the analysis fails with a
    retryable error, the upload workflow stores [retryCount = 4] in the
    session as it gives up: the stored count exceeds [maxRetries = 3]. *)
Theorem exhausted_retries_store_four env sessionId service w s e :
  (∀ k, fails_retryably (generateContentStream env k)) →
  sessionId ≠ "" →
  Run.session w sessionId = Some s →
  expiresAt s = Some e →
  (clock (Upload.analyzeWithRetry env sessionId service 0 w) <= e)%Z →
  ∃ s',
    Run.session (Upload.analyzeWithRetry env sessionId service 0 w) sessionId = Some s' ∧
    retryCount s' = 4%nat ∧
    (Upload.maxRetries < retryCount s')%nat.
Proof.
  intros Hall Hid Hs He Hclock.
  destruct (upload_exhausted_run env sessionId service w Hall)
    as (w4 & error & Hretry & Hrun & Hcalls & Hexp).
  rewrite Hrun in *.
  destruct (upload_giveUp_spec sessionId (GeminiService.rethrown error) 3 w4)
    as (Hclk & Hc & Heff & Hsess).
  destruct (Hexp e) as (s4 & Hs4 & He4); [by exists s|].
  rewrite Hclk in Hclock.
  destruct (Hsess s4 e Hid Hs4 He4 Hclock) as (s' & Hs' & _ & _ & Hrc).
  exists s'. split; [done|]. rewrite Hrc. unfold Upload.maxRetries. split; [done|lia].
Qed.

Lemma always_rate_limited :
  ∀ k : nat,
    fails_retryably
      (generateContentStream (Sample.env (λ _, Sample.rate_limited) Sample.extraction) k).
Proof. intros k. eexists. split; reflexivity. Qed.

Lemma exhausted_retries_report_retryable_witness :
  let w' := Upload.analyzeWithRetry (Sample.env (λ _, Sample.rate_limited) Sample.extraction)
              "u1" Sample.service 0 Sample.world in
  calls w' = 4%nat ∧
  (∃ before message,
     effects w'
     = (before ++
          [broadcastError "u1" message
             {| code := "AI_ANALYSIS_FAILED"; stage := "analysis";
                retryable := true; details_retryCount := Some 4%nat |}])%list) ∧
  (∃ s', Run.session w' "u1" = Some s' ∧ status s' = "error").
Proof.
  apply (exhausted_retries_report_retryable
           (Sample.env (λ _, Sample.rate_limited) Sample.extraction)
           "u1" Sample.service Sample.world Sample.session 3600000).
  - apply always_rate_limited.
  - discriminate.
  - reflexivity.
  - reflexivity.
  - compute_done.
Defined.

Lemma exhausted_retries_store_four_witness :
  ∃ s',
    Run.session
      (Upload.analyzeWithRetry (Sample.env (λ _, Sample.rate_limited) Sample.extraction)
         "u1" Sample.service 0 Sample.world) "u1" = Some s' ∧
    retryCount s' = 4%nat ∧
    (Upload.maxRetries < retryCount s')%nat.
Proof.
  apply (exhausted_retries_store_four
           (Sample.env (λ _, Sample.rate_limited) Sample.extraction)
           "u1" Sample.service Sample.world Sample.session 3600000).
  - apply always_rate_limited.
  - discriminate.
  - reflexivity.
  - reflexivity.
  - compute_done.
Defined.

(** The same run, evaluated: the effects in order, with the three backoff
    delays, and the session at the end. *)
Example exhausted_run_on_sample :
  let w' := Upload.analyzeWithRetry (Sample.env (λ _, Sample.rate_limited) Sample.extraction)
              "u1" Sample.service 0 Sample.world in
  effects w'
  = [broadcastAnalysisStarted "u1";
     callGenerateContentStream "gemini-2.0-flash";
     broadcastRetryStarted "u1" 1 (Some "analysis"); setTimeout 1000;
     callGenerateContentStream "gemini-2.0-flash";
     broadcastRetryStarted "u1" 2 (Some "analysis"); setTimeout 2000;
     callGenerateContentStream "gemini-2.0-flash";
     broadcastRetryStarted "u1" 3 (Some "analysis"); setTimeout 4000;
     callGenerateContentStream "gemini-2.0-flash";
     broadcastError "u1" "Rate limit exceeded. Please try again later."
       {| code := "AI_ANALYSIS_FAILED"; stage := "analysis";
          retryable := true; details_retryCount := Some 4%nat |}] ∧
  (status <$> Run.session w' "u1") = Some "error" ∧
  (retryCount <$> Run.session w' "u1") = Some 4%nat ∧
  clock w' = 7090%Z.
Proof. vm_compute. done. Qed.

(** The scenario of the design document, evaluated on the upload
    workflow: the extraction succeeds with "Hello", the analysis fails
    twice with retryable errors and succeeds at the third attempt.  The
    session ends ['completed'] with [retryCount = 2], after
    analysis-started and two retry-started events, in order. *)
Example two_failures_then_success :
  let w' := Upload.processResumeWorkflow
              (Sample.env (λ k, if (k <? 2)%nat then Sample.rate_limited else Sample.plain_text)
                 Sample.extraction)
              "u1" "uploads/resume.pdf" Sample.world in
  effects w'
  = [broadcastExtractionStarted "u1";
     callExtractText "uploads/resume.pdf";
     broadcastExtractionCompleted "u1" "Hello" 5 1;
     broadcastAnalysisStarted "u1";
     callGenerateContentStream "gemini-2.0-flash";
     broadcastRetryStarted "u1" 1 (Some "analysis"); setTimeout 1000;
     callGenerateContentStream "gemini-2.0-flash";
     broadcastRetryStarted "u1" 2 (Some "analysis"); setTimeout 2000;
     callGenerateContentStream "gemini-2.0-flash";
     broadcastAnalysisStreaming "u1" "Looks "; broadcastAnalysisStreaming "u1" "good";
     broadcastAnalysisCompleted "u1" GeminiService.getFallbackFeedback] ∧
  (status <$> Run.session w' "u1") = Some "completed" ∧
  (retryCount <$> Run.session w' "u1") = Some 2%nat ∧
  (extractedText <$> Run.session w' "u1") = Some (Some "Hello").
Proof. vm_compute. done. Qed.

(** ** Classification of the failures of the analysis *)

Lemma upload_attempt_failure_effects env sessionId service (n : nat) w error :
  failure (generateContentStream env (calls w)) = Some error →
  effects (Upload.attempt env sessionId service n w).1
  = (effects w ++ upload_prelude sessionId n
       ++ callGenerateContentStream (GeminiService.model service)
       :: map (broadcastAnalysisStreaming sessionId)
            (chunks (generateContentStream env (calls w))))%list.
Proof.
  intros Hfail. unfold Upload.attempt.
  destruct n as [|n]; cbn [Nat.ltb Nat.leb];
    unfold Run.generate, GeminiService.analyzeResumeStreaming; cbn [calls Run.sleep Run.emit
      Run.updateSession]; rewrite Hfail; cbn [fst];
    rewrite emit_chunks_effects; cbn; rewrite <- ?app_assoc; reflexivity.
Qed.

Lemma upload_giveUp_ends_in_error env sessionId service (n : nat) w error :
  failure (generateContentStream env (calls w)) = Some error →
  Upload.isRetryableError (GeminiService.rethrown error) = false →
  Upload.analyzeWithRetry env sessionId service n w
  = Upload.giveUp sessionId (GeminiService.rethrown error) n
      (Upload.attempt env sessionId service n w).1 →
  ends_in_error sessionId (GeminiService.rethrown error) service n
    (generateContentStream env (calls w)) w
    (Upload.analyzeWithRetry env sessionId service n w).
Proof.
  intros Hfail Hnot Hrun.
  pose proof (upload_attempt_failure_effects env sessionId service n w error Hfail) as Heff.
  destruct (upload_attempt_failure env sessionId service n w error Hfail)
    as (w1 & Hatt & Hcalls & Hexp).
  rewrite Hatt in Hrun, Heff. cbn [fst] in Hrun, Heff. rewrite Hrun.
  destruct (upload_giveUp_spec sessionId (GeminiService.rethrown error) n w1)
    as (Hclk & Hc & He & Hsess).
  split; [by rewrite Hc|]. split.
  - eexists. split.
    + rewrite He, Heff. rewrite <- ?app_assoc. cbn. rewrite <- ?app_assoc. reflexivity.
    + cbn. by rewrite Hnot.
  - intros e Hid Hx Hle. destruct (Hexp e Hx) as (s1 & Hs1 & He1).
    rewrite Hclk in Hle.
    destruct (Hsess s1 e Hid Hs1 He1 Hle) as (s' & Hs' & Hst & Hle' & _).
    by exists s'.
Qed.

Lemma process_analyzeWithRetry_unfold env sessionId service (n : nat) w :
  Process.analyzeWithRetry env sessionId service n w
  = match Process.attempt env sessionId service n w with
    | (w1, None) => w1
    | (w1, Some message) =>
        if (n <? Process.maxRetries)%nat then
          Process.analyzeWithRetry env sessionId service (S n) w1
        else
          Run.emit (broadcastError sessionId "AI analysis failed after multiple attempts"
                      {| code := "AI_ANALYSIS_FAILED"; stage := "analysis";
                         retryable := false;
                         details_retryCount := Some (n + 1)%nat |}) w1
    end.
Proof.
  rewrite Process.analyzeWithRetry_equation_1.
  destruct (Process.attempt env sessionId service n w) as [w1 [message|]]; [|done].
  rewrite Process.analyzeWithRetry_clause_1_equation_1.
  destruct (lt_dec n Process.maxRetries) as [Hlt|Hge];
    [assert ((n <? Process.maxRetries)%nat = true) as -> by (by apply Nat.ltb_lt)
    |assert ((n <? Process.maxRetries)%nat = false) as -> by (by apply Nat.ltb_nlt)];
    done.
Qed.

Lemma process_attempt_failure env sessionId service (n : nat) w error :
  failure (generateContentStream env (calls w)) = Some error →
  ∃ w1,
    Process.attempt env sessionId service n w = (w1, Some (GeminiService.rethrown error)) ∧
    manager w1 = manager w.
Proof.
  intros Hfail. unfold Process.attempt.
  destruct n as [|n]; cbn [Nat.ltb Nat.leb];
    unfold Run.generate, GeminiService.analyzeResumeStreaming;
    cbn [calls Run.sleep Run.emit]; rewrite Hfail;
    (eexists; split; [reflexivity|]);
    match goal with
    | |- manager (fold_left _ ?cs ?w0) = _ =>
        by destruct (emit_chunks_frame (broadcastAnalysisStreaming sessionId) cs w0)
          as (-> & _ & _)
    end.
Qed.

Lemma upload_failure_unfold env sessionId service (n : nat) w error :
  failure (generateContentStream env (calls w)) = Some error →
  let message := GeminiService.rethrown error in
  let w1 := (Upload.attempt env sessionId service n w).1 in
  let modelError := JS.includes message "model not found" in
  let reinit := GeminiService.reinitializeModel env service in
  Upload.analyzeWithRetry env sessionId service n w
  = if modelError && reinit.2 && (n <? Upload.maxRetries)%nat then
      Upload.analyzeWithRetry env sessionId reinit.1 (S n) w1
    else if Upload.isRetryableError message && (n <? Upload.maxRetries)%nat then
      Upload.analyzeWithRetry env sessionId
        (if modelError then reinit.1 else service) (S n) w1
    else Upload.giveUp sessionId message n w1.
Proof.
  intros Hfail.
  destruct (upload_attempt_failure env sessionId service n w error Hfail)
    as (w1 & Hatt & _ & _).
  rewrite upload_analyzeWithRetry_unfold, Hatt. done.
Qed.

Lemma rethrown_status (error : ApiError) :
  (err_status error = Some 401%Z →
   GeminiService.rethrown error
   = "Unauthorized access to AI service. Please check your API key.") ∧
  (err_status error = Some 404%Z →
   GeminiService.rethrown error
   = "AI model not found. Please check if the model name is correct and available.") ∧
  (∀ st, err_status error = Some st → st = 429%Z ∨ (500 <= st)%Z →
         Upload.isRetryableError (GeminiService.rethrown error) = true).
Proof.
  unfold GeminiService.rethrown. split; [|split].
  - intros ->. done.
  - intros ->. done.
  - intros st -> [->|Hst]; [done|].
    rewrite !bool_decide_eq_false_2 by (intros [= ?]; lia).
    apply Z.leb_le in Hst. rewrite Hst. done.
Qed.

(** C3, as amended.  In the upload workflow, a failed attempt [n] of the
    analysis is classified by the message of the error rethrown, which is
    not retryable when it contains "model not found", "Unauthorized" or
    "API key".  A failure that is not retryable ends the run at once (no
    further call of the model, no timer after the failure, one error
    event with [retryable = false], and the session, if not expired, in
    ['error']), except when the message contains "model not found", the
    model is reinitialized with success and [n < 3]: then the analysis is
    attempted again with the reinitialized model.  A retryable failure is
    attempted again while [n < 3].  By status: an unauthorized failure
    (401) ends the run at once; a not-found failure (404) does so only
    when the model cannot be reinitialized or [n >= 3], and is attempted
    again otherwise; rate-limited (429) and server-error (status >= 500)
    failures are attempted again while [n < 3]. *)
Theorem analysis_failure_classification env sessionId service (n : nat) w error :
  failure (generateContentStream env (calls w)) = Some error →
  let outcome := generateContentStream env (calls w) in
  let message := GeminiService.rethrown error in
  let w1 := (Upload.attempt env sessionId service n w).1 in
  let w' := Upload.analyzeWithRetry env sessionId service n w in
  let reinit := GeminiService.reinitializeModel env service in
  (Upload.isRetryableError message = false →
   JS.includes message "model not found" = false ∨ reinit.2 = false
   ∨ (Upload.maxRetries <= n)%nat →
   ends_in_error sessionId message service n outcome w w') ∧
  (JS.includes message "model not found" = true →
   reinit.2 = true → (n < Upload.maxRetries)%nat →
   w' = Upload.analyzeWithRetry env sessionId reinit.1 (S n) w1) ∧
  (Upload.isRetryableError message = true →
   (n < Upload.maxRetries)%nat →
   w' = Upload.analyzeWithRetry env sessionId service (S n) w1) ∧
  (err_status error = Some 401%Z →
   ends_in_error sessionId message service n outcome w w') ∧
  (err_status error = Some 404%Z →
   reinit.2 = false ∨ (Upload.maxRetries <= n)%nat →
   ends_in_error sessionId message service n outcome w w') ∧
  (err_status error = Some 404%Z →
   reinit.2 = true → (n < Upload.maxRetries)%nat →
   w' = Upload.analyzeWithRetry env sessionId reinit.1 (S n) w1) ∧
  (∀ st, err_status error = Some st → st = 429%Z ∨ (500 <= st)%Z →
         (n < Upload.maxRetries)%nat →
         w' = Upload.analyzeWithRetry env sessionId service (S n) w1).
Proof.
  intros Hfail outcome message w1 w' reinit.
  pose proof (upload_failure_unfold env sessionId service n w error Hfail) as Hrun.
  cbn zeta in Hrun. fold message w1 reinit w' in Hrun.
  destruct (rethrown_status error) as (H401 & H404 & Hretry).
  assert (Upload.isRetryableError message = true → (n < Upload.maxRetries)%nat →
          w' = Upload.analyzeWithRetry env sessionId service (S n) w1) as Hagain.
  { intros Hr Hlt. rewrite Hrun, (retryable_not_model_error _ Hr), Hr.
    apply Nat.ltb_lt in Hlt. by rewrite Hlt. }
  assert (Upload.isRetryableError message = false →
          JS.includes message "model not found" = false ∨ reinit.2 = false
          ∨ (Upload.maxRetries <= n)%nat →
          ends_in_error sessionId message service n outcome w w') as Hstop.
  { intros Hnot Hcond. apply upload_giveUp_ends_in_error; [done|done|].
    fold message w1 w'. rewrite Hrun, Hnot.
    assert (JS.includes message "model not found" && reinit.2
            && (n <? Upload.maxRetries)%nat = false) as ->; [|done].
    destruct Hcond as [->|[->|Hge]]; [done|by rewrite andb_false_r|].
    apply Nat.ltb_ge in Hge. rewrite Hge. by rewrite andb_false_r. }
  assert (JS.includes message "model not found" = true →
          reinit.2 = true → (n < Upload.maxRetries)%nat →
          w' = Upload.analyzeWithRetry env sessionId reinit.1 (S n) w1) as Hmodel.
  { intros Hm Hre Hlt. rewrite Hrun, Hm, Hre. apply Nat.ltb_lt in Hlt. by rewrite Hlt. }
  split_and!.
  - exact Hstop.
  - exact Hmodel.
  - exact Hagain.
  - intros Hst. apply Hstop; subst message; rewrite (H401 Hst); [done|by left].
  - intros Hst Hor. apply Hstop.
    + subst message. by rewrite (H404 Hst).
    + by right.
  - intros Hst. apply Hmodel. subst message. by rewrite (H404 Hst).
  - intros st Hst Hor Hlt. apply Hagain; [|done]. by eapply Hretry.
Qed.

Lemma analysis_failure_classification_witness :
  ends_in_error "u1" "Unauthorized access to AI service. Please check your API key."
    Sample.service 0 Sample.unauthorized Sample.world
    (Upload.analyzeWithRetry (Sample.env (λ _, Sample.unauthorized) Sample.extraction)
       "u1" Sample.service 0 Sample.world) ∧
  ends_in_error "u1" "AI analysis failed: API key not valid. Please pass a valid API key."
    Sample.service 0 Sample.invalid_key Sample.world
    (Upload.analyzeWithRetry (Sample.env (λ _, Sample.invalid_key) Sample.extraction)
       "u1" Sample.service 0 Sample.world) ∧
  Upload.analyzeWithRetry (Sample.env (λ _, Sample.not_found) Sample.extraction)
    "u1" Sample.service 0 Sample.world
  = Upload.analyzeWithRetry (Sample.env (λ _, Sample.not_found) Sample.extraction)
      "u1" Sample.service 1
      (Upload.attempt (Sample.env (λ _, Sample.not_found) Sample.extraction)
         "u1" Sample.service 0 Sample.world).1 ∧
  Upload.analyzeWithRetry (Sample.env (λ _, Sample.rate_limited) Sample.extraction)
    "u1" Sample.service 0 Sample.world
  = Upload.analyzeWithRetry (Sample.env (λ _, Sample.rate_limited) Sample.extraction)
      "u1" Sample.service 1
      (Upload.attempt (Sample.env (λ _, Sample.rate_limited) Sample.extraction)
         "u1" Sample.service 0 Sample.world).1.
Proof.
  split; [|split; [|split]].
  - destruct (analysis_failure_classification
                (Sample.env (λ _, Sample.unauthorized) Sample.extraction)
                "u1" Sample.service 0 Sample.world
                {| err_status := Some 401%Z; err_message := "Unauthorized" |} eq_refl)
      as (_ & _ & _ & Hunauthorized & _).
    apply Hunauthorized. reflexivity.
  - destruct (analysis_failure_classification
                (Sample.env (λ _, Sample.invalid_key) Sample.extraction)
                "u1" Sample.service 0 Sample.world
                {| err_status := Some 400%Z;
                   err_message := "API key not valid. Please pass a valid API key." |}
                eq_refl)
      as (Hstop & _).
    apply Hstop.
    + reflexivity.
    + left. reflexivity.
  - destruct (analysis_failure_classification
                (Sample.env (λ _, Sample.not_found) Sample.extraction)
                "u1" Sample.service 0 Sample.world
                {| err_status := Some 404%Z; err_message := "Not Found" |} eq_refl)
      as (_ & _ & _ & _ & _ & Hnotfound & _).
    apply Hnotfound.
    + reflexivity.
    + reflexivity.
    + unfold Upload.maxRetries. lia.
  - destruct (analysis_failure_classification
                (Sample.env (λ _, Sample.rate_limited) Sample.extraction)
                "u1" Sample.service 0 Sample.world
                {| err_status := Some 429%Z; err_message := "Too Many Requests" |} eq_refl)
      as (_ & _ & _ & _ & _ & _ & Hlimited).
    apply (Hlimited 429%Z).
    + reflexivity.
    + by left.
    + unfold Upload.maxRetries. lia.
Defined.

(** C3, the claim as stated fails.  A not-found failure of the first
    attempt does not end the run: the model is reinitialized and, after a
    backoff of 1000 ms, called again, and the session completes.  And a
    failure that is neither unauthorized nor not-found (status 400) whose
    message mentions the API key is not retried. *)
Lemma not_found_is_retried_and_other_is_not :
  (let w' := Upload.analyzeWithRetry
               (Sample.env (λ k, if (k =? 0)%nat then Sample.not_found else Sample.plain_text)
                  Sample.extraction)
               "u1" Sample.service 0 Sample.world in
   effects w'
   = [broadcastAnalysisStarted "u1";
      callGenerateContentStream "gemini-2.0-flash";
      broadcastRetryStarted "u1" 1 (Some "analysis"); setTimeout 1000;
      callGenerateContentStream "gemini-2.0-flash";
      broadcastAnalysisStreaming "u1" "Looks "; broadcastAnalysisStreaming "u1" "good";
      broadcastAnalysisCompleted "u1" GeminiService.getFallbackFeedback] ∧
   (status <$> Run.session w' "u1") = Some "completed" ∧
   calls w' = 2%nat) ∧
  (let w' := Upload.analyzeWithRetry
               (Sample.env (λ _, Sample.invalid_key) Sample.extraction)
               "u1" Sample.service 0 Sample.world in
   effects w'
   = [broadcastAnalysisStarted "u1";
      callGenerateContentStream "gemini-2.0-flash";
      broadcastError "u1"
        "AI analysis failed: API key not valid. Please pass a valid API key."
        {| code := "AI_ANALYSIS_FAILED"; stage := "analysis";
           retryable := false; details_retryCount := Some 1%nat |}] ∧
   (status <$> Run.session w' "u1") = Some "error" ∧
   calls w' = 1%nat).
Proof. vm_compute. done. Qed.

(** An unauthorized failure of the first attempt, evaluated: the run ends
    at once with [retryable = false]; the count stored and reported is 1. *)
Example unauthorized_first_attempt_on_sample :
  let w' := Upload.analyzeWithRetry
              (Sample.env (λ _, Sample.unauthorized) Sample.extraction)
              "u1" Sample.service 0 Sample.world in
  effects w'
  = [broadcastAnalysisStarted "u1";
     callGenerateContentStream "gemini-2.0-flash";
     broadcastError "u1" "Unauthorized access to AI service. Please check your API key."
       {| code := "AI_ANALYSIS_FAILED"; stage := "analysis";
          retryable := false; details_retryCount := Some 1%nat |}] ∧
  (status <$> Run.session w' "u1") = Some "error" ∧
  (retryCount <$> Run.session w' "u1") = Some 1%nat ∧
  clock w' = 30%Z.
Proof. vm_compute. done. Qed.

(** A run of the workflow of routes/process.js in which every attempt is
    rate limited, evaluated: the error event has [retryable = false] and
    the attempt count 4, and the session is left as it was. *)
Example process_exhausted_run_on_sample :
  let w' := Process.analyzeWithRetry (Sample.env (λ _, Sample.rate_limited) Sample.extraction)
              "u1" Sample.service 0 Sample.world in
  effects w'
  = [broadcastAnalysisStarted "u1";
     callGenerateContentStream "gemini-2.0-flash";
     broadcastRetryStarted "u1" 1 (Some "analysis"); setTimeout 1000;
     callGenerateContentStream "gemini-2.0-flash";
     broadcastRetryStarted "u1" 2 (Some "analysis"); setTimeout 2000;
     callGenerateContentStream "gemini-2.0-flash";
     broadcastRetryStarted "u1" 3 (Some "analysis"); setTimeout 4000;
     callGenerateContentStream "gemini-2.0-flash";
     broadcastError "u1" "AI analysis failed after multiple attempts"
       {| code := "AI_ANALYSIS_FAILED"; stage := "analysis";
          retryable := false; details_retryCount := Some 4%nat |}] ∧
  Run.session w' "u1" = Some Sample.session.
Proof. vm_compute. done. Qed.

(** The workflow of routes/process.js has no classification of the
    failure: evaluated on a run in which every attempt is unauthorized,
    it calls the model four times before it reports the error. *)
Example process_unauthorized_run_on_sample :
  let w' := Process.analyzeWithRetry (Sample.env (λ _, Sample.unauthorized) Sample.extraction)
              "u1" Sample.service 0 Sample.world in
  calls w' = 4%nat ∧
  last (effects w')
  = Some (broadcastError "u1" "AI analysis failed after multiple attempts"
            {| code := "AI_ANALYSIS_FAILED"; stage := "analysis";
               retryable := false; details_retryCount := Some 4%nat |}) ∧
  Run.session w' "u1" = Some Sample.session.
Proof. vm_compute. done. Qed.

(** ** The manual retry triggers *)

Lemma process_attempt_manager env sessionId service (n : nat) w :
  manager (Process.attempt env sessionId service n w).1 = manager w.
Proof.
  unfold Process.attempt.
  destruct n as [|n]; cbn [Nat.ltb Nat.leb];
    unfold Run.generate, GeminiService.analyzeResumeStreaming;
    destruct (failure _); cbn [fst Run.emit manager];
    match goal with
    | |- manager (fold_left _ ?cs ?w0) = _ =>
        by destruct (emit_chunks_frame (broadcastAnalysisStreaming sessionId) cs w0)
          as (-> & _ & _)
    end.
Qed.

(** The workflow of routes/process.js never writes to the registry, and
    only adds effects. *)
Lemma process_analyzeWithRetry_frame env sessionId service (n : nat) w :
  manager (Process.analyzeWithRetry env sessionId service n w) = manager w ∧
  ∃ more, effects (Process.analyzeWithRetry env sessionId service n w)
          = (effects w ++ more)%list.
Proof.
  remember (Process.maxRetries - n)%nat as k eqn:Hk.
  revert n w Hk. induction (lt_wf k) as [k _ IH]. intros n w Hk.
  rewrite process_analyzeWithRetry_unfold.
  pose proof (process_attempt_manager env sessionId service n w) as Hm.
  destruct (process_attempt_effects env sessionId service n w) as [rest He].
  destruct (Process.attempt env sessionId service n w) as [w1 [message|]]; cbn [fst] in *.
  - destruct (n <? Process.maxRetries)%nat eqn:Hlt.
    + apply Nat.ltb_lt in Hlt.
      destruct (IH (Process.maxRetries - S n)%nat ltac:(lia) (S n) w1 eq_refl)
        as (Hm' & more & He').
      split; [by rewrite Hm'|]. eexists. rewrite He', He, <- app_assoc. reflexivity.
    + split; [done|]. eexists. cbn. rewrite He, <- app_assoc. reflexivity.
  - split; [done|]. eexists. exact He.
Qed.

Lemma process_workflow_frame env sessionId session w :
  manager (Process.processResumeWorkflow env sessionId session w) = manager w ∧
  ∃ more, effects (Process.processResumeWorkflow env sessionId session w)
          = (effects w ++ more)%list.
Proof.
  unfold Process.processResumeWorkflow.
  destruct (GeminiService.new env) as [service|m]; [|split; [done|by eexists]].
  unfold Run.extract.
  destruct (extractText env _) as [text len pages|ty msg|msg].
  - match goal with
    | |- context [Process.analyzeWithRetry env sessionId service 0 ?w0] =>
        destruct (process_analyzeWithRetry_frame env sessionId service 0 w0)
          as (Hm & more & He)
    end.
    split; [by rewrite Hm|]. eexists. rewrite He. cbn. rewrite <- !app_assoc. reflexivity.
  - split; [done|]. eexists. cbn. rewrite <- !app_assoc. reflexivity.
  - split; [done|]. eexists. cbn. rewrite <- !app_assoc. reflexivity.
Qed.

Lemma run_getSession_live sessionId w s e :
  sessionId ≠ "" →
  Run.session w sessionId = Some s →
  expiresAt s = Some e →
  (clock w <= e)%Z →
  ∃ w1 copy,
    Run.getSession sessionId w = (w1, Some (copy, s)) ∧
    Run.session w1 sessionId = Some s ∧
    SessionManager.sessions (manager w1) = SessionManager.sessions (manager w) ∧
    clock w1 = clock w ∧ calls w1 = calls w ∧ effects w1 = effects w.
Proof.
  intros Hid Hs He Hle. unfold Run.getSession, Run.session in *.
  unfold SessionManager.getSession.
  rewrite (invalidId_false _ Hid), Hs.
  assert (SessionManager.isSessionExpired (clock w) (Some s) = false) as ->.
  { cbn. rewrite He. by apply Z.ltb_ge. }
  eexists _, _. split; [reflexivity|]. cbn [manager].
  split; [by apply alloc_get_old|]. done.
Qed.

(** C2, on the code.  The retry route of routes/process.js has no guard:
    for a stored, unexpired session in any status, ['completed'] included,
    and with any retry count, it answers 200, sets the status to
    ['retrying'], clears the error, increments [retryCount], and runs the
    workflow again from its start, which leaves the registry as the route
    set it. *)
Theorem process_retry_accepts_any_state env sessionId w s e :
  sessionId ≠ "" →
  Run.session w sessionId = Some s →
  expiresAt s = Some e →
  (clock w <= e)%Z →
  let result := Process.retry env sessionId w in
  http_status result.2 = 200%nat ∧
  http_success result.2 = true ∧
  http_retryCount result.2 = Some (retryCount s + 1)%nat ∧
  (∃ s', Run.session result.1 sessionId = Some s' ∧
         status s' = "retrying" ∧
         retryCount s' = (retryCount s + 1)%nat ∧
         lastError s' = None ∧
         feedback s' = feedback s) ∧
  (∃ more, effects result.1 = (effects w ++ more)%list).
Proof.
  intros Hid Hs He Hle result. subst result. unfold Process.retry.
  destruct (run_getSession_live sessionId w s e Hid Hs He Hle)
    as (w1 & copy & -> & Hs1 & _ & Hclk & _ & Heff).
  cbn [fst snd http_status http_success http_retryCount].
  split; [done|]. split; [done|]. split; [done|].
  match goal with
  | |- context [Process.processResumeWorkflow env sessionId s ?w0] =>
      destruct (process_workflow_frame env sessionId s w0) as (Hm & more & Hmore);
      assert (Run.session w0 sessionId
              = Some (with_sessionId sessionId (with_updatedAt (clock w1)
                        (spread s {| set_sessionId := None; set_status := Some "retrying";
                                     set_expiresAt := None;
                                     set_retryCount := Some (retryCount s + 1)%nat;
                                     set_lastError := Some None; set_extractedText := None;
                                     set_feedback := None; set_completedAt := None;
                                     set_fileInfo := None |}))))
        as Hupd by (apply (run_updateSession_live sessionId _ w1 s e); [done|done|done|lia])
  end.
  split.
  - eexists. split; [unfold Run.session in *; rewrite Hm; exact Hupd|done].
  - eexists. rewrite Hmore. cbn. rewrite Heff. reflexivity.
Qed.

Lemma process_retry_accepts_any_state_witness :
  let result := Process.retry (Sample.env (λ _, Sample.plain_text) Sample.extraction)
                  "u1" Sample.completed_world in
  http_status result.2 = 200%nat ∧
  http_success result.2 = true ∧
  http_retryCount result.2 = Some 4%nat ∧
  (∃ s', Run.session result.1 "u1" = Some s' ∧
         status s' = "retrying" ∧
         retryCount s' = 4%nat ∧
         lastError s' = None ∧
         feedback s' = Some Sample.feedback_value) ∧
  (∃ more, effects result.1 = (effects Sample.completed_world ++ more)%list).
Proof.
  apply (process_retry_accepts_any_state
           (Sample.env (λ _, Sample.plain_text) Sample.extraction)
           "u1" Sample.completed_world Sample.completed_session 3600000).
  - discriminate.
  - reflexivity.
  - reflexivity.
  - compute_done.
Defined.

(** The same request, evaluated: the completed session is back in
    ['retrying'] with count 4, and the workflow has run again from the
    extraction. *)
Example process_retry_on_completed_session :
  let result := Process.retry (Sample.env (λ _, Sample.plain_text) Sample.extraction)
                  "u1" Sample.completed_world in
  (status <$> Run.session Sample.completed_world "u1") = Some "completed" ∧
  (retryCount <$> Run.session Sample.completed_world "u1") = Some 3%nat ∧
  http_status result.2 = 200%nat ∧
  (status <$> Run.session result.1 "u1") = Some "retrying" ∧
  (retryCount <$> Run.session result.1 "u1") = Some 4%nat ∧
  effects result.1
  = [broadcastExtractionStarted "u1";
     callExtractText "backend/uploads/undefined";
     broadcastExtractionCompleted "u1" "Hello" 5 1;
     broadcastAnalysisStarted "u1";
     callGenerateContentStream "gemini-2.0-flash";
     broadcastAnalysisStreaming "u1" "Looks "; broadcastAnalysisStreaming "u1" "good";
     broadcastAnalysisCompleted "u1" GeminiService.getFallbackFeedback].
Proof. vm_compute. done. Qed.

(** The retry route of routes/sse.js, for a stored and unexpired session:
    it refuses, and changes neither the stored session nor the effects,
    when the status is not ['error'] or when the count is already 3; else
    it sets the status to ['retrying'], clears the error, increments the
    count, which stays at most 3, and emits retry-started.  It starts no
    run of the analysis. *)
Lemma sse_retry_guards sessionId w s e :
  sessionId ≠ "" →
  Run.session w sessionId = Some s →
  expiresAt s = Some e →
  (clock w <= e)%Z →
  let result := Sse.retry sessionId w in
  (status s ≠ "error" →
   http_status result.2 = 400%nat ∧
   http_code result.2 = Some "INVALID_SESSION_STATE" ∧
   Run.session result.1 sessionId = Some s ∧
   SessionManager.sessions (manager result.1) = SessionManager.sessions (manager w) ∧
   effects result.1 = effects w ∧ calls result.1 = calls w) ∧
  (status s = "error" → (3 <= retryCount s)%nat →
   http_status result.2 = 400%nat ∧
   http_code result.2 = Some "MAX_RETRIES_EXCEEDED" ∧
   Run.session result.1 sessionId = Some s ∧
   SessionManager.sessions (manager result.1) = SessionManager.sessions (manager w) ∧
   effects result.1 = effects w ∧ calls result.1 = calls w) ∧
  (status s = "error" → (retryCount s < 3)%nat →
   http_status result.2 = 200%nat ∧
   http_retryCount result.2 = Some (retryCount s + 1)%nat ∧
   (∃ s', Run.session result.1 sessionId = Some s' ∧
          status s' = "retrying" ∧
          lastError s' = None ∧
          retryCount s' = (retryCount s + 1)%nat ∧
          (retryCount s' <= 3)%nat) ∧
   effects result.1
   = (effects w ++ [broadcastRetryStarted sessionId (retryCount s + 1)%nat None])%list ∧
   calls result.1 = calls w).
Proof.
  intros Hid Hs He Hle result. subst result. unfold Sse.retry.
  apply String.eqb_neq in Hid as Hid'. rewrite Hid'.
  destruct (run_getSession_live sessionId w s e Hid Hs He Hle)
    as (w1 & copy & -> & Hs1 & Hmap & Hclk & Hcalls & Heff).
  split; [|split].
  - intros Hst. apply String.eqb_neq in Hst. rewrite Hst. done.
  - intros Hst Hge. apply String.eqb_eq in Hst. rewrite Hst. cbn [negb].
    assert ((3 <? retryCount s + 1)%nat = true) as -> by (apply Nat.ltb_lt; lia).
    done.
  - intros Hst Hlt. apply String.eqb_eq in Hst. rewrite Hst. cbn [negb].
    assert ((3 <? retryCount s + 1)%nat = false) as -> by (apply Nat.ltb_ge; lia).
    cbn [fst snd http_status http_retryCount].
    split; [done|]. split; [done|]. split; [|by rewrite <- Heff, <- Hcalls].
    eexists. split.
    + apply (run_updateSession_live sessionId _ w1 s e); [done|done|done|lia].
    + cbn. split; [done|]. split; [done|]. split; [done|lia].
Qed.

(** * Further properties *)

(** ** The session registry: operations and their composition *)

Lemma get_after_store (st : SessionManager.t) (sessionId : string) (s : Session) :
  let st1 := (SessionManager.alloc s st).1 in
  let l := (SessionManager.alloc s st).2 in
  let st2 := SessionManager.set_sessions (<[sessionId := l]> (SessionManager.sessions st1)) st1 in
  SessionManager.get st2 sessionId = Some s ∧
  ∀ other s', other ≠ sessionId →
    SessionManager.get st other = Some s' → SessionManager.get st2 other = Some s'.
Proof.
  cbn zeta. split.
  - unfold SessionManager.get. cbn. rewrite lookup_insert_eq. cbn.
    by rewrite lookup_insert_eq.
  - intros other s' Hne Hget. unfold SessionManager.get in *. cbn.
    rewrite lookup_insert_ne by done.
    destruct (SessionManager.sessions st !! other) as [l|]; [|done]. cbn in *.
    rewrite lookup_insert_ne; [done|].
    intros <-. pose proof (alloc_fresh s st) as Hf. cbn in Hf. congruence.
Qed.

(** An update of a stored, unexpired session: the object stored after it. *)
Lemma updateSession_result (now : Z) (id : string) (data : Partial)
    (st : SessionManager.t) (s : Session) (e : Z) :
  id ≠ "" →
  SessionManager.get st id = Some s →
  expiresAt s = Some e →
  (now <= e)%Z →
  (SessionManager.updateSession now id data st).2 = true ∧
  SessionManager.get (SessionManager.updateSession now id data st).1 id
  = Some (with_sessionId id (with_updatedAt now (spread s data))) ∧
  (∀ other s', other ≠ id →
     SessionManager.get st other = Some s' →
     SessionManager.get (SessionManager.updateSession now id data st).1 other = Some s').
Proof.
  intros Hid Hget He Hle. unfold SessionManager.updateSession.
  rewrite (invalidId_false _ Hid), Hget.
  assert (SessionManager.isSessionExpired now (Some s) = false) as ->.
  { cbn. rewrite He. by apply Z.ltb_ge. }
  destruct (get_after_store st id (with_sessionId id (with_updatedAt now (spread s data))))
    as [Hnew Hold].
  cbn zeta in Hnew, Hold. cbn [fst snd] in *. done.
Qed.

(** X1. An update of a stored, unexpired session succeeds: whatever the
    update data hold, the stored object keeps the session id under which
    it is stored, gets [updatedAt = now], takes the other properties from
    the update data where they are given and from the old object where
    not, and keeps [createdAt]; every other session is left as it was. *)
Theorem updateSession_merges (now : Z) (id : string) (data : Partial)
    (st : SessionManager.t) (s : Session) (e : Z) :
  id ≠ "" →
  SessionManager.get st id = Some s →
  expiresAt s = Some e →
  (now <= e)%Z →
  (SessionManager.updateSession now id data st).2 = true ∧
  (∃ s',
     SessionManager.get (SessionManager.updateSession now id data st).1 id
     = Some s' ∧
     sessionId s' = id ∧
     updatedAt s' = now ∧
     createdAt s' = createdAt s ∧
     status s' = default (status s) (set_status data) ∧
     retryCount s' = default (retryCount s) (set_retryCount data) ∧
     lastError s' = default (lastError s) (set_lastError data) ∧
     expiresAt s' = Some (default e (set_expiresAt data)) ∧
     feedback s' = (match set_feedback data with Some f => Some f | None => feedback s end)) ∧
  (∀ other s', other ≠ id →
     SessionManager.get st other = Some s' →
     SessionManager.get (SessionManager.updateSession now id data st).1 other
     = Some s').
Proof.
  intros Hid Hget He Hle.
  destruct (updateSession_result now id data st s e Hid Hget He Hle) as (Hok & Hnew & Hold).
  split; [done|]. split; [|done].
  eexists. split; [exact Hnew|]. cbn. rewrite He.
  split_and!; try done. by destruct (set_expiresAt data).
Qed.

Lemma updateSession_merges_witness :
  (SessionManager.updateSession 1000 "u1" Sample.rename_update Sample.store).2 = true ∧
  (∃ s',
     SessionManager.get
       (SessionManager.updateSession 1000 "u1" Sample.rename_update Sample.store).1 "u1"
     = Some s' ∧
     sessionId s' = "u1" ∧
     updatedAt s' = 1000%Z ∧
     createdAt s' = 0%Z ∧
     status s' = "extracting" ∧
     retryCount s' = 0%nat ∧
     lastError s' = None ∧
     expiresAt s' = Some 3600000%Z ∧
     feedback s' = None) ∧
  (∀ other s', other ≠ "u1" →
     SessionManager.get Sample.store other = Some s' →
     SessionManager.get
       (SessionManager.updateSession 1000 "u1" Sample.rename_update Sample.store).1 other
     = Some s').
Proof.
  apply (updateSession_merges 1000 "u1" Sample.rename_update Sample.store
           Sample.session 3600000).
  - discriminate.
  - reflexivity.
  - reflexivity.
  - lia.
Defined.

(** X2. A session that has just been created can be read back: with an
    identifier [uuid] that is not empty and initial data that do not set
    the expiry, [createSession] returns a non-empty id, and [getSession]
    of that id, at any time up to 60 minutes after the creation, returns
    the session with [createdAt = now], expiry [now + 3600000], and the
    status and retry count of the initial data or else ['created'] and 0.
    A session stored before under the same id is replaced; the sessions
    stored under other ids are kept. *)
Theorem createSession_then_getSession (now later : Z) (uuid : string) (data : Partial)
    (st : SessionManager.t) :
  uuid ≠ "" →
  set_expiresAt data = None →
  (later <= now + 3600000)%Z →
  let created := SessionManager.createSession now uuid data st in
  created.2 ≠ "" ∧
  (set_sessionId data = None → created.2 = uuid) ∧
  (∀ id, set_sessionId data = Some id → id ≠ "" → created.2 = id) ∧
  (∃ copy s,
     (SessionManager.getSession later created.2 created.1).2 = Some (copy, s) ∧
     createdAt s = now ∧
     expiresAt s = Some (now + 3600000)%Z ∧
     status s = default "created" (set_status data) ∧
     retryCount s = default 0%nat (set_retryCount data)) ∧
  (∀ other s', other ≠ created.2 →
     SessionManager.get st other = Some s' →
     SessionManager.get created.1 other = Some s').
Proof.
  intros Huuid Hexp Hlater created.
  set (id := match set_sessionId data with
             | Some i => if String.eqb i "" then uuid else i
             | None => uuid
             end).
  set (s1 := spread {| sessionId := id; status := "created"; createdAt := now;
                       updatedAt := now;
                       expiresAt := Some (now + SessionManager.defaultExpirationTime)%Z;
                       retryCount := 0; lastError := None; extractedText := None;
                       feedback := None; completedAt := None; fileInfo := None |} data).
  assert (created
          = (SessionManager.set_sessions
               (<[id := (SessionManager.alloc s1 st).2]>
                  (SessionManager.sessions (SessionManager.alloc s1 st).1))
               (SessionManager.alloc s1 st).1, id)) as -> by reflexivity.
  assert (id ≠ "") as Hid.
  { subst id. destruct (set_sessionId data) as [i|]; [|done].
    destruct (String.eqb_spec i ""); done. }
  destruct (get_after_store st id s1) as [Hnew Hold]. cbn zeta in Hnew, Hold.
  cbn [fst snd]. split; [done|]. split; [|split; [|split]].
  - intros Hnone. subst id. by rewrite Hnone.
  - intros i Hi Hne. subst id. rewrite Hi.
    apply String.eqb_neq in Hne. by rewrite Hne.
  - unfold SessionManager.getSession.
    rewrite (invalidId_false _ Hid), Hnew.
    assert (SessionManager.isSessionExpired later (Some s1) = false) as ->.
    { subst s1. cbn. rewrite Hexp. apply Z.ltb_ge.
      unfold SessionManager.defaultExpirationTime. lia. }
    eexists _, s1. split; [reflexivity|]. subst s1. cbn. rewrite Hexp.
    split; [done|]. split; [done|]. done.
  - exact Hold.
Qed.

Lemma createSession_then_getSession_witness :
  let created := SessionManager.createSession 1000000 "fresh" Sample.upload_data Sample.store in
  created.2 ≠ "" ∧
  (set_sessionId Sample.upload_data = None → created.2 = "fresh") ∧
  (∀ id, set_sessionId Sample.upload_data = Some id → id ≠ "" → created.2 = id) ∧
  (∃ copy s,
     (SessionManager.getSession 4600000 created.2 created.1).2 = Some (copy, s) ∧
     createdAt s = 1000000%Z ∧
     expiresAt s = Some (1000000 + 3600000)%Z ∧
     status s = default "created" (set_status Sample.upload_data) ∧
     retryCount s = default 0%nat (set_retryCount Sample.upload_data)) ∧
  (∀ other s', other ≠ created.2 →
     SessionManager.get Sample.store other = Some s' →
     SessionManager.get created.1 other = Some s').
Proof.
  apply (createSession_then_getSession 1000000 4600000 "fresh" Sample.upload_data Sample.store).
  - discriminate.
  - reflexivity.
  - lia.
Defined.

(** X3. After [deleteSession] of a non-empty id, which returns whether
    the id was stored, the session is gone for every operation:
    [getSession], [updateSession], [sessionExists] and [extendSession]
    fail and change nothing, a second [deleteSession] returns [false],
    and the other sessions are as they were. *)
Theorem deleteSession_then_absent (now : Z) (id : string) (data : Partial) (extra : Z)
    (st : SessionManager.t) :
  id ≠ "" →
  let deleted := SessionManager.deleteSession id st in
  (deleted.2 = true ↔ is_Some (SessionManager.sessions st !! id)) ∧
  SessionManager.getSession now id deleted.1 = (deleted.1, None) ∧
  SessionManager.updateSession now id data deleted.1 = (deleted.1, false) ∧
  SessionManager.sessionExists now id deleted.1 = (deleted.1, false) ∧
  SessionManager.extendSession now id extra deleted.1 = (deleted.1, false) ∧
  SessionManager.deleteSession id deleted.1 = (deleted.1, false) ∧
  (∀ other, other ≠ id →
     SessionManager.get deleted.1 other = SessionManager.get st other).
Proof.
  intros Hid deleted. subst deleted. unfold SessionManager.deleteSession.
  rewrite (invalidId_false _ Hid). cbn [fst snd].
  set (st' := SessionManager.set_sessions _ st).
  assert (SessionManager.get st' id = None) as Hnone.
  { unfold SessionManager.get. cbn. by rewrite lookup_delete_eq. }
  split_and!.
  - rewrite bool_decide_eq_true. done.
  - unfold SessionManager.getSession. by rewrite (invalidId_false _ Hid), Hnone.
  - unfold SessionManager.updateSession. by rewrite (invalidId_false _ Hid), Hnone.
  - unfold SessionManager.sessionExists. by rewrite (invalidId_false _ Hid), Hnone.
  - unfold SessionManager.extendSession. by rewrite Hnone.
  - cbn. rewrite lookup_delete_eq.
    rewrite bool_decide_eq_false_2 by (by intros [? ?]).
    unfold SessionManager.set_sessions. cbn. by rewrite delete_delete_eq.
  - intros other Hne. unfold SessionManager.get. cbn. by rewrite lookup_delete_ne.
Qed.

Lemma deleteSession_then_absent_witness :
  let deleted := SessionManager.deleteSession "u1" Sample.two_sessions in
  (deleted.2 = true ↔ is_Some (SessionManager.sessions Sample.two_sessions !! "u1")) ∧
  SessionManager.getSession 5 "u1" deleted.1 = (deleted.1, None) ∧
  SessionManager.updateSession 5 "u1" Sample.rename_update deleted.1 = (deleted.1, false) ∧
  SessionManager.sessionExists 5 "u1" deleted.1 = (deleted.1, false) ∧
  SessionManager.extendSession 5 "u1" 1000 deleted.1 = (deleted.1, false) ∧
  SessionManager.deleteSession "u1" deleted.1 = (deleted.1, false) ∧
  (∀ other, other ≠ "u1" →
     SessionManager.get deleted.1 other = SessionManager.get Sample.two_sessions other).
Proof.
  apply (deleteSession_then_absent 5 "u1" Sample.rename_update 1000 Sample.two_sessions).
  discriminate.
Defined.

(** X4. For a stored, unexpired session and an additional time such that
    the expiry, the additional time and their sum are time values of the
    [Date] range, [extendSession] moves the expiry later by the
    additional time and changes nothing else but [updatedAt]; two
    extensions in a row add up, under the same condition on the second.
    It does not revive a session whose expiry has passed: it returns
    [false] and changes nothing. *)
Theorem extendSession_adds (now : Z) (id : string) (extra : Z)
    (st : SessionManager.t) (s : Session) (e : Z) :
  id ≠ "" →
  SessionManager.get st id = Some s →
  expiresAt s = Some e →
  valid_time e →
  valid_time extra →
  ((now <= e)%Z →
   valid_time (e + extra) →
   (SessionManager.extendSession now id extra st).2 = true ∧
   SessionManager.get (SessionManager.extendSession now id extra st).1 id
   = Some (with_updatedAt now
             {| sessionId := id; status := status s; createdAt := createdAt s;
                updatedAt := updatedAt s; expiresAt := Some (e + extra)%Z;
                retryCount := retryCount s; lastError := lastError s;
                extractedText := extractedText s; feedback := feedback s;
                completedAt := completedAt s; fileInfo := fileInfo s |}) ∧
   ∀ more, valid_time more → valid_time (e + extra + more) →
     (now <= e + extra)%Z →
     expiresAt <$>
       SessionManager.get
         (SessionManager.extendSession now id more
            (SessionManager.extendSession now id extra st).1).1 id
     = Some (Some (e + extra + more)%Z)) ∧
  ((e < now)%Z → SessionManager.extendSession now id extra st = (st, false)).
Proof.
  intros Hid Hget He _ _. split.
  - intros Hle _.
    assert (SessionManager.isSessionExpired now (Some s) = false) as Hlive.
    { cbn. rewrite He. by apply Z.ltb_ge. }
    unfold SessionManager.extendSession at 1 2. rewrite Hget, Hlive, He.
    match goal with
    | |- context [SessionManager.updateSession now id ?d st] =>
        destruct (updateSession_result now id d st s e Hid Hget He Hle) as (Hok & Hnew & _);
        set (st1 := SessionManager.updateSession now id d st) in *
    end.
    split; [done|]. split; [by rewrite Hnew|].
    intros more _ _ Hle2.
    unfold SessionManager.extendSession. rewrite Hget, Hlive, He. fold st1.
    rewrite Hnew.
    match goal with
    | |- context [SessionManager.isSessionExpired now (Some ?x)] => set (s1 := x) in *
    end.
    assert (expiresAt s1 = Some (e + extra)%Z) as He1 by done.
    assert (SessionManager.isSessionExpired now (Some s1) = false) as ->.
    { cbn -[s1]. rewrite He1. by apply Z.ltb_ge. }
    rewrite He1.
    match goal with
    | |- context [SessionManager.updateSession now id ?d st1.1] =>
        destruct (updateSession_result now id d st1.1 s1 (e + extra) Hid Hnew He1 Hle2)
          as (_ & Hnew2 & _)
    end.
    rewrite Hnew2. done.
  - intros Hlt. unfold SessionManager.extendSession. rewrite Hget.
    assert (SessionManager.isSessionExpired now (Some s) = true) as ->; [|done].
    cbn. rewrite He. by apply Z.ltb_lt.
Qed.

Lemma extendSession_adds_witness :
  (SessionManager.extendSession 1000 "u1" 3600000 Sample.store).2 = true ∧
  expiresAt <$>
    SessionManager.get (SessionManager.extendSession 1000 "u1" 3600000 Sample.store).1 "u1"
  = Some (Some 7200000%Z).
Proof.
  destruct (extendSession_adds 1000 "u1" 3600000 Sample.store Sample.session 3600000)
    as [Hlive _].
  - discriminate.
  - reflexivity.
  - reflexivity.
  - unfold valid_time. lia.
  - unfold valid_time. lia.
  - destruct Hlive as (Hok & Hnew & _).
    + lia.
    + unfold valid_time. lia.
    + split; [exact Hok|]. rewrite Hnew. reflexivity.
Defined.

Lemma count_fold {A : Type} (P : A → bool) (l : list A) (n : nat) :
  fold_left (λ count x, if P x then count else S count) l n
  = (n + length (filter (λ x, P x = false) l))%nat.
Proof.
  revert n. induction l as [|x l IH]; intros n; simpl; [lia|].
  rewrite IH. rewrite filter_cons. destruct (P x) eqn:HP.
  - rewrite decide_False by done. lia.
  - rewrite decide_True by done. simpl. lia.
Qed.

Lemma getSessionCount_size (now : Z) (st : SessionManager.t) :
  SessionManager.getSessionCount now st
  = size (filter (λ kv : string * loc,
                    SessionManager.isSessionExpired now (SessionManager.heap st !! kv.2) = false)
            (SessionManager.sessions st)).
Proof.
  unfold SessionManager.getSessionCount.
  rewrite (count_fold (λ entry : string * loc,
             SessionManager.isSessionExpired now (SessionManager.heap st !! entry.2))).
  rewrite map_filter_alt. rewrite <- length_map_to_list.
  rewrite map_to_list_to_map; [done|].
  apply NoDup_fmap_fst.
  - intros k x y [_ Hx]%list_elem_of_filter [_ Hy]%list_elem_of_filter.
    apply elem_of_map_to_list in Hx, Hy. congruence.
  - apply NoDup_filter, NoDup_map_to_list.
Qed.

(** X5. The sweep [cleanupExpiredSessions] keeps exactly the sessions
    that have not expired and returns the number that [getStats]
    reported as expired; after it [getStats] reports no expired session
    and the same active count, and a second sweep at the same time
    removes nothing. *)
Theorem cleanupExpiredSessions_sweep (now : Z) (st : SessionManager.t) :
  let swept := SessionManager.cleanupExpiredSessions now st in
  (∀ id, SessionManager.get swept.1 id
         = if SessionManager.isSessionExpired now (SessionManager.get st id) then None
           else SessionManager.get st id) ∧
  swept.2 = SessionManager.expired (SessionManager.getStats now st) ∧
  SessionManager.getStats now swept.1
  = {| SessionManager.total := SessionManager.active (SessionManager.getStats now st);
       SessionManager.active := SessionManager.active (SessionManager.getStats now st);
       SessionManager.expired := 0 |} ∧
  SessionManager.cleanupExpiredSessions now swept.1 = (swept.1, 0%nat).
Proof.
  intros swept. subst swept. unfold SessionManager.cleanupExpiredSessions. cbn [fst snd].
  set (P := λ kv : string * loc,
              SessionManager.isSessionExpired now (SessionManager.heap st !! kv.2) = false).
  set (live := filter P (SessionManager.sessions st)).
  assert (filter P live = live) as Hid.
  { subst live. rewrite map_filter_filter. apply map_filter_ext.
    intros i x _. split; [by intros [? ?]|done]. }
  split_and!.
  - intros id. unfold SessionManager.get. cbn.
    destruct (SessionManager.sessions st !! id) as [l|] eqn:Hl; cbn.
    + destruct (SessionManager.isSessionExpired now (SessionManager.heap st !! l)) eqn:He.
      * assert (live !! id = None) as ->; [|done].
        apply map_lookup_filter_None. right. intros x Hx. unfold P. cbn.
        rewrite Hl in Hx. injection Hx as <-. by rewrite He.
      * assert (live !! id = Some l) as ->; [|done].
        apply map_lookup_filter_Some. done.
    + assert (live !! id = None) as ->; [|done].
      apply map_lookup_filter_None. by left.
  - unfold SessionManager.getStats. cbn. by rewrite getSessionCount_size.
  - unfold SessionManager.getStats. rewrite !getSessionCount_size. cbn.
    fold P. fold live. rewrite Hid. f_equal. lia.
  - cbn. fold P. rewrite Hid. f_equal. lia.
Qed.

(** X6. [sessionExists] answers [true] exactly for a non-empty id whose
    stored session has not expired, which is when [getSession] returns
    a session; both calls leave the same registry behind (an expired
    entry is evicted by either), and neither changes a stored session. *)
Theorem sessionExists_agrees_with_getSession (now : Z) (id : string)
    (st : SessionManager.t) :
  let exists_ := SessionManager.sessionExists now id st in
  let got := SessionManager.getSession now id st in
  (exists_.2 = true ↔
   id ≠ "" ∧ SessionManager.isSessionExpired now (SessionManager.get st id) = false) ∧
  (exists_.2 = true ↔ is_Some got.2) ∧
  SessionManager.sessions exists_.1 = SessionManager.sessions got.1 ∧
  (∀ other s', SessionManager.get exists_.1 other = Some s' →
     SessionManager.get got.1 other = Some s') ∧
  (∀ other, other ≠ id →
     SessionManager.get exists_.1 other = SessionManager.get st other).
Proof.
  intros exists_ got. subst exists_ got.
  unfold SessionManager.sessionExists, SessionManager.getSession.
  destruct (SessionManager.invalidId id) eqn:Hinv.
  { apply String.eqb_eq in Hinv. cbn. split_and!; try done.
    split; [done|]. by intros [? _]. }
  assert (id ≠ "") as Hne by (by apply String.eqb_neq).
  destruct (SessionManager.get st id) as [s|] eqn:Hget.
  2:{ cbn. split_and!; try done.
      split; [done|]. by intros [_ ?]. }
  destruct (SessionManager.isSessionExpired now (Some s)) eqn:Hexp.
  - cbn [fst snd]. split_and!; try done.
    + split; [done|]. by intros [_ ?].
    + intros other Hother. unfold SessionManager.deleteSession. rewrite Hinv.
      unfold SessionManager.get. cbn. by rewrite lookup_delete_ne.
  - destruct (SessionManager.alloc s st) as [st1 l] eqn:Halloc. cbn [fst snd].
    assert (st1 = (SessionManager.alloc s st).1) as -> by (by rewrite Halloc).
    split_and!; try done.
    intros other s' Ho. by apply alloc_get_old.
Qed.

(** [sessions_allocated] holds of a new registry and every operation
    keeps it. *)
Lemma sessions_allocated_alloc (s : Session) (st : SessionManager.t) :
  sessions_allocated st → sessions_allocated (SessionManager.alloc s st).1.
Proof.
  intros Hwf id l Hl. destruct (Hwf id l Hl) as [s' Hs'].
  exists s'. by apply alloc_lookup_old.
Qed.

Lemma sessions_allocated_store (id : string) (s : Session) (st : SessionManager.t) :
  sessions_allocated st →
  sessions_allocated
    (SessionManager.set_sessions
       (<[id := (SessionManager.alloc s st).2]>
          (SessionManager.sessions (SessionManager.alloc s st).1))
       (SessionManager.alloc s st).1).
Proof.
  intros Hwf. apply map_Forall_insert_2.
  - exists s. cbn. by rewrite lookup_insert_eq.
  - by apply (sessions_allocated_alloc s st).
Qed.

Lemma sessions_allocated_kept (now : Z) (id uuid : string) (data : Partial)
    (st : SessionManager.t) :
  sessions_allocated SessionManager.new ∧
  (sessions_allocated st →
   sessions_allocated (SessionManager.createSession now uuid data st).1 ∧
   sessions_allocated (SessionManager.getSession now id st).1 ∧
   sessions_allocated (SessionManager.updateSession now id data st).1 ∧
   sessions_allocated (SessionManager.deleteSession id st).1 ∧
   sessions_allocated (SessionManager.sessionExists now id st).1 ∧
   sessions_allocated (SessionManager.cleanupExpiredSessions now st).1).
Proof.
  split; [apply map_Forall_empty|]. intros Hwf.
  assert (sessions_allocated (SessionManager.deleteSession id st).1) as Hdel.
  { unfold SessionManager.deleteSession. destruct (SessionManager.invalidId id); [done|].
    by apply map_Forall_delete. }
  split_and!.
  - apply sessions_allocated_store, Hwf.
  - unfold SessionManager.getSession.
    destruct (SessionManager.invalidId id); [done|].
    destruct (SessionManager.get st id) as [s|]; [|done].
    destruct (SessionManager.isSessionExpired now (Some s)); [done|].
    apply (sessions_allocated_alloc s st Hwf).
  - unfold SessionManager.updateSession.
    destruct (SessionManager.invalidId id); [done|].
    destruct (SessionManager.get st id) as [s|]; [|done].
    destruct (SessionManager.isSessionExpired now (Some s)); [done|].
    apply sessions_allocated_store, Hwf.
  - done.
  - unfold SessionManager.sessionExists.
    destruct (SessionManager.invalidId id); [done|].
    destruct (SessionManager.get st id) as [s|]; [|done].
    by destruct (SessionManager.isSessionExpired now (Some s)).
  - intros k l [Hl _]%map_lookup_filter_Some. by apply (Hwf k l).
Qed.

Lemma getActiveSessions_fold (now : Z) (st : SessionManager.t) (l : list (string * loc)) :
  ∀ (st0 : SessionManager.t) (acc : list (loc * Session)),
    SessionManager.sessions st0 = SessionManager.sessions st →
    SessionManager.heap st ⊆ SessionManager.heap st0 →
    Forall (λ kv, is_Some (SessionManager.heap st !! kv.2)) l →
    Forall (λ c, SessionManager.heap st !! c.1 = None ∧
                 SessionManager.heap st0 !! c.1 = Some c.2) acc →
    NoDup acc.*1 →
    let r := fold_left (SessionManager.active_entry now) l (st0, acc) in
    SessionManager.sessions r.1 = SessionManager.sessions st ∧
    SessionManager.heap st ⊆ SessionManager.heap r.1 ∧
    Forall (λ c, SessionManager.heap st !! c.1 = None ∧
                 SessionManager.heap r.1 !! c.1 = Some c.2) r.2 ∧
    NoDup r.2.*1 ∧
    r.2.*2 = (acc.*2 ++
              omap (λ kv, s ← SessionManager.heap st !! kv.2;
                          if SessionManager.isSessionExpired now (Some s) then None
                          else Some s) l)%list ∧
    length r.2
    = (length acc +
       length (filter (λ kv : string * loc,
                         SessionManager.isSessionExpired now (SessionManager.heap st !! kv.2)
                         = false) l))%nat.
Proof.
  induction l as [|x l IH]; intros st0 acc Hs Hsub Hl Hacc Hnd; cbn zeta.
  { cbn. rewrite app_nil_r. split_and!; try done; lia. }
  apply Forall_cons in Hl as [[s Hx] Hl].
  assert (SessionManager.heap st0 !! x.2 = Some s) as Hx0
    by (by eapply lookup_weaken).
  assert (SessionManager.active_entry now (st0, acc) x
          = if SessionManager.isSessionExpired now (Some s) then (st0, acc)
            else ((SessionManager.alloc s st0).1,
                  (acc ++ [((SessionManager.alloc s st0).2, s)])%list)) as Hstep.
  { unfold SessionManager.active_entry. rewrite Hx0.
    by destruct (SessionManager.isSessionExpired now (Some s)). }
  cbn [fold_left]. rewrite Hstep.
  rewrite filter_cons. cbn [omap list_omap]. rewrite Hx. cbn [mbind option_bind].
  destruct (SessionManager.isSessionExpired now (Some s)) eqn:He.
  - rewrite decide_False by done. by apply IH.
  - rewrite decide_True by done.
    pose proof (alloc_fresh s st0) as Hfresh.
    set (st1 := (SessionManager.alloc s st0).1) in *.
    set (k := (SessionManager.alloc s st0).2) in *.
    assert (SessionManager.heap st0 ⊆ SessionManager.heap st1) as Hsub1
      by (by apply insert_subseteq).
    assert (SessionManager.heap st1 !! k = Some s) as Hk by (by apply lookup_insert_eq).
    destruct (IH st1 (acc ++ [(k, s)])%list) as (H1 & H2 & H3 & H4 & H5 & H6).
    + done.
    + by etrans.
    + done.
    + apply Forall_app. split.
      * eapply Forall_impl; [exact Hacc|]. intros c [? ?]. split; [done|].
        by eapply lookup_weaken.
      * apply Forall_singleton. split; [|done]. by eapply lookup_weaken_None.
    + rewrite fmap_app. apply NoDup_app. split_and!; [done| |apply NoDup_singleton].
      intros k' Hk' Hk2. cbn in Hk2. apply list_elem_of_singleton in Hk2. subst k'.
      apply list_elem_of_fmap in Hk' as (c & Hck & Hc).
      rewrite Forall_forall in Hacc. destruct (Hacc c Hc) as [_ Hc0]. cbn in *. congruence.
    + split_and!; try done.
      * rewrite H5, fmap_app, <- app_assoc. done.
      * rewrite H6, length_app. cbn. lia.
Qed.

(** X7. [getActiveSessions] returns one new copy of each stored session
    that has not expired and nothing else: as many as [getSessionCount]
    counts, each a newly allocated object.  Unlike [getSession] it
    evicts nothing: the registry and the stored sessions are as before. *)
Theorem getActiveSessions_copies (now : Z) (st : SessionManager.t) :
  sessions_allocated st →
  let r := SessionManager.getActiveSessions now st in
  SessionManager.sessions r.1 = SessionManager.sessions st ∧
  (∀ id s, SessionManager.get st id = Some s → SessionManager.get r.1 id = Some s) ∧
  length r.2 = SessionManager.getSessionCount now st ∧
  (∀ s, s ∈ r.2.*2 ↔
        ∃ id, SessionManager.get st id = Some s ∧
              SessionManager.isSessionExpired now (Some s) = false) ∧
  NoDup r.2.*1 ∧
  (∀ l s, (l, s) ∈ r.2 →
          SessionManager.heap st !! l = None ∧ SessionManager.heap r.1 !! l = Some s).
Proof.
  intros Hwf r. subst r. unfold SessionManager.getActiveSessions.
  destruct (getActiveSessions_fold now st (map_to_list (SessionManager.sessions st)) st [])
    as (H1 & H2 & H3 & H4 & H5 & H6).
  { done. }
  { done. }
  { apply Forall_forall. intros [id l] Hin%elem_of_map_to_list. exact (Hwf id l Hin). }
  { done. }
  { apply NoDup_nil_2. }
  split_and!; try done.
  - intros id s. unfold SessionManager.get. rewrite H1.
    destruct (SessionManager.sessions st !! id) as [l|]; [|done]. cbn.
    intros Hl. by eapply lookup_weaken.
  - rewrite H6. unfold SessionManager.getSessionCount.
    by rewrite (count_fold (λ entry : string * loc,
                  SessionManager.isSessionExpired now (SessionManager.heap st !! entry.2))).
  - intros s. rewrite H5. cbn [fmap list_fmap app]. rewrite list_elem_of_omap. split.
    + intros ([id l] & Hin%elem_of_map_to_list & Hf). cbn [snd] in Hf.
      destruct (SessionManager.heap st !! l) as [s'|] eqn:Hl; [|done].
      cbn [mbind option_bind] in Hf.
      destruct (SessionManager.isSessionExpired now (Some s')) eqn:He; [done|].
      injection Hf as <-. exists id. split; [|done].
      unfold SessionManager.get. by rewrite Hin.
    + intros (id & Hget & He). unfold SessionManager.get in Hget.
      destruct (SessionManager.sessions st !! id) as [l|] eqn:Hl; [|done]. cbn in Hget.
      exists (id, l). split; [by apply elem_of_map_to_list|]. cbn [snd]. rewrite Hget.
      cbn [mbind option_bind]. by rewrite He.
  - intros l s Hin. rewrite Forall_forall in H3. apply (H3 (l, s) Hin).
Qed.

Lemma getActiveSessions_copies_witness :
  length (SessionManager.getActiveSessions 3600001 Sample.two_sessions).2
  = SessionManager.getSessionCount 3600001 Sample.two_sessions.
Proof.
  apply (getActiveSessions_copies 3600001 Sample.two_sessions).
  unfold sessions_allocated. compute_done.
Defined.

(** ** The analysis service: models, validation and parsing *)

Lemma getProp_Return (v : json) (k : string) (o : option json) :
  Json.getProp v k = Return o → o = property v k.
Proof. destruct v; cbn; congruence. Qed.

Lemma getProp_property (v : json) (k : string) (x : json) :
  property v k = Some x → Json.getProp v k = Return (Some x).
Proof. destruct v; cbn; congruence. Qed.

Lemma getProp_opt_truthy (v : json) (k : string) :
  Json.truthy v = true → Json.getProp_opt (Some v) k = Return (property v k).
Proof. by destruct v. Qed.

Lemma truthy_of_property (v : json) (k : string) :
  Json.truthy_opt (property v k) = true ∨ Json.isArray (property v k) = true →
  Json.truthy v = true.
Proof. destruct v; cbn; intros [?|?]; done. Qed.

Lemma validateFeedbackStructure_sound (feedback : json) (u : unit) :
  GeminiService.validateFeedbackStructure feedback = Return u →
  well_formed_feedback feedback.
Proof.
  destruct feedback as [| | | | |fields]; try done.
  unfold GeminiService.validateFeedbackStructure, well_formed_feedback.
  cbn [GeminiService.check_required GeminiService.requiredFields Json.getProp
       mbind completion_bind mret completion_ret property].
  destruct (Json.assoc "clarity" fields) as [clarity|]; [|done].
  cbn [Json.truthy_opt]. destruct (Json.truthy clarity) eqn:Hc; [|done]. cbn [negb].
  destruct (Json.assoc "grammar" fields) as [grammar|]; [|done].
  cbn [Json.truthy_opt]. destruct (Json.truthy grammar) eqn:Hg; [|done]. cbn [negb].
  destruct (Json.assoc "skills" fields) as [skills|]; [|done].
  cbn [Json.truthy_opt]. destruct (Json.truthy skills) eqn:Hs; [|done]. cbn [negb].
  destruct (Json.assoc "improvements" fields) as [improvements|]; [|done].
  cbn [Json.truthy_opt]. destruct (Json.truthy improvements) eqn:Hi; [|done]. cbn [negb].
  rewrite !(getProp_opt_truthy clarity) by done.
  rewrite !(getProp_opt_truthy grammar) by done.
  rewrite !(getProp_opt_truthy skills) by done.
  cbn [mbind completion_bind mret completion_ret].
  destruct (Json.truthy_opt (property clarity "score")) eqn:H1; [|done].
  cbn [negb mbind completion_bind mret completion_ret].
  destruct (Json.isArray (property clarity "suggestions")) eqn:H2; [|done]. cbn [negb].
  destruct (Json.truthy_opt (property grammar "score")) eqn:H3; [|done].
  cbn [negb mbind completion_bind mret completion_ret].
  destruct (Json.isArray (property grammar "corrections")) eqn:H4; [|done]. cbn [negb].
  destruct (Json.isArray (property skills "relevantSkills")) eqn:H5; [|done]. cbn [negb].
  destruct (Json.isArray (Some improvements)) eqn:H6; [|done].
  intros _. exists clarity, grammar, skills, improvements. done.
Qed.

Lemma validateFeedbackStructure_complete (feedback : json) :
  well_formed_feedback feedback →
  GeminiService.validateFeedbackStructure feedback = Return tt.
Proof.
  intros (clarity & grammar & skills & improvements & Hc & Hg & Hs & Hi
          & H1 & H2 & H3 & H4 & H5 & H6).
  destruct feedback as [| | | | |fields]; try done. cbn [property] in *.
  assert (Json.truthy clarity = true) as Tc by (apply (truthy_of_property _ "score"); auto).
  assert (Json.truthy grammar = true) as Tg by (apply (truthy_of_property _ "score"); auto).
  assert (Json.truthy skills = true) as Ts
    by (apply (truthy_of_property _ "relevantSkills"); auto).
  assert (Json.truthy improvements = true) as Ti by (by destruct improvements).
  unfold GeminiService.validateFeedbackStructure.
  cbn [GeminiService.check_required GeminiService.requiredFields Json.getProp
       mbind completion_bind mret completion_ret].
  rewrite Hc, Hg, Hs, Hi. cbn [Json.truthy_opt]. rewrite Tc, Tg, Ts, Ti. cbn [negb].
  rewrite !(getProp_opt_truthy clarity) by done.
  rewrite !(getProp_opt_truthy grammar) by done.
  rewrite !(getProp_opt_truthy skills) by done.
  cbn [mbind completion_bind mret completion_ret].
  rewrite H1. cbn [negb mbind completion_bind mret completion_ret]. rewrite H2. cbn [negb].
  rewrite H3. cbn [negb mbind completion_bind mret completion_ret]. rewrite H4. cbn [negb].
  rewrite H5. cbn [negb]. by rewrite H6.
Qed.

(** X8. [validateFeedbackStructure] returns exactly for a feedback that
    has the four sections with a truthy score and a list in [clarity]
    and in [grammar], a list of relevant skills and a list of
    improvements; for every other value it throws.  In particular a
    score of 0 in [clarity] or [grammar], being falsy, is rejected like
    a missing one. *)
Theorem validateFeedbackStructure_accepts_shape (feedback : json) :
  (GeminiService.validateFeedbackStructure feedback = Return tt ↔
   well_formed_feedback feedback) ∧
  (∀ name section,
     name = "clarity" ∨ name = "grammar" →
     property feedback name = Some section →
     property section "score" = Some (JNumber 0%float) →
     ∃ message, GeminiService.validateFeedbackStructure feedback = Throw message).
Proof.
  split.
  - split; [apply validateFeedbackStructure_sound|apply validateFeedbackStructure_complete].
  - intros name section Hname Hsection Hscore.
    destruct (GeminiService.validateFeedbackStructure feedback) as [u|message] eqn:Hv;
      [|by eexists].
    exfalso. apply validateFeedbackStructure_sound in Hv
      as (clarity & grammar & skills & improvements & Hc & Hg & _ & _ & H1 & _ & H3 & _).
    destruct Hname as [-> | ->].
    + rewrite Hc in Hsection. injection Hsection as <-. by rewrite Hscore in H1.
    + rewrite Hg in Hsection. injection Hsection as <-. by rewrite Hscore in H3.
Qed.

Lemma parseResponse_try_validated (env : Env) (response : string) (parsed : json) :
  GeminiService.parseResponse_try env response = Return parsed →
  GeminiService.validateFeedbackStructure parsed = Return tt.
Proof.
  unfold GeminiService.parseResponse_try.
  destruct (_ || _); [done|].
  destruct (JSON_parse env _) as [p|]; [|done].
  destruct (GeminiService.validateFeedbackStructure p) as [[]|] eqn:Hv; [|done].
  cbn. by intros [= <-].
Qed.

(** X9. Whatever the model sends, the feedback that [parseResponse]
    returns passes [validateFeedbackStructure]: it is either a parsed
    value that was validated or the fallback structure, which is itself
    well formed.  So [analyzeResumeStreaming] hands every chunk to the
    callback, returns a well-formed feedback when the stream ends
    normally, and throws only when the stream fails. *)
Theorem analysis_result_is_well_formed (env : Env) (response : string)
    (outcome : StreamOutcome) :
  GeminiService.validateFeedbackStructure (GeminiService.parseResponse env response)
  = Return tt ∧
  well_formed_feedback (GeminiService.parseResponse env response) ∧
  (GeminiService.analyzeResumeStreaming env outcome).1 = chunks outcome ∧
  match (GeminiService.analyzeResumeStreaming env outcome).2 with
  | Return feedback => failure outcome = None ∧ well_formed_feedback feedback
  | Throw message =>
      ∃ error, failure outcome = Some error ∧ message = GeminiService.rethrown error
  end.
Proof.
  assert (∀ r, GeminiService.validateFeedbackStructure (GeminiService.parseResponse env r)
               = Return tt) as Hvalid.
  { intros r. unfold GeminiService.parseResponse.
    destruct (GeminiService.parseResponse_try env r) as [parsed|m] eqn:Htry.
    - by eapply parseResponse_try_validated.
    - reflexivity. }
  split_and!.
  - apply Hvalid.
  - eapply validateFeedbackStructure_sound, Hvalid.
  - done.
  - unfold GeminiService.analyzeResumeStreaming. cbn [snd].
    destruct (failure outcome) as [error|].
    + by exists error.
    + split; [done|]. eapply validateFeedbackStructure_sound, Hvalid.
Qed.

Lemma initializeModel_from_spec (env : Env) (options : list string) :
  match GeminiService.initializeModel_from env options with
  | Return name =>
      ∃ earlier later,
        options = (earlier ++ name :: later)%list ∧
        getGenerativeModel env name = true ∧
        Forall (λ other, getGenerativeModel env other = false) earlier
  | Throw _ => Forall (λ other, getGenerativeModel env other = false) options
  end.
Proof.
  induction options as [|name rest IH]; cbn; [done|].
  destruct (getGenerativeModel env name) eqn:Hname.
  - by exists [], rest.
  - destruct (GeminiService.initializeModel_from env rest) as [found|].
    + destruct IH as (earlier & later & -> & Hfound & Hearlier).
      exists (name :: earlier), later. split_and!; [done|done|by constructor].
    + by constructor.
Qed.

(** X10. [initializeModel] tries the models in the order
    gemini-2.0-flash, gemini-2.5-flash, gemini-pro and returns the first
    one for which [getGenerativeModel] does not throw; it throws exactly
    when none initializes.  The constructor throws when the API key is
    missing, without trying any model, and otherwise holds that first
    model. *)
Theorem initializeModel_first_available (env : Env) :
  match GeminiService.initializeModel env with
  | Return name =>
      ∃ earlier later,
        GeminiService.modelOptions = (earlier ++ name :: later)%list ∧
        getGenerativeModel env name = true ∧
        Forall (λ other, getGenerativeModel env other = false) earlier
  | Throw _ =>
      Forall (λ other, getGenerativeModel env other = false) GeminiService.modelOptions
  end ∧
  (GEMINI_API_KEY env = false →
   GeminiService.new env = Throw "GEMINI_API_KEY environment variable is required") ∧
  (GEMINI_API_KEY env = true →
   GeminiService.new env
   = name ← GeminiService.initializeModel env; Return {| GeminiService.model := name |}).
Proof.
  split; [apply initializeModel_from_spec|].
  unfold GeminiService.new. split; by intros ->.
Qed.

(** X11. [reinitializeModel] starts again from the head of the list of
    models: it does not move on to the model after the current one.  On
    a service that the constructor built it selects the model that the
    service already has and returns [true]; on any service a second
    call changes nothing more. *)
Theorem reinitializeModel_selects_same_model (env : Env) (service : GeminiService.t) :
  GeminiService.new env = Return service →
  GeminiService.reinitializeModel env service = (service, true) ∧
  ∀ other : GeminiService.t,
    GeminiService.reinitializeModel env other = (service, true) ∧
    GeminiService.reinitializeModel env (GeminiService.reinitializeModel env other).1
    = (service, true).
Proof.
  unfold GeminiService.new, GeminiService.reinitializeModel.
  destruct (GEMINI_API_KEY env); [|done]. cbn [negb].
  destruct (GeminiService.initializeModel env) as [name|]; [|done].
  cbn [mbind completion_bind mret completion_ret]. intros [= <-]. done.
Qed.

Lemma reinitializeModel_selects_same_model_witness :
  GeminiService.reinitializeModel Sample.first_model_unavailable
    {| GeminiService.model := "gemini-2.5-flash" |}
  = ({| GeminiService.model := "gemini-2.5-flash" |}, true).
Proof.
  apply (reinitializeModel_selects_same_model Sample.first_model_unavailable
           {| GeminiService.model := "gemini-2.5-flash" |}).
  reflexivity.
Defined.

(** ** The connection registry: attaching, detaching and closing *)

Lemma sendEvent_delivers res eventType data this :
  ∃ this', SSEManager.sendEvent res eventType data this = Return this' ∧
    SSEManager.connections this' = SSEManager.connections this ∧
    SSEManager.responses this' res
    = delivered {| frame_event := eventType; frame_data := data |}
        (SSEManager.responses this res) ∧
    ∀ other, other ≠ res → SSEManager.responses this' other = SSEManager.responses this other.
Proof.
  destruct (sendEvent_returns res eventType data this) as [H|[H Hsame]];
    rewrite H; eexists; (split; [done|]); cbn.
  - split; [done|]. split; [by rewrite fn_lookup_insert|].
    intros other Hne. by rewrite fn_lookup_insert_ne.
  - by rewrite Hsame.
Qed.

Lemma set_add_elem_of (res r : loc) (set : list loc) :
  r ∈ SSEManager.set_add res set ↔ r ∈ set ∨ r = res.
Proof.
  unfold SSEManager.set_add. case_bool_decide as Hin.
  - split; [by left|]. by intros [?| ->].
  - rewrite elem_of_app, list_elem_of_singleton. done.
Qed.

(** X12. [createConnection] for a session id that is not empty: when the
    headers of the response were already sent, the error of
    [res.writeHead] reaches the caller; otherwise it returns [true], the
    response has received the [connected] event (if it is open and its
    write does not throw) and is attached to the session.  The set of a
    session holds a response once: attaching one that is attached
    already leaves the count as it is, attaching a new one adds one.
    No other session and no other response is touched. *)
Theorem createConnection_attaches (now : Z) (id : string) (res : loc) (this : SSEManager.t) :
  id ≠ "" →
  match SSEManager.createConnection now id res this with
  | Throw _ => headersSent (SSEManager.responses this res) = true
  | Return (this', ok) =>
      ok = true ∧
      headersSent (SSEManager.responses this res) = false ∧
      (∀ sid r, attached this' sid r ↔ attached this sid r ∨ (sid = id ∧ r = res)) ∧
      (attached this id res →
       SSEManager.getConnectionCount this' id = SSEManager.getConnectionCount this id) ∧
      (¬ attached this id res →
       SSEManager.getConnectionCount this' id = S (SSEManager.getConnectionCount this id)) ∧
      (∀ sid, sid ≠ id →
              SSEManager.connections this' !! sid = SSEManager.connections this !! sid) ∧
      (∃ r0, Res.writeHead (SSEManager.responses this res) = Return r0 ∧
             SSEManager.responses this' res = delivered (connected_frame now id) r0) ∧
      (∀ other, other ≠ res →
                SSEManager.responses this' other = SSEManager.responses this other)
  end.
Proof.
  intros Hid. unfold SSEManager.createConnection.
  apply String.eqb_neq in Hid as Hid'. rewrite Hid'.
  unfold Res.writeHead at 1.
  destruct (headersSent (SSEManager.responses this res)) eqn:Hsent; [done|].
  cbn [mbind completion_bind].
  match goal with
  | |- context [SSEManager.sendEvent res ?e ?d ?t] =>
      destruct (sendEvent_delivers res e d t) as (this1 & -> & Hc & Hres & Hother)
  end.
  cbn [mbind completion_bind]. cbn in Hc. rewrite Hc.
  set (old := default [] (SSEManager.connections this !! id)).
  assert (∀ r, r ∈ old ↔ attached this id r) as Hold.
  { intros r. unfold old, attached.
    destruct (SSEManager.connections this !! id) as [set|]; cbn.
    - split; [by exists set|]. by intros (? & [= <-] & ?).
    - split; [by intros ?%not_elem_of_nil|]. by intros (? & ? & _). }
  assert (SSEManager.getConnectionCount this id = length old) as Hcount.
  { unfold SSEManager.getConnectionCount, old.
    by destruct (SSEManager.connections this !! id). }
  split_and!; try done.
  - intros sid r. unfold attached at 1. cbn.
    destruct (decide (sid = id)) as [->|Hne].
    + rewrite lookup_insert_eq. split.
      * intros (set & [= <-] & Hin). apply set_add_elem_of in Hin as [Hin| ->].
        -- left. by apply Hold.
        -- by right.
      * intros [Hin|[_ ->]]; eexists; (split; [done|]); apply set_add_elem_of.
        -- left. by apply Hold.
        -- by right.
    + rewrite lookup_insert_ne by done. split; [by left|].
      intros [?|[? _]]; done.
  - intros Hatt%Hold. rewrite Hcount. unfold SSEManager.getConnectionCount. cbn.
    rewrite lookup_insert_eq. unfold SSEManager.set_add.
    by rewrite bool_decide_eq_true_2.
  - intros Hatt. rewrite Hcount. unfold SSEManager.getConnectionCount. cbn.
    rewrite lookup_insert_eq. unfold SSEManager.set_add.
    rewrite bool_decide_eq_false_2 by (by rewrite Hold).
    rewrite length_app. cbn. lia.
  - intros sid Hne. cbn. by rewrite lookup_insert_ne.
  - eexists. split; [unfold Res.writeHead; by rewrite Hsent|].
    cbn. rewrite Hres. cbn. by rewrite fn_lookup_insert.
  - intros other Hne. cbn. rewrite Hother by done. cbn. by rewrite fn_lookup_insert_ne.
Qed.

Lemma createConnection_attaches_witness :
  match SSEManager.createConnection 7 "s1" 3%nat Sample.lobby with
  | Throw _ => headersSent (SSEManager.responses Sample.lobby 3%nat) = true
  | Return (this', ok) =>
      ok = true ∧
      headersSent (SSEManager.responses Sample.lobby 3%nat) = false ∧
      (∀ sid r, attached this' sid r ↔ attached Sample.lobby sid r ∨ (sid = "s1" ∧ r = 3%nat)) ∧
      (attached Sample.lobby "s1" 3%nat →
       SSEManager.getConnectionCount this' "s1"
       = SSEManager.getConnectionCount Sample.lobby "s1") ∧
      (¬ attached Sample.lobby "s1" 3%nat →
       SSEManager.getConnectionCount this' "s1"
       = S (SSEManager.getConnectionCount Sample.lobby "s1")) ∧
      (∀ sid, sid ≠ "s1" →
              SSEManager.connections this' !! sid
              = SSEManager.connections Sample.lobby !! sid) ∧
      (∃ r0, Res.writeHead (SSEManager.responses Sample.lobby 3%nat) = Return r0 ∧
             SSEManager.responses this' 3%nat = delivered (connected_frame 7 "s1") r0) ∧
      (∀ other, other ≠ 3%nat →
                SSEManager.responses this' other = SSEManager.responses Sample.lobby other)
  end.
Proof. apply (createConnection_attaches 7 "s1" 3%nat Sample.lobby). discriminate. Defined.

Lemma set_delete_not_in (res : loc) (set : list loc) :
  res ∉ set → SSEManager.set_delete res set = set.
Proof.
  intros Hnin. unfold SSEManager.set_delete.
  induction set as [|x set IH]; [done|].
  apply not_elem_of_cons in Hnin as [Hne Hnin].
  rewrite filter_cons, decide_True by done. by rewrite IH.
Qed.

Lemma set_delete_add (res : loc) (set : list loc) :
  res ∉ set → SSEManager.set_delete res (SSEManager.set_add res set) = set.
Proof.
  intros Hnin. unfold SSEManager.set_add. rewrite bool_decide_eq_false_2 by done.
  unfold SSEManager.set_delete. rewrite filter_app, filter_cons, decide_False by (by intros ?).
  rewrite filter_nil, app_nil_r. by apply set_delete_not_in.
Qed.

(** X13. Detaching undoes attaching: when a response that was not
    attached to the session is attached by [createConnection] and then
    removed by [removeConnection], as its [close] handler does, the map
    of connections is what it was before, also when the session had no
    other connection, in which case its entry is deleted again.
    Removing a response a second time changes nothing. *)
Theorem createConnection_then_removeConnection (now : Z) (id : string) (res : loc)
    (this this' : SSEManager.t) :
  no_empty_set this →
  ¬ attached this id res →
  SSEManager.createConnection now id res this = Return (this', true) →
  SSEManager.connections (SSEManager.removeConnection id res this')
  = SSEManager.connections this ∧
  SSEManager.removeConnection id res (SSEManager.removeConnection id res this')
  = SSEManager.removeConnection id res this'.
Proof.
  intros Hinv Hnot. unfold SSEManager.createConnection.
  destruct (String.eqb id "") eqn:Hid; [done|].
  destruct (Res.writeHead _) as [r0|]; [|done]. cbn [mbind completion_bind].
  match goal with
  | |- context [SSEManager.sendEvent res ?e ?d ?t] =>
      destruct (sendEvent_delivers res e d t) as (this1 & -> & Hc & _)
  end.
  cbn [mbind completion_bind]. cbn in Hc. rewrite Hc. intros [= <-].
  assert (res ∉ default [] (SSEManager.connections this !! id)) as Hnin.
  { intros Hin. apply Hnot. unfold attached.
    destruct (SSEManager.connections this !! id) as [set|]; cbn in Hin.
    - by exists set.
    - by apply not_elem_of_nil in Hin. }
  set (this' := SSEManager.set_connections _ this1).
  assert (SSEManager.removeConnection id res this'
          = SSEManager.set_connections (SSEManager.connections this) this1) as ->.
  { unfold SSEManager.removeConnection. rewrite Hid. subst this'. cbn.
    rewrite lookup_insert_eq. rewrite (set_delete_add _ _ Hnin).
    destruct (SSEManager.connections this !! id) as [set|] eqn:Hset; cbn.
    - assert ((length set =? 0)%nat = false) as ->.
      { specialize (Hinv _ _ Hset). destruct set; [done|by cbn]. }
      unfold SSEManager.set_connections. cbn. rewrite insert_insert_eq.
      by rewrite insert_id.
    - unfold SSEManager.set_connections. cbn. rewrite delete_insert_eq.
      by rewrite delete_id. }
  split; [done|].
  unfold SSEManager.removeConnection. rewrite Hid. cbn.
  destruct (SSEManager.connections this !! id) as [set|] eqn:Hset; [|done].
  cbn in Hnin. rewrite (set_delete_not_in _ _ Hnin).
  assert ((length set =? 0)%nat = false) as ->.
  { specialize (Hinv _ _ Hset). destruct set; [done|by cbn]. }
  unfold SSEManager.set_connections. cbn. by rewrite insert_id.
Qed.

Lemma lobby_no_empty_set : no_empty_set Sample.lobby.
Proof.
  intros sid set Hset. unfold Sample.lobby in Hset. cbn [SSEManager.connections] in Hset.
  apply lookup_insert_Some in Hset as [[_ <-]|[_ Hset]]; [done|].
  apply lookup_singleton_Some in Hset as [_ <-]. done.
Qed.

Lemma createConnection_then_removeConnection_witness :
  ∃ this', SSEManager.createConnection 7 "s2" 4%nat Sample.lobby = Return (this', true) ∧
           SSEManager.connections (SSEManager.removeConnection "s2" 4%nat this')
           = SSEManager.connections Sample.lobby.
Proof.
  eexists. split; [reflexivity|].
  apply (createConnection_then_removeConnection 7 "s2" 4%nat Sample.lobby).
  - apply lobby_no_empty_set.
  - intros (set & Hset & Hin). vm_compute in Hset. injection Hset as <-.
    apply list_elem_of_singleton in Hin. done.
  - reflexivity.
Defined.

Lemma closing_closed (sessionId : string) (r : Response) :
  Res.closed (closing sessionId r) = true.
Proof.
  unfold closing. destruct (Res.closed r) eqn:Hc; [done|].
  unfold Res.closed, Res.end_. cbn. by rewrite orb_true_r.
Qed.

Lemma closing_of_closed (sessionId : string) (r : Response) :
  Res.closed r = true → closing sessionId r = r.
Proof. unfold closing. by intros ->. Qed.

Lemma close_one_responses (sessionId : string) (this : SSEManager.t) (res : loc) :
  (SSEManager.responses (SSEManager.close_one sessionId this res) res
   = closing sessionId (SSEManager.responses this res)) ∧
  (∀ other, other ≠ res →
     SSEManager.responses (SSEManager.close_one sessionId this res) other
     = SSEManager.responses this other).
Proof.
  unfold SSEManager.close_one, closing.
  destruct (Res.closed (SSEManager.responses this res)) eqn:Hc; cbn [negb]; [done|].
  match goal with
  | |- context [SSEManager.sendEvent res ?e ?d ?t] =>
      destruct (sendEvent_delivers res e d t) as (this1 & -> & _ & Hres & Hother)
  end.
  cbn. rewrite fn_lookup_insert. split; [by rewrite Hres|].
  intros other Hne. rewrite fn_lookup_insert_ne by done. by apply Hother.
Qed.

Lemma close_all_responses (sessionId : string) (set : list loc) :
  ∀ this : SSEManager.t,
    let this' := fold_left (SSEManager.close_one sessionId) set this in
    SSEManager.connections this' = SSEManager.connections this ∧
    (∀ res, res ∈ set →
       SSEManager.responses this' res = closing sessionId (SSEManager.responses this res)) ∧
    (∀ res, res ∉ set → SSEManager.responses this' res = SSEManager.responses this res).
Proof.
  induction set as [|x set IH]; intros this; cbn zeta.
  { cbn. split_and!; [done| |done]. by intros res ?%not_elem_of_nil. }
  cbn [fold_left].
  destruct (IH (SSEManager.close_one sessionId this x)) as (Hc & Hin & Hout).
  destruct (close_one_responses sessionId this x) as [Hx Hother].
  split_and!.
  - by rewrite Hc, close_one_connections.
  - intros res Hres. destruct (decide (res = x)) as [->|Hne].
    + destruct (decide (x ∈ set)) as [Hx'|Hx'].
      * rewrite (Hin _ Hx'), Hx. apply closing_of_closed, closing_closed.
      * by rewrite (Hout _ Hx').
    + apply elem_of_cons in Hres as [?|Hres]; [done|].
      by rewrite (Hin _ Hres), Hother.
  - intros res [Hne Hres]%not_elem_of_cons. by rewrite (Hout _ Hres), Hother.
Qed.

Lemma closeSessionConnections_spec (sessionId : string) (this : SSEManager.t) :
  let this' := SSEManager.closeSessionConnections sessionId this in
  SSEManager.connections this' = delete sessionId (SSEManager.connections this) ∧
  (∀ res, attached this sessionId res →
     SSEManager.responses this' res = closing sessionId (SSEManager.responses this res)) ∧
  (∀ res, ¬ attached this sessionId res →
     SSEManager.responses this' res = SSEManager.responses this res).
Proof.
  unfold SSEManager.closeSessionConnections, attached.
  destruct (SSEManager.connections this !! sessionId) as [set|] eqn:Hset; cbn zeta.
  - destruct (close_all_responses sessionId set this) as (Hc & Hin & Hout).
    cbn. split_and!.
    + by rewrite Hc.
    + intros res (set' & [= <-] & Hres). by apply Hin.
    + intros res Hnot. apply Hout. intros Hres. apply Hnot. by exists set.
  - split_and!; [by rewrite delete_id| |done].
    by intros res (? & ? & _).
Qed.

(** X14. [closeSessionConnections] leaves the session without any
    connection and every response that was attached to it destroyed or
    finished: one that was open is ended, after the [session_closed]
    event when its write does not throw.  A write that throws does not
    keep the stream open, and nothing reaches the caller.  The other
    sessions and the responses that were not attached are untouched. *)
Theorem closeSessionConnections_closes (sessionId : string) (this : SSEManager.t) :
  let this' := SSEManager.closeSessionConnections sessionId this in
  SSEManager.getConnectionCount this' sessionId = 0%nat ∧
  (∀ other, other ≠ sessionId →
     SSEManager.connections this' !! other = SSEManager.connections this !! other) ∧
  (∀ res, attached this sessionId res →
     Res.closed (SSEManager.responses this' res) = true ∧
     (Res.closed (SSEManager.responses this res) = true →
      SSEManager.responses this' res = SSEManager.responses this res) ∧
     (Res.closed (SSEManager.responses this res) = false →
      finished (SSEManager.responses this' res) = true ∧
      written (SSEManager.responses this' res)
      = if write_throws (SSEManager.responses this res)
        then written (SSEManager.responses this res)
        else (written (SSEManager.responses this res)
              ++ [session_closed_frame sessionId])%list)) ∧
  (∀ res, ¬ attached this sessionId res →
     SSEManager.responses this' res = SSEManager.responses this res).
Proof.
  intros this'. destruct (closeSessionConnections_spec sessionId this) as (Hc & Hin & Hout).
  fold this' in Hc, Hin, Hout. split_and!.
  - unfold SSEManager.getConnectionCount. by rewrite Hc, lookup_delete_eq.
  - intros other Hne. by rewrite Hc, lookup_delete_ne.
  - intros res Hres. rewrite (Hin _ Hres). split_and!.
    + apply closing_closed.
    + apply closing_of_closed.
    + intros Hopen. unfold closing, delivered, Res.write. rewrite Hopen.
      by destruct (write_throws (SSEManager.responses this res)).
  - done.
Qed.

Lemma shutdown_fold (l : list (string * list loc)) :
  ∀ this : SSEManager.t,
    NoDup l.*1 →
    (∀ k v, (k, v) ∈ l → SSEManager.connections this !! k = Some v) →
    let this' := fold_left (λ a entry, SSEManager.closeSessionConnections entry.1 a) l this in
    (∀ k, SSEManager.connections this' !! k
          = if bool_decide (k ∈ l.*1) then None else SSEManager.connections this !! k) ∧
    (∀ res, Res.closed (SSEManager.responses this res) = true →
            SSEManager.responses this' res = SSEManager.responses this res) ∧
    (∀ k v res, (k, v) ∈ l → res ∈ v → Res.closed (SSEManager.responses this' res) = true) ∧
    (∀ res, (∀ k v, (k, v) ∈ l → res ∉ v) →
            SSEManager.responses this' res = SSEManager.responses this res).
Proof.
  induction l as [|[k0 v0] l IH]; intros this Hnd Hl; cbn zeta.
  { cbn. split_and!; try done. by intros k v res ?%not_elem_of_nil. }
  cbn [fold_left fst]. cbn in Hnd. apply NoDup_cons in Hnd as [Hk0 Hnd].
  destruct (closeSessionConnections_spec k0 this) as (Hc & Hin & Hout).
  set (this1 := SSEManager.closeSessionConnections k0 this) in *.
  assert (SSEManager.connections this !! k0 = Some v0) as Hv0
    by (apply Hl, list_elem_of_here).
  assert (∀ res, attached this k0 res ↔ res ∈ v0) as Hatt.
  { intros res. unfold attached. rewrite Hv0. split; [by intros (? & [= <-] & ?)|].
    intros ?. by exists v0. }
  assert (∀ res, Res.closed (SSEManager.responses this res) = true →
                 SSEManager.responses this1 res = SSEManager.responses this res) as Hkeep.
  { intros res Hclosed. destruct (decide (res ∈ v0)) as [Hres|Hres].
    - rewrite Hin by (by apply Hatt). by apply closing_of_closed.
    - apply Hout. by rewrite Hatt. }
  destruct (IH this1) as (H1 & H2 & H3 & H4); [done| |].
  { intros k v Hkv. rewrite Hc. rewrite lookup_delete_ne.
    - apply Hl. by apply list_elem_of_further.
    - intros <-. apply Hk0. apply list_elem_of_fmap. by exists (k0, v). }
  split_and!.
  - intros k. rewrite H1, Hc. cbn [fmap list_fmap fst].
    destruct (decide (k = k0)) as [->|Hne].
    + rewrite (bool_decide_eq_true_2 (k0 ∈ k0 :: _)) by apply list_elem_of_here.
      case_bool_decide; [done|]. by rewrite lookup_delete_eq.
    + rewrite lookup_delete_ne by done.
      case_bool_decide as Hk.
      * by rewrite bool_decide_eq_true_2 by (by apply list_elem_of_further).
      * rewrite bool_decide_eq_false_2; [done|].
        intros [?|?]%elem_of_cons; done.
  - intros res Hclosed. rewrite H2; [by apply Hkeep|]. by rewrite Hkeep.
  - intros k v res [[= -> ->]|Hkv]%elem_of_cons Hres.
    + rewrite H2; rewrite Hin by (by apply Hatt); apply closing_closed.
    + exact (H3 k v res Hkv Hres).
  - intros res Hres. rewrite H4.
    + apply Hout. rewrite Hatt. apply (Hres k0 v0), list_elem_of_here.
    + intros k v Hkv. apply (Hres k v). by apply list_elem_of_further.
Qed.

(** X15. [shutdown] leaves no connection at all, and every response that
    was attached to some session is destroyed or finished afterwards;
    a response that was attached to none is untouched. *)
Theorem shutdown_closes_everything (this : SSEManager.t) :
  SSEManager.connections (SSEManager.shutdown this) = ∅ ∧
  SSEManager.getTotalConnectionCount (SSEManager.shutdown this) = 0%nat ∧
  (∀ sessionId res, attached this sessionId res →
     Res.closed (SSEManager.responses (SSEManager.shutdown this) res) = true) ∧
  (∀ res, (∀ sessionId, ¬ attached this sessionId res) →
     SSEManager.responses (SSEManager.shutdown this) res = SSEManager.responses this res).
Proof.
  unfold SSEManager.shutdown.
  destruct (shutdown_fold (map_to_list (SSEManager.connections this)) this)
    as (H1 & H2 & H3 & H4).
  { apply NoDup_fst_map_to_list. }
  { intros k v Hkv. by apply elem_of_map_to_list. }
  assert (SSEManager.connections
            (fold_left (λ a entry, SSEManager.closeSessionConnections entry.1 a)
               (map_to_list (SSEManager.connections this)) this) = ∅) as Hempty.
  { apply map_eq. intros k. rewrite H1, lookup_empty. case_bool_decide as Hk; [done|].
    destruct (SSEManager.connections this !! k) as [v|] eqn:Hv; [|done].
    exfalso. apply Hk. apply list_elem_of_fmap. exists (k, v).
    split; [done|]. by apply elem_of_map_to_list. }
  split_and!.
  - done.
  - unfold SSEManager.getTotalConnectionCount. rewrite Hempty. apply map_fold_empty.
  - intros sid res (set & Hset & Hres). apply (H3 sid set res); [|done].
    by apply elem_of_map_to_list.
  - intros res Hres. apply H4. intros k v Hkv%elem_of_map_to_list Hin.
    apply (Hres k). by exists v.
Qed.

Lemma set_delete_all (dead set : list loc) :
  fold_left (λ set res, SSEManager.set_delete res set) dead set
  = filter (λ r, r ∉ dead) set.
Proof.
  revert set. induction dead as [|x dead IH]; intros set; cbn [fold_left].
  - induction set as [|y set IHs]; [done|].
    rewrite filter_cons, decide_True by apply not_elem_of_nil. by rewrite <- IHs.
  - rewrite IH. unfold SSEManager.set_delete. rewrite list_filter_filter.
    apply list_filter_iff. intros r. rewrite not_elem_of_cons. tauto.
Qed.

Lemma filter_ext_in {A : Type} (P Q : A → Prop) `{!∀ x, Decision (P x)}
    `{!∀ x, Decision (Q x)} (l : list A) :
  (∀ x, x ∈ l → P x ↔ Q x) → filter P l = filter Q l.
Proof.
  induction l as [|x l IH]; intros Hext; [done|].
  rewrite !filter_cons. rewrite IH by (intros y Hy; apply Hext; by right).
  destruct (decide (P x)) as [HP|HP], (decide (Q x)) as [HQ|HQ]; try done.
  - exfalso. apply HQ, Hext; [by left|done].
  - exfalso. apply HP, Hext; [by left|done].
Qed.

Lemma filter_all {A : Type} (P : A → Prop) `{!∀ x, Decision (P x)} (l : list A) :
  (∀ x, x ∈ l → P x) → filter P l = l.
Proof.
  induction l as [|x l IH]; intros Hall; [done|].
  rewrite filter_cons, decide_True by (apply Hall; by left).
  rewrite IH; [done|]. intros y Hy. apply Hall. by right.
Qed.

Lemma remaining_open (responses : loc → Response) (set : list loc) :
  fold_left (λ set res, SSEManager.set_delete res set)
    (filter (λ res, Res.closed (responses res) = true) set) set
  = filter (λ res, Res.closed (responses res) = false) set.
Proof.
  rewrite set_delete_all. apply filter_ext_in. intros x Hx.
  rewrite list_elem_of_filter. destruct (Res.closed (responses x)); split; try done.
  - intros H. exfalso. by apply H.
  - intros _ [? _]. done.
Qed.

Lemma length_closed_open (responses : loc → Response) (set : list loc) :
  (length (filter (λ res, Res.closed (responses res) = true) set)
   + length (filter (λ res, Res.closed (responses res) = false) set))%nat
  = length set.
Proof.
  induction set as [|x set IH]; [done|]. rewrite !filter_cons.
  destruct (Res.closed (responses x)) eqn:Hx.
  - rewrite decide_True, decide_False by done. cbn. lia.
  - rewrite decide_False, decide_True by done. cbn. lia.
Qed.

(** A loop over the entries of the map of connections in which the
    iteration for a session replaces its set by [f] of the set, or
    deletes the session when [f] gives none. *)
Lemma entries_fold {S : Type} (step : S → string * list loc → S)
    (conn : S → gmap string (list loc)) (f : list loc → option (list loc))
    (I : S → Prop) (l : list (string * list loc)) :
  (∀ a e, I a → I (step a e)) →
  (∀ a k v, I a → conn a !! k = Some v →
            conn (step a (k, v))
            = match f v with
              | Some v' => <[k := v']> (conn a)
              | None => delete k (conn a)
              end) →
  NoDup l.*1 →
  ∀ a, I a →
       (∀ k v, (k, v) ∈ l → conn a !! k = Some v) →
       I (fold_left step l a) ∧
       ∀ k, conn (fold_left step l a) !! k
            = if bool_decide (k ∈ l.*1) then conn a !! k ≫= f else conn a !! k.
Proof.
  intros HI Hstep. induction l as [|[k0 v0] l IH]; intros Hnd a Ha Hl.
  { cbn. split; [done|]. intros k. by rewrite bool_decide_eq_false_2 by apply not_elem_of_nil. }
  cbn in Hnd. apply NoDup_cons in Hnd as [Hk0 Hnd]. cbn [fold_left].
  assert (conn a !! k0 = Some v0) as Hv0 by apply Hl, list_elem_of_here.
  specialize (Hstep a k0 v0 Ha Hv0).
  destruct (IH Hnd (step a (k0, v0))) as [HI' Hconn].
  - by apply HI.
  - intros k v Hkv. rewrite Hstep.
    assert (k ≠ k0) as Hne.
    { intros ->. apply Hk0. apply list_elem_of_fmap. by exists (k0, v). }
    destruct (f v0); [rewrite lookup_insert_ne by done|rewrite lookup_delete_ne by done];
      apply Hl; by apply list_elem_of_further.
  - split; [done|]. intros k. rewrite Hconn, Hstep. cbn [fmap list_fmap fst].
    destruct (decide (k = k0)) as [->|Hne].
    + rewrite (bool_decide_eq_true_2 (k0 ∈ k0 :: _)) by apply list_elem_of_here.
      rewrite bool_decide_eq_false_2 by done. rewrite Hv0. cbn.
      destruct (f v0); [by rewrite lookup_insert_eq|by rewrite lookup_delete_eq].
    + assert ((match f v0 with
               | Some v' => <[k0:=v']> (conn a)
               | None => delete k0 (conn a)
               end) !! k = conn a !! k) as ->.
      { destruct (f v0); [by rewrite lookup_insert_ne|by rewrite lookup_delete_ne]. }
      case_bool_decide as Hk.
      * by rewrite bool_decide_eq_true_2 by (by apply list_elem_of_further).
      * rewrite bool_decide_eq_false_2; [done|]. intros [?|?]%elem_of_cons; done.
Qed.

Lemma entries_fold_all {S : Type} (step : S → string * list loc → S)
    (conn : S → gmap string (list loc)) (f : list loc → option (list loc))
    (I : S → Prop) (a : S) :
  (∀ a e, I a → I (step a e)) →
  (∀ a k v, I a → conn a !! k = Some v →
            conn (step a (k, v))
            = match f v with
              | Some v' => <[k := v']> (conn a)
              | None => delete k (conn a)
              end) →
  I a →
  I (fold_left step (map_to_list (conn a)) a) ∧
  conn (fold_left step (map_to_list (conn a)) a) = omap f (conn a).
Proof.
  intros HI Hstep Ha.
  destruct (entries_fold step conn f I (map_to_list (conn a)) HI Hstep
              (NoDup_fst_map_to_list _) a Ha) as [HI' Hconn].
  { intros k v Hkv. by apply elem_of_map_to_list. }
  split; [done|]. apply map_eq. intros k. rewrite Hconn, lookup_omap.
  case_bool_decide as Hk; [done|].
  destruct (conn a !! k) as [v|] eqn:Hv; [|done].
  exfalso. apply Hk. apply list_elem_of_fmap. exists (k, v).
  split; [done|]. by apply elem_of_map_to_list.
Qed.

Lemma cleanup_entry_step (acc : SSEManager.t * nat) (k : string) (v : list loc) :
  (SSEManager.cleanup_entry acc (k, v)).1
  = SSEManager.set_connections
      (match open_connections acc.1 v with
       | Some v' => <[k := v']> (SSEManager.connections acc.1)
       | None => delete k (SSEManager.connections acc.1)
       end) acc.1 ∧
  (SSEManager.cleanup_entry acc (k, v)).2
  = (acc.2 + length (filter (λ res, Res.closed (SSEManager.responses acc.1 res) = true) v))%nat.
Proof.
  destruct acc as [this n]. unfold SSEManager.cleanup_entry, open_connections.
  rewrite remaining_open. cbn [fst snd].
  by destruct (length _ =? 0)%nat.
Qed.

Lemma total_insert (m : gmap string (list loc)) (k : string) (v : list loc)
    (responses : loc → Response) :
  m !! k = None →
  map_fold (λ _ set total, (total + length set)%nat) 0%nat (<[k := v]> m)
  = (map_fold (λ _ set total, (total + length set)%nat) 0%nat m + length v)%nat.
Proof.
  intros Hk. rewrite map_fold_insert_L; [done| |done].
  intros. lia.
Qed.

Lemma total_pruned (this : SSEManager.t) (m : gmap string (list loc)) :
  (foldr (λ e t, (t + length (filter (λ res, Res.closed (SSEManager.responses this res) = true)
                                e.2))%nat) 0%nat (map_to_list m)
   + map_fold (λ _ set total, (total + length set)%nat) 0%nat (omap (open_connections this) m))%nat
  = map_fold (λ _ set total, (total + length set)%nat) 0%nat m.
Proof.
  assert (∀ m' : gmap string (list loc),
            foldr (λ e t, (t + length (filter (λ res, Res.closed (SSEManager.responses this res)
                                                      = true) e.2))%nat) 0%nat (map_to_list m')
            = map_fold (λ (_ : string) v t,
                          (t + length (filter (λ res, Res.closed (SSEManager.responses this res)
                                                      = true) v))%nat) 0%nat m') as ->.
  { intros m'. rewrite map_fold_foldr. apply foldr_ext; [|done|done]. by intros [? ?] ?. }
  induction m as [|k v m Hk IH] using map_ind.
  { by rewrite omap_empty, !map_fold_empty. }
  rewrite (total_insert m k v (SSEManager.responses this) Hk).
  rewrite map_fold_insert_L; [|intros; lia|done].
  pose proof (length_closed_open (SSEManager.responses this) v) as Hlen.
  destruct (open_connections this v) as [v'|] eqn:Hv'.
  - rewrite (omap_insert_Some _ _ _ _ _ Hv').
    rewrite (total_insert _ k v' (SSEManager.responses this))
      by (by rewrite lookup_omap, Hk).
    unfold open_connections in Hv'. destruct (length _ =? 0)%nat; [done|].
    injection Hv' as <-. lia.
  - rewrite (omap_insert_None _ _ _ _ Hv'). rewrite delete_id by (by rewrite lookup_omap, Hk).
    unfold open_connections in Hv'.
    destruct (length _ =? 0)%nat eqn:H0; [|done]. apply Nat.eqb_eq in H0. lia.
Qed.

Lemma cleanup_count (l : list (string * list loc)) :
  ∀ (this : SSEManager.t) (n : nat),
    SSEManager.responses (fold_left SSEManager.cleanup_entry l (this, n)).1
    = SSEManager.responses this ∧
    (fold_left SSEManager.cleanup_entry l (this, n)).2
    = (n + foldr (λ e t, (t + length (filter (λ res, Res.closed (SSEManager.responses this res)
                                                      = true) e.2))%nat) 0%nat l)%nat.
Proof.
  induction l as [|[k v] l IH]; intros this n; cbn [fold_left foldr fst snd].
  { split; [done|lia]. }
  destruct (cleanup_entry_step (this, n) k v) as [H1 H2]. cbn [fst snd] in H1, H2.
  destruct (SSEManager.cleanup_entry (this, n) (k, v)) as [this1 n1]. cbn [fst snd] in *.
  subst this1 n1.
  match goal with
  | |- context [fold_left _ l (?a, ?c)] => destruct (IH a c) as [IH1 IH2]
  end.
  split; [by rewrite IH1|]. rewrite IH2. cbn [SSEManager.responses SSEManager.set_connections].
  lia.
Qed.

Lemma cleanupDeadConnections_spec (this : SSEManager.t) :
  SSEManager.connections (SSEManager.cleanupDeadConnections this).1 = pruned this ∧
  SSEManager.responses (SSEManager.cleanupDeadConnections this).1 = SSEManager.responses this ∧
  ((SSEManager.cleanupDeadConnections this).2
   + map_fold (λ _ set total, (total + length set)%nat) 0%nat (pruned this))%nat
  = SSEManager.getTotalConnectionCount this.
Proof.
  unfold SSEManager.cleanupDeadConnections.
  destruct (cleanup_count (map_to_list (SSEManager.connections this)) this 0) as [Hres Hcount].
  destruct (entries_fold_all SSEManager.cleanup_entry
              (λ acc, SSEManager.connections acc.1) (open_connections this)
              (λ acc, SSEManager.responses acc.1 = SSEManager.responses this) (this, 0%nat))
    as [_ Hconn]; [| |done|].
  { intros acc [k v] Hacc. destruct (cleanup_entry_step acc k v) as [-> _]. done. }
  { intros acc k v Hacc Hk. destruct (cleanup_entry_step acc k v) as [-> _].
    cbn. unfold open_connections. by rewrite Hacc. }
  cbn [fst] in Hconn. split_and!; [done|done|].
  rewrite Hcount. cbn [plus]. apply (total_pruned this).
Qed.

Lemma pruned_attached (this : SSEManager.t) (sessionId : string) (res : loc) :
  (∃ set, pruned this !! sessionId = Some set ∧ res ∈ set)
  ↔ attached this sessionId res ∧ Res.closed (SSEManager.responses this res) = false.
Proof.
  unfold attached, pruned. rewrite lookup_omap.
  destruct (SSEManager.connections this !! sessionId) as [set|]; cbn.
  - unfold open_connections. destruct (length _ =? 0)%nat eqn:H0.
    + apply Nat.eqb_eq, length_zero_iff_nil in H0. split; [by intros (? & ? & _)|].
      intros [(? & [= <-] & Hin) Hopen]. exfalso.
      eapply filter_nil_not_elem_of; [exact H0|exact Hopen|exact Hin].
    + split.
      * intros (? & [= <-] & [Hopen Hin]%list_elem_of_filter). split; [by eexists|done].
      * intros [(? & [= <-] & Hin) Hopen]. eexists. split; [done|].
        by apply list_elem_of_filter.
  - split; [by intros (? & ? & _)|]. by intros [(? & ? & _) _].
Qed.

Lemma pruned_no_empty (this : SSEManager.t) (sessionId : string) (set : list loc) :
  pruned this !! sessionId = Some set → set ≠ [].
Proof.
  unfold pruned. rewrite lookup_omap.
  destruct (SSEManager.connections this !! sessionId) as [set0|]; [|done]. cbn.
  unfold open_connections. destruct (length _ =? 0)%nat eqn:H0; [done|].
  intros [= <-] Hnil. by rewrite Hnil in H0.
Qed.

Lemma pruned_fixpoint (this this' : SSEManager.t) :
  SSEManager.connections this' = pruned this →
  SSEManager.responses this' = SSEManager.responses this →
  pruned this' = SSEManager.connections this'.
Proof.
  intros Hconn Hres. apply map_eq. intros k. unfold pruned at 1. rewrite lookup_omap.
  destruct (SSEManager.connections this' !! k) as [set|] eqn:Hset; [|done]. cbn.
  unfold open_connections.
  assert (filter (λ res, Res.closed (SSEManager.responses this' res) = false) set = set) as ->.
  { apply filter_all. intros x Hx. rewrite Hres.
    apply (pruned_attached this k x). exists set. by rewrite <- Hconn. }
  rewrite Hconn in Hset. apply pruned_no_empty in Hset. by destruct set.
Qed.

(** X16. [cleanupDeadConnections] removes from every set the responses
    that are destroyed or finished and deletes the sessions that are
    left without a connection; it writes nothing.  Afterwards no session
    has an empty set, a response is attached exactly when it was
    attached and is open, the count of removed connections and the
    total that remains add up to the former total, and a second sweep
    removes nothing. *)
Theorem cleanupDeadConnections_prunes (this : SSEManager.t) :
  let swept := SSEManager.cleanupDeadConnections this in
  SSEManager.connections swept.1 = pruned this ∧
  SSEManager.responses swept.1 = SSEManager.responses this ∧
  (∀ sessionId res,
     attached swept.1 sessionId res
     ↔ attached this sessionId res ∧ Res.closed (SSEManager.responses this res) = false) ∧
  no_empty_set swept.1 ∧
  (swept.2 + SSEManager.getTotalConnectionCount swept.1)%nat
  = SSEManager.getTotalConnectionCount this ∧
  SSEManager.cleanupDeadConnections swept.1 = (swept.1, 0%nat).
Proof.
  intros swept. subst swept.
  destruct (cleanupDeadConnections_spec this) as (Hconn & Hres & Hcount).
  set (swept := SSEManager.cleanupDeadConnections this) in *.
  split_and!; try done.
  - intros sid res. unfold attached at 1. rewrite Hconn. apply pruned_attached.
  - intros sid set Hset. rewrite Hconn in Hset. by eapply pruned_no_empty.
  - unfold SSEManager.getTotalConnectionCount at 1. by rewrite Hconn.
  - destruct (cleanupDeadConnections_spec swept.1) as (Hconn2 & Hres2 & Hcount2).
    pose proof (pruned_fixpoint this swept.1 Hconn Hres) as Hfix.
    rewrite Hfix in Hconn2, Hcount2.
    unfold SSEManager.getTotalConnectionCount in Hcount2.
    set (again := SSEManager.cleanupDeadConnections swept.1) in *.
    assert (again.1 = swept.1) as Ha.
    { clear -Hconn2 Hres2. destruct (again.1) as [ca ra], (swept.1) as [cs rs].
      cbn in *. by subst. }
    rewrite (surjective_pairing again). rewrite Ha. f_equal. lia.
Qed.

Lemma remove_all_absent (sessionId : string) (dead : list loc) (this : SSEManager.t) :
  SSEManager.connections this !! sessionId = None →
  SSEManager.remove_all sessionId dead this = this.
Proof.
  intros Hk. unfold SSEManager.remove_all. induction dead as [|x dead IH]; [done|].
  cbn [fold_left]. unfold SSEManager.removeConnection at 2.
  destruct (String.eqb sessionId ""); [done|]. by rewrite Hk.
Qed.

Lemma remove_all_map (sessionId : string) (dead : list loc) :
  ∀ (this : SSEManager.t) (set : list loc),
    sessionId ≠ "" →
    SSEManager.connections this !! sessionId = Some set →
    set ≠ [] →
    SSEManager.connections (SSEManager.remove_all sessionId dead this)
    = (if (length (filter (λ r, r ∉ dead) set) =? 0)%nat
       then delete sessionId (SSEManager.connections this)
       else <[sessionId := filter (λ r, r ∉ dead) set]> (SSEManager.connections this)).
Proof.
  induction dead as [|x dead IH]; intros this set Hid Hset Hne.
  { cbn. rewrite filter_all by (intros; apply not_elem_of_nil).
    destruct set; [done|]. cbn. by rewrite insert_id. }
  change (SSEManager.remove_all sessionId (x :: dead) this)
    with (SSEManager.remove_all sessionId dead (SSEManager.removeConnection sessionId x this)).
  assert (filter (λ r, r ∉ x :: dead) set
          = filter (λ r, r ∉ dead) (SSEManager.set_delete x set)) as ->.
  { unfold SSEManager.set_delete. rewrite list_filter_filter.
    apply list_filter_iff. intros r. rewrite not_elem_of_cons. tauto. }
  unfold SSEManager.removeConnection.
  rewrite (proj2 (String.eqb_neq _ _) Hid), Hset.
  destruct (length (SSEManager.set_delete x set) =? 0)%nat eqn:H0.
  - rewrite remove_all_absent by (cbn; by rewrite lookup_delete_eq).
    apply Nat.eqb_eq, length_zero_iff_nil in H0. rewrite H0. done.
  - rewrite (IH _ (SSEManager.set_delete x set)); [|done|cbn; by rewrite lookup_insert_eq|].
    + cbn [SSEManager.connections SSEManager.set_connections].
      destruct (length (filter _ _) =? 0)%nat.
      * by rewrite delete_insert_eq.
      * by rewrite insert_insert_eq.
    + intros Hnil. by rewrite Hnil in H0.
Qed.

Lemma deliver_all_dead (eventType : string) (data : gmap string value) (set : list loc) :
  ∀ (this : SSEManager.t) (dead : list loc),
    let result :=
      fold_left (λ acc res, SSEManager.deliver eventType data res acc) set (this, dead) in
    result.2
    = (dead ++ filter (λ res, Res.closed (SSEManager.responses this res) = true) set)%list ∧
    (∀ res, Res.closed (SSEManager.responses result.1 res)
            = Res.closed (SSEManager.responses this res)) ∧
    (∀ res, res ∉ set → SSEManager.responses result.1 res = SSEManager.responses this res).
Proof.
  induction set as [|x set IH]; intros this dead; cbn zeta; cbn [fold_left].
  { cbn. by rewrite app_nil_r. }
  destruct (deliver_step eventType data x this dead) as (this1 & -> & _ & Hresp).
  assert (∀ res, Res.closed (SSEManager.responses this1 res)
                 = Res.closed (SSEManager.responses this res)) as Hclosed.
  { intros res. rewrite Hresp. case_bool_decide as Hr; [|done].
    subst res. apply delivered_closed. }
  destruct (IH this1 (if Res.closed (SSEManager.responses this x)
                      then (dead ++ [x])%list else dead)) as (Hd & Hc & Hout).
  split_and!.
  - rewrite Hd. rewrite filter_cons.
    rewrite (list_filter_iff (λ res, Res.closed (SSEManager.responses this1 res) = true)
               (λ res, Res.closed (SSEManager.responses this res) = true))
      by (intros res; by rewrite Hclosed).
    destruct (Res.closed (SSEManager.responses this x)) eqn:Hx.
    + rewrite decide_True by done. by rewrite <- app_assoc.
    + by rewrite decide_False by done.
  - intros res. by rewrite Hc.
  - intros res [Hne Hres]%not_elem_of_cons. rewrite (Hout _ Hres), Hresp.
    by rewrite bool_decide_eq_false_2.
Qed.

Lemma heartbeat_entry_spec (now : Z) (a : SSEManager.t) (k : string) (v : list loc) :
  let a1 := SSEManager.heartbeat_entry now a (k, v) in
  (k ≠ "" → v ≠ [] → SSEManager.connections a !! k = Some v →
   SSEManager.connections a1
   = match open_connections a v with
     | Some v' => <[k := v']> (SSEManager.connections a)
     | None => delete k (SSEManager.connections a)
     end) ∧
  (∀ res, Res.closed (SSEManager.responses a1 res) = Res.closed (SSEManager.responses a res)) ∧
  (∀ res, res ∉ v → SSEManager.responses a1 res = SSEManager.responses a res) ∧
  (NoDup v → ∀ res, res ∈ v →
     SSEManager.responses a1 res = delivered (heartbeat_frame now) (SSEManager.responses a res)).
Proof.
  unfold SSEManager.heartbeat_entry, SSEManager.deliver_all. cbn zeta.
  match goal with
  | |- context [fold_left ?f v (a, [])] =>
      pose proof (deliver_all_dead "heartbeat"
                    {[ "timestamp" := VTime now; "type" := VString "heartbeat" ]} v a [])
        as (Hd & Hc & Hout);
      pose proof (deliver_all_spec "heartbeat"
                    {[ "timestamp" := VTime now; "type" := VString "heartbeat" ]} v a [])
        as Hspec;
      cbn zeta in Hd, Hc, Hout, Hspec;
      destruct (fold_left f v (a, [])) as [a1 dead] eqn:Hfold
  end.
  cbn [fst snd app] in *. subst dead.
  split_and!.
  - intros Hk Hv Hkv.
    pose proof (deliver_all_connections "heartbeat"
                  {[ "timestamp" := VTime now; "type" := VString "heartbeat" ]} v a) as Hconn.
    unfold SSEManager.deliver_all in Hconn. rewrite Hfold in Hconn. cbn [fst] in Hconn.
    rewrite (remove_all_map k _ a1 v Hk) by (by rewrite ?Hconn).
    rewrite Hconn. unfold open_connections.
    assert (filter (λ r, r ∉ filter (λ res, Res.closed (SSEManager.responses a res) = true) v) v
            = filter (λ res, Res.closed (SSEManager.responses a res) = false) v) as ->.
    { rewrite <- set_delete_all. apply remaining_open. }
    by destruct (length _ =? 0)%nat.
  - intros res. by rewrite remove_all_responses.
  - intros res Hres. rewrite remove_all_responses. by apply Hout.
  - intros Hnd res Hres. rewrite remove_all_responses.
    destruct (Hspec Hnd) as (_ & Hr & _). rewrite Hr.
    by rewrite bool_decide_eq_true_2.
Qed.

Lemma heartbeat_fold_responses (now : Z) (l : list (string * list loc)) :
  ∀ a : SSEManager.t,
    let a' := fold_left (SSEManager.heartbeat_entry now) l a in
    (∀ res, Res.closed (SSEManager.responses a' res) = Res.closed (SSEManager.responses a res)) ∧
    (∀ res, (∀ k v, (k, v) ∈ l → res ∉ v) →
            SSEManager.responses a' res = SSEManager.responses a res) ∧
    (NoDup l.*1 → (∀ k v, (k, v) ∈ l → NoDup v) →
     ∀ res k v, (k, v) ∈ l → res ∈ v →
       (∀ k' v', (k', v') ∈ l → k' ≠ k → res ∉ v') →
       SSEManager.responses a' res
       = delivered (heartbeat_frame now) (SSEManager.responses a res)).
Proof.
  induction l as [|[k0 v0] l IH]; intros a; cbn zeta; cbn [fold_left].
  { split_and!; try done. by intros _ _ res k v ?%not_elem_of_nil. }
  destruct (heartbeat_entry_spec now a k0 v0) as (_ & Hc & Hout & Hin).
  destruct (IH (SSEManager.heartbeat_entry now a (k0, v0))) as (IHc & IHout & IHin).
  split_and!.
  - intros res. by rewrite IHc.
  - intros res Hres. rewrite IHout.
    + apply Hout. apply (Hres k0 v0), list_elem_of_here.
    + intros k v Hkv. apply (Hres k v). by apply list_elem_of_further.
  - intros Hnd Hsets res k v Hkv Hres Honly.
    cbn in Hnd. apply NoDup_cons in Hnd as [Hk0 Hnd].
    apply elem_of_cons in Hkv as [[= -> ->]|Hkv].
    + rewrite IHout.
      * apply Hin; [|done]. apply (Hsets k0 v0), list_elem_of_here.
      * intros k' v' Hkv'. apply (Honly k' v'); [by apply list_elem_of_further|].
        intros ->. apply Hk0. apply list_elem_of_fmap. by exists (k0, v').
    + assert (k0 ≠ k) as Hne.
      { intros ->. apply Hk0. apply list_elem_of_fmap. by exists (k, v). }
      rewrite (IHin Hnd) with (k := k) (v := v); [| |done|done|].
      * f_equal. apply Hout. apply (Honly k0 v0); [apply list_elem_of_here|done].
      * intros k' v' Hkv'. apply (Hsets k' v'). by apply list_elem_of_further.
      * intros k' v' Hkv'. apply (Honly k' v'). by apply list_elem_of_further.
Qed.

(** X17. [sendHeartbeat] prunes the map of connections exactly as
    [cleanupDeadConnections] does: the responses that are destroyed or
    finished are removed and the sessions left without a connection are
    deleted.  No response is opened or closed by it; one that is
    attached to no session receives nothing, and one that is attached to
    a single session receives one [heartbeat] event if it is open and
    its write does not throw. *)
Theorem sendHeartbeat_prunes (now : Z) (this : SSEManager.t) :
  no_empty_set this →
  SSEManager.connections this !! "" = None →
  let this' := SSEManager.sendHeartbeat now this in
  SSEManager.connections this' = pruned this ∧
  SSEManager.connections this'
  = SSEManager.connections (SSEManager.cleanupDeadConnections this).1 ∧
  (∀ res, Res.closed (SSEManager.responses this' res)
          = Res.closed (SSEManager.responses this res)) ∧
  (∀ res, (∀ sessionId, ¬ attached this sessionId res) →
          SSEManager.responses this' res = SSEManager.responses this res) ∧
  (sets_have_no_duplicates this →
   ∀ sessionId res,
     attached this sessionId res →
     (∀ other, other ≠ sessionId → ¬ attached this other res) →
     SSEManager.responses this' res
     = delivered (heartbeat_frame now) (SSEManager.responses this res)).
Proof.
  intros Hne Hempty this'. subst this'. unfold SSEManager.sendHeartbeat.
  destruct (heartbeat_fold_responses now (map_to_list (SSEManager.connections this)) this)
    as (Hc & Hout & Hin).
  destruct (entries_fold_all (SSEManager.heartbeat_entry now) SSEManager.connections
              (open_connections this)
              (λ a, no_empty_set a ∧ SSEManager.connections a !! "" = None ∧
                    ∀ res, Res.closed (SSEManager.responses a res)
                           = Res.closed (SSEManager.responses this res)) this)
    as [_ Hconn]; [| |done|].
  { intros a [k v] (Ha1 & Ha2 & Ha3).
    destruct (heartbeat_entry_spec now a k v) as (Hk & Hcl & _).
    split_and!.
    - by apply heartbeat_entry_no_empty.
    - destruct (decide (k = "")) as [->|Hkne].
      + unfold SSEManager.heartbeat_entry.
        destruct (SSEManager.deliver_all _ _ _ _) as [a1 dead] eqn:Hd.
        pose proof (deliver_all_connections "heartbeat"
          {[ "timestamp" := VTime now; "type" := VString "heartbeat" ]} v a) as Hca.
        rewrite Hd in Hca. cbn [fst] in Hca.
        rewrite remove_all_absent by (by rewrite Hca). by rewrite Hca.
      + destruct (SSEManager.connections a !! k) as [v0|] eqn:Hv0.
        * unfold SSEManager.heartbeat_entry.
          destruct (SSEManager.deliver_all _ _ _ _) as [a1 dead] eqn:Hd.
          pose proof (deliver_all_connections "heartbeat"
            {[ "timestamp" := VTime now; "type" := VString "heartbeat" ]} v a) as Hca.
          rewrite Hd in Hca. cbn [fst] in Hca.
          rewrite (remove_all_map k dead a1 v0 Hkne);
            [|by rewrite Hca|by apply (Ha1 k)].
          rewrite Hca. destruct (length _ =? 0)%nat.
          -- by rewrite lookup_delete_ne.
          -- by rewrite lookup_insert_ne.
        * unfold SSEManager.heartbeat_entry.
          destruct (SSEManager.deliver_all _ _ _ _) as [a1 dead] eqn:Hd.
          pose proof (deliver_all_connections "heartbeat"
            {[ "timestamp" := VTime now; "type" := VString "heartbeat" ]} v a) as Hca.
          rewrite Hd in Hca. cbn [fst] in Hca.
          rewrite remove_all_absent by (by rewrite Hca). by rewrite Hca.
    - intros res. by rewrite Hcl. }
  { intros a k v (Ha1 & Ha2 & Ha3) Hkv.
    destruct (heartbeat_entry_spec now a k v) as (Hk & _).
    rewrite Hk; [|by intros ->; rewrite Ha2 in Hkv|by apply (Ha1 k)|done].
    unfold open_connections.
    rewrite (list_filter_iff (λ res, Res.closed (SSEManager.responses a res) = false)
               (λ res, Res.closed (SSEManager.responses this res) = false))
      by (intros res; by rewrite Ha3).
    done. }
  fold (pruned this) in Hconn.
  split_and!.
  - done.
  - rewrite Hconn. by destruct (cleanupDeadConnections_spec this) as (-> & _).
  - done.
  - intros res Hres. apply Hout. intros k v Hkv%elem_of_map_to_list Hin'.
    apply (Hres k). by exists v.
  - intros Hnd sid res (set & Hset & Hres) Honly.
    apply (Hin (NoDup_fst_map_to_list _)) with (k := sid) (v := set).
    + intros k v Hkv%elem_of_map_to_list. by apply (Hnd k).
    + by apply elem_of_map_to_list.
    + done.
    + intros k' v' Hkv'%elem_of_map_to_list Hk' Hin'. apply (Honly k' Hk'). by exists v'.
Qed.

Lemma sendHeartbeat_prunes_witness :
  SSEManager.connections (SSEManager.sendHeartbeat 7 Sample.sse)
  = SSEManager.connections (SSEManager.cleanupDeadConnections Sample.sse).1.
Proof.
  apply (sendHeartbeat_prunes 7 Sample.sse).
  - intros sid set Hset. unfold Sample.sse in Hset. cbn [SSEManager.connections] in Hset.
    apply lookup_singleton_Some in Hset as [_ <-]. done.
  - reflexivity.
Defined.

Lemma total_as_sum (this : SSEManager.t) (l : list (string * list loc)) :
  (∀ k v, (k, v) ∈ l → SSEManager.connections this !! k = Some v) →
  foldr (λ e t, (t + length e.2)%nat) 0%nat l
  = sum_list (map (λ sessionId, (sessionId, SSEManager.getConnectionCount this sessionId))
                l.*1).*2.
Proof.
  induction l as [|[k v] l IH]; intros Hl; [done|]. cbn.
  rewrite IH by (intros k' v' H'; apply Hl; by right).
  unfold SSEManager.getConnectionCount at 2.
  rewrite (Hl k v) by apply list_elem_of_here. lia.
Qed.

Lemma sum_list_positive (l : list nat) :
  (∀ n, n ∈ l → (0 < n)%nat) → (length l ≤ sum_list l)%nat.
Proof.
  induction l as [|x l IH]; intros Hl; cbn; [lia|].
  specialize (Hl x (list_elem_of_here _ _)) as Hx.
  assert (length l ≤ sum_list l)%nat by (apply IH; intros n Hn; apply Hl; by right).
  lia.
Qed.

(** X18. The statistics of the connection registry are consistent: one
    entry for each session of the map, each with the count that
    [getConnectionCount] gives, [totalSessions] their number and
    [totalConnections] the sum of their counts.  When no session is
    mapped to an empty set, every listed count is positive and there
    are at least as many connections as sessions. *)
Theorem getStats_consistent (this : SSEManager.t) :
  let stats := SSEManager.getStats this in
  SSEManager.totalSessions stats = length (SSEManager.sessionsWithConnections stats) ∧
  SSEManager.totalConnections stats
  = sum_list (SSEManager.sessionsWithConnections stats).*2 ∧
  NoDup (SSEManager.sessionsWithConnections stats).*1 ∧
  (∀ sessionId n,
     (sessionId, n) ∈ SSEManager.sessionsWithConnections stats
     ↔ is_Some (SSEManager.connections this !! sessionId) ∧
       n = SSEManager.getConnectionCount this sessionId) ∧
  (no_empty_set this →
   (∀ sessionId n,
      (sessionId, n) ∈ SSEManager.sessionsWithConnections stats → (0 < n)%nat) ∧
   (SSEManager.totalSessions stats ≤ SSEManager.totalConnections stats)%nat).
Proof.
  intros stats. subst stats. unfold SSEManager.getStats.
  cbn [SSEManager.totalSessions SSEManager.totalConnections
       SSEManager.sessionsWithConnections].
  set (keys := (map_to_list (SSEManager.connections this)).*1).
  set (rows := map (λ sessionId, (sessionId, SSEManager.getConnectionCount this sessionId))
                 keys).
  assert (rows.*1 = keys) as Hkeys.
  { unfold rows. clear. induction keys as [|k keys IH]; [done|]. cbn. by rewrite IH. }
  assert (SSEManager.getTotalConnectionCount this = sum_list rows.*2) as Htotal.
  { unfold SSEManager.getTotalConnectionCount. rewrite map_fold_foldr.
    unfold rows, keys.
    rewrite <- (total_as_sum this (map_to_list (SSEManager.connections this)))
      by (intros k v Hkv; by apply elem_of_map_to_list).
    apply foldr_ext; [|done|done]. by intros [? ?] ?. }
  assert (∀ sessionId n,
            (sessionId, n) ∈ rows
            ↔ is_Some (SSEManager.connections this !! sessionId) ∧
              n = SSEManager.getConnectionCount this sessionId) as Hrows.
  { intros sid n. unfold rows. rewrite list_elem_of_fmap. split.
    - intros (k & [= -> ->] & Hk). split; [|done].
      apply list_elem_of_fmap in Hk as ([k' v] & -> & Hkv%elem_of_map_to_list). by exists v.
    - intros [[v Hv] ->]. exists sid. split; [done|].
      apply list_elem_of_fmap. exists (sid, v). split; [done|]. by apply elem_of_map_to_list. }
  split_and!.
  - unfold rows, keys. by rewrite length_map, length_fmap, length_map_to_list.
  - done.
  - rewrite Hkeys. apply NoDup_fst_map_to_list.
  - done.
  - intros Hne.
    assert (∀ sessionId n, (sessionId, n) ∈ rows → (0 < n)%nat) as Hpos.
    { intros sid n [[v Hv] ->]%Hrows. unfold SSEManager.getConnectionCount. rewrite Hv.
      specialize (Hne _ _ Hv). destruct v; [done|cbn; lia]. }
    split; [done|]. rewrite Htotal.
    assert (size (SSEManager.connections this) = length rows.*2) as ->.
    { unfold rows, keys. by rewrite length_fmap, length_map, length_fmap, length_map_to_list. }
    apply sum_list_positive. intros n Hn.
    apply list_elem_of_fmap in Hn as ([sid n'] & -> & Hin). by apply (Hpos sid).
Qed.

(** ** The workflows: how a run ends *)

Lemma delay_nonneg (n : nat) : (0 <= Upload.delay n)%Z ∧ (0 <= Process.delay n)%Z.
Proof.
  unfold Upload.delay, Process.delay.
  destruct (decide (Z.of_nat n - 1 < 0)%Z) as [Hneg|Hpos].
  - rewrite Z.pow_neg_r by done. lia.
  - assert (0 < 2 ^ (Z.of_nat n - 1))%Z by (apply Z.pow_pos_nonneg; lia). lia.
Qed.

Lemma streaming_not_terminal (sessionId : string) (chunks : list string) :
  Forall (λ e, terminal e = false) (map (broadcastAnalysisStreaming sessionId) chunks).
Proof. apply Forall_forall. intros e (c & -> & _)%list_elem_of_fmap. done. Qed.

Lemma prelude_not_terminal (sessionId : string) (n : nat) :
  Forall (λ e, terminal e = false) (upload_prelude sessionId n).
Proof. destruct n; repeat constructor. Qed.

(** What any attempt does, in terms of the outcome of its call of the
    model. *)
Lemma upload_attempt_spec env sessionId service (n : nat) w :
  let outcome := generateContentStream env (calls w) in
  let r := Upload.attempt env sessionId service n w in
  calls r.1 = S (calls w) ∧
  (clock w <= clock r.1)%Z ∧
  match failure outcome with
  | Some error =>
      r.2 = Some (GeminiService.rethrown error) ∧
      effects r.1
      = (effects w ++ upload_prelude sessionId n
           ++ callGenerateContentStream (GeminiService.model service)
           :: map (broadcastAnalysisStreaming sessionId) (chunks outcome))%list
  | None =>
      r.2 = None ∧
      effects r.1
      = (effects w ++ (upload_prelude sessionId n
           ++ callGenerateContentStream (GeminiService.model service)
           :: map (broadcastAnalysisStreaming sessionId) (chunks outcome))
           ++ [broadcastAnalysisCompleted sessionId
                 (GeminiService.parseResponse env (String.concat "" (chunks outcome)))])%list
  end.
Proof.
  cbn zeta. pose proof (delay_nonneg n) as [Hdelay _].
  unfold Upload.attempt.
  destruct n as [|n]; cbn [Nat.ltb Nat.leb];
    unfold Run.generate, GeminiService.analyzeResumeStreaming;
    cbn [calls Run.sleep Run.emit Run.updateSession];
    destruct (failure (generateContentStream env (calls w))) as [error|]; cbn [fst snd];
    match goal with
    | |- context [fold_left _ ?cs ?w0] =>
        destruct (emit_chunks_frame (broadcastAnalysisStreaming sessionId) cs w0)
          as (Hm & Hclk & Hcalls);
        pose proof (emit_chunks_effects (broadcastAnalysisStreaming sessionId) cs w0) as Heff
    end;
    cbn [calls clock effects Run.sleep Run.emit Run.updateSession] in *;
    rewrite ?Hcalls, ?Hclk, ?Heff;
    (split; [done|]); (split; [lia|]); (split; [done|]);
    cbn [upload_prelude]; rewrite <- ?app_assoc; cbn [app]; rewrite <- ?app_assoc; reflexivity.
Qed.

(** The session after an attempt that succeeds. *)
Lemma upload_attempt_success_session env sessionId service (n : nat) w s e :
  failure (generateContentStream env (calls w)) = None →
  sessionId ≠ "" →
  Run.session w sessionId = Some s →
  expiresAt s = Some e →
  (clock (Upload.attempt env sessionId service n w).1 <= e)%Z →
  ∃ s',
    Run.session (Upload.attempt env sessionId service n w).1 sessionId = Some s' ∧
    status s' = "completed" ∧
    feedback s'
    = Some (GeminiService.parseResponse env
              (String.concat "" (chunks (generateContentStream env (calls w))))) ∧
    completedAt s' = Some (clock (Upload.attempt env sessionId service n w).1) ∧
    retryCount s' = (match n with O => retryCount s | S _ => n end) ∧
    lastError s' = lastError s ∧
    expiresAt s' = Some e ∧
    createdAt s' = createdAt s.
Proof.
  intros Hok Hid Hs He. pose proof (delay_nonneg n) as [Hdelay _].
  unfold Upload.attempt.
  set (w0 := if (0 <? n)%nat then _ else _).
  assert ((clock w <= clock w0)%Z ∧ calls w0 = calls w ∧
          ((∃ s0, Run.session w0 sessionId = Some s0 ∧ expiresAt s0 = Some e ∧
                  retryCount s0 = (match n with O => retryCount s | S _ => n end) ∧
                  lastError s0 = lastError s ∧ createdAt s0 = createdAt s) ∨
           (e < clock w)%Z)) as (Hclk0 & Hcalls0 & Hs0).
  { subst w0. destruct n as [|n]; cbn [Nat.ltb Nat.leb].
    - split; [done|]. split; [done|].
      destruct (decide (clock w <= e)%Z) as [Hle|Hgt]; [|right; lia]. left.
      eexists. split.
      + unfold Run.session, Run.emit. cbn [manager].
        apply (run_updateSession_live sessionId _ w s e Hid Hs He Hle).
      + cbn. by rewrite He.
    - split; [cbn; lia|]. split; [done|].
      destruct (decide (clock w <= e)%Z) as [Hle|Hgt]; [|right; lia]. left.
      eexists. split.
      + unfold Run.session, Run.sleep, Run.emit. cbn [manager].
        apply (run_updateSession_live sessionId _ w s e Hid Hs He Hle).
      + cbn. by rewrite He. }
  unfold Run.generate, GeminiService.analyzeResumeStreaming. rewrite Hcalls0, Hok.
  match goal with
  | |- context [fold_left _ ?cs ?w1] =>
      destruct (emit_chunks_frame (broadcastAnalysisStreaming sessionId) cs w1)
        as (Hm & Hclk & Hcalls);
      pose proof (emit_chunks_session (broadcastAnalysisStreaming sessionId) cs w1 sessionId)
        as Hsess;
      set (w2 := fold_left _ cs w1) in *
  end.
  cbn [fst clock Run.emit Run.updateSession]. cbn [clock] in Hclk.
  intros Hle.
  destruct Hs0 as [(s0 & Hs0 & He0 & Hr0 & Hl0 & Hc0)|Hexp];
    [|pose proof (N2Z.is_nonneg (elapsed (generateContentStream env (calls w)))); lia].
  assert (Run.session w2 sessionId = Some s0) as Hs2 by (by rewrite Hsess).
  eexists. split.
  - unfold Run.session, Run.emit. cbn [manager].
    apply (run_updateSession_live sessionId _ w2 s0 e Hid Hs2 He0 Hle).
  - cbn. by rewrite He0.
Qed.

Lemma run_ends_with_app (w w1 w' : World) (events : list Effect) (last : Effect) :
  effects w1 = (effects w ++ events)%list →
  Forall (λ e, terminal e = false) events →
  run_ends_with w1 w' last →
  run_ends_with w w' last.
Proof.
  intros He Hnt (events' & He' & Hlast & Hnt').
  exists (events ++ events')%list. split_and!; [|done|by apply Forall_app].
  rewrite He', He, <- !app_assoc. done.
Qed.

Lemma attempt_events_not_terminal (sessionId model : string) (n : nat) (chunks : list string) :
  Forall (λ e, terminal e = false)
    (upload_prelude sessionId n
       ++ callGenerateContentStream model
       :: map (broadcastAnalysisStreaming sessionId) chunks)%list.
Proof.
  apply Forall_app. split; [apply prelude_not_terminal|].
  constructor; [done|apply streaming_not_terminal].
Qed.

(** A run of the analysis of the upload workflow, from any attempt. *)
Lemma upload_run_spec env sessionId :
  ∀ (k n : nat) service w,
    k = (Upload.maxRetries - n)%nat →
    let w' := Upload.analyzeWithRetry env sessionId service n w in
    (calls w < calls w')%nat ∧
    (calls w' <= calls w + Nat.max 1 (4 - n))%nat ∧
    (clock w <= clock w')%Z ∧
    ∃ last,
      run_ends_with w w' last ∧
      ∀ s e, sessionId ≠ "" → Run.session w sessionId = Some s → expiresAt s = Some e →
             (clock w' <= e)%Z →
             ∃ s', Run.session w' sessionId = Some s' ∧ agrees_with s' last.
Proof.
  intros k. induction (lt_wf k) as [k _ IH]. intros n service w Hk. cbn zeta.
  rewrite upload_analyzeWithRetry_unfold.
  destruct (upload_attempt_spec env sessionId service n w) as (Hcalls & Hclk & Hout).
  destruct (failure (generateContentStream env (calls w))) as [error|] eqn:Hfail.
  - destruct Hout as [Hmsg Heff].
    destruct (upload_attempt_failure env sessionId service n w error Hfail)
      as (w1 & Hatt & _ & Hexp).
    rewrite Hatt in *. cbn [fst snd] in *. cbn zeta.
    assert (∀ service',
              (n < Upload.maxRetries)%nat →
              let w' := Upload.analyzeWithRetry env sessionId service' (S n) w1 in
              (calls w < calls w')%nat ∧
              (calls w' <= calls w + Nat.max 1 (4 - n))%nat ∧
              (clock w <= clock w')%Z ∧
              ∃ last,
                run_ends_with w w' last ∧
                ∀ s e, sessionId ≠ "" → Run.session w sessionId = Some s →
                       expiresAt s = Some e → (clock w' <= e)%Z →
                       ∃ s', Run.session w' sessionId = Some s' ∧ agrees_with s' last)
      as Hrec.
    { intros service' Hlt. unfold Upload.maxRetries in *.
      destruct (IH (3 - S n)%nat ltac:(lia) (S n) service' w1 eq_refl)
        as (H1 & H2 & H3 & last & Hlast & Hsess).
      cbn zeta. split_and!; [lia|lia|lia|].
      exists last. split.
      - eapply run_ends_with_app; [exact Heff| |exact Hlast].
        apply attempt_events_not_terminal.
      - intros s e Hid Hs He Hle.
        destruct (Hexp e) as (s1 & Hs1 & He1); [by exists s|].
        by apply (Hsess s1 e). }
    destruct (JS.includes (GeminiService.rethrown error) "model not found"
              && (GeminiService.reinitializeModel env service).2
              && (n <? Upload.maxRetries)%nat) eqn:Hmodel.
    { apply Hrec. apply andb_true_iff in Hmodel as [_ Hlt]. by apply Nat.ltb_lt. }
    destruct (Upload.isRetryableError (GeminiService.rethrown error)
              && (n <? Upload.maxRetries)%nat) eqn:Hretry.
    { apply Hrec. apply andb_true_iff in Hretry as [_ Hlt]. by apply Nat.ltb_lt. }
    destruct (upload_giveUp_spec sessionId (GeminiService.rethrown error) n w1)
      as (Hgclk & Hgcalls & Hgeff & Hgsess).
    split_and!; [lia|lia|lia|].
    exists (broadcastError sessionId (GeminiService.rethrown error)
              {| code := "AI_ANALYSIS_FAILED"; stage := "analysis";
                 retryable := Upload.isRetryableError (GeminiService.rethrown error);
                 details_retryCount := Some (n + 1)%nat |}).
    split.
    + exists (upload_prelude sessionId n
                ++ callGenerateContentStream (GeminiService.model service)
                :: map (broadcastAnalysisStreaming sessionId)
                     (chunks (generateContentStream env (calls w))))%list.
      split_and!; [|done|apply attempt_events_not_terminal].
      rewrite Hgeff, Heff. by rewrite <- !app_assoc.
    + intros s e Hid Hs He Hle.
      destruct (Hexp e) as (s1 & Hs1 & He1); [by exists s|].
      destruct (Hgsess s1 e Hid Hs1 He1) as (s' & Hs' & Hst & Hle' & _); [lia|].
      by exists s'.
  - destruct Hout as [Hnone Heff].
    pose proof (upload_attempt_success_session env sessionId service n w) as Hsess.
    destruct (Upload.attempt env sessionId service n w) as [w1 r]. cbn [fst snd] in *.
    subst r. split_and!; [lia|lia|lia|].
    exists (broadcastAnalysisCompleted sessionId
              (GeminiService.parseResponse env
                 (String.concat "" (chunks (generateContentStream env (calls w)))))).
    split.
    + exists (upload_prelude sessionId n
                ++ callGenerateContentStream (GeminiService.model service)
                :: map (broadcastAnalysisStreaming sessionId)
                     (chunks (generateContentStream env (calls w))))%list.
      split_and!; [exact Heff|done|apply attempt_events_not_terminal].
    + intros s e Hid Hs He Hle.
      destruct (Hsess s e Hfail Hid Hs He Hle) as (s' & Hs' & Hst & Hfb & _).
      by exists s'.
Qed.

Lemma process_attempt_spec env sessionId service (n : nat) w :
  let outcome := generateContentStream env (calls w) in
  let r := Process.attempt env sessionId service n w in
  calls r.1 = S (calls w) ∧
  (clock w <= clock r.1)%Z ∧
  manager r.1 = manager w ∧
  match failure outcome with
  | Some error =>
      r.2 = Some (GeminiService.rethrown error) ∧
      effects r.1
      = (effects w ++ upload_prelude sessionId n
           ++ callGenerateContentStream (GeminiService.model service)
           :: map (broadcastAnalysisStreaming sessionId) (chunks outcome))%list
  | None =>
      r.2 = None ∧
      effects r.1
      = (effects w ++ (upload_prelude sessionId n
           ++ callGenerateContentStream (GeminiService.model service)
           :: map (broadcastAnalysisStreaming sessionId) (chunks outcome))
           ++ [broadcastAnalysisCompleted sessionId
                 (GeminiService.parseResponse env (String.concat "" (chunks outcome)))])%list
  end.
Proof.
  cbn zeta. pose proof (delay_nonneg n) as [_ Hdelay].
  pose proof (process_attempt_manager env sessionId service n w) as Hmgr.
  split_and!; [| |done|]; revert Hmgr; unfold Process.attempt;
    destruct n as [|n]; cbn [Nat.ltb Nat.leb];
    unfold Run.generate, GeminiService.analyzeResumeStreaming;
    cbn [calls Run.sleep Run.emit];
    destruct (failure (generateContentStream env (calls w))) as [error|]; cbn [fst snd];
    intros _;
    match goal with
    | |- context [fold_left _ ?cs ?w0] =>
        destruct (emit_chunks_frame (broadcastAnalysisStreaming sessionId) cs w0)
          as (Hm & Hclk & Hcalls);
        pose proof (emit_chunks_effects (broadcastAnalysisStreaming sessionId) cs w0) as Heff
    end;
    cbn [calls clock effects Run.sleep Run.emit] in *;
    rewrite ?Hcalls, ?Hclk, ?Heff; try done; try lia;
    (split; [done|]);
    cbn [upload_prelude]; rewrite <- ?app_assoc; cbn [app]; rewrite <- ?app_assoc; reflexivity.
Qed.

(** A run of the analysis of routes/process.js, from any attempt. *)
Lemma process_run_spec env sessionId service :
  ∀ (k n : nat) w,
    k = (Process.maxRetries - n)%nat →
    let w' := Process.analyzeWithRetry env sessionId service n w in
    (calls w < calls w')%nat ∧
    (calls w' <= calls w + Nat.max 1 (4 - n))%nat ∧
    (clock w <= clock w')%Z ∧
    manager w' = manager w ∧
    ∃ last, run_ends_with w w' last.
Proof.
  intros k. induction (lt_wf k) as [k _ IH]. intros n w Hk. cbn zeta.
  rewrite process_analyzeWithRetry_unfold.
  destruct (process_attempt_spec env sessionId service n w) as (Hcalls & Hclk & Hmgr & Hout).
  destruct (Process.attempt env sessionId service n w) as [w1 r]. cbn [fst snd] in *.
  destruct (failure (generateContentStream env (calls w))) as [error|] eqn:Hfail.
  - destruct Hout as [-> Heff].
    destruct (n <? Process.maxRetries)%nat eqn:Hlt.
    + apply Nat.ltb_lt in Hlt. unfold Process.maxRetries in *.
      destruct (IH (3 - S n)%nat ltac:(lia) (S n) w1 eq_refl)
        as (H1 & H2 & H3 & H4 & last & Hlast).
      split_and!; [lia|lia|lia|congruence|].
      exists last. eapply run_ends_with_app; [exact Heff| |exact Hlast].
      apply attempt_events_not_terminal.
    + cbn [calls clock manager Run.emit]. split_and!; [lia|lia|lia|done|].
      exists (broadcastError sessionId "AI analysis failed after multiple attempts"
                {| code := "AI_ANALYSIS_FAILED"; stage := "analysis";
                   retryable := false; details_retryCount := Some (n + 1)%nat |}).
      exists (upload_prelude sessionId n
                ++ callGenerateContentStream (GeminiService.model service)
                :: map (broadcastAnalysisStreaming sessionId)
                     (chunks (generateContentStream env (calls w))))%list.
      split_and!; [|done|apply attempt_events_not_terminal].
      cbn [effects Run.emit]. rewrite Heff. by rewrite <- !app_assoc.
  - destruct Hout as [-> Heff]. split_and!; [lia|lia|lia|done|].
    exists (broadcastAnalysisCompleted sessionId
              (GeminiService.parseResponse env
                 (String.concat "" (chunks (generateContentStream env (calls w)))))).
    exists (upload_prelude sessionId n
              ++ callGenerateContentStream (GeminiService.model service)
              :: map (broadcastAnalysisStreaming sessionId)
                   (chunks (generateContentStream env (calls w))))%list.
    split_and!; [exact Heff|done|apply attempt_events_not_terminal].
Qed.

Lemma error_exit_spec (sessionId message : string) (details : ErrorDetails) (w w0 : World)
    (events : list Effect) :
  effects w0 = (effects w ++ events)%list →
  Forall (λ e, terminal e = false) events →
  (∀ e, expires_at w sessionId e → expires_at w0 sessionId e) →
  let w' := Run.emit (broadcastError sessionId message details)
              (Run.updateSession sessionId
                 {| set_sessionId := None; set_status := Some "error"; set_expiresAt := None;
                    set_retryCount := None; set_lastError := Some (Some message);
                    set_extractedText := None; set_feedback := None; set_completedAt := None;
                    set_fileInfo := None |} w0) in
  calls w' = calls w0 ∧ clock w' = clock w0 ∧
  run_ends_with w w' (broadcastError sessionId message details) ∧
  ∀ s e, sessionId ≠ "" → Run.session w sessionId = Some s → expiresAt s = Some e →
         (clock w' <= e)%Z →
         ∃ s', Run.session w' sessionId = Some s' ∧
               agrees_with s' (broadcastError sessionId message details).
Proof.
  intros Heff Hnt Hexp. cbn zeta. split_and!; [done|done| |].
  - exists events. split_and!; [|done|done]. cbn. by rewrite Heff, <- app_assoc.
  - intros s e Hid Hs He Hle. destruct (Hexp e) as (s0 & Hs0 & He0); [by exists s|].
    eexists. split.
    + unfold Run.session, Run.emit. cbn [manager].
      apply (run_updateSession_live sessionId _ w0 s0 e Hid Hs0 He0 Hle).
    + done.
Qed.

(** A run of the workflow of the upload route. *)
Lemma upload_workflow_spec env sessionId filePath w :
  let w' := Upload.processResumeWorkflow env sessionId filePath w in
  (calls w' <= calls w + 4)%nat ∧
  (clock w <= clock w')%Z ∧
  (calls w' ≠ calls w →
   ∃ service text textLength pages,
     GeminiService.new env = Return service ∧
     extractText env filePath = ExtractionOk text textLength pages) ∧
  ∃ last,
    run_ends_with w w' last ∧
    ∀ s e, sessionId ≠ "" → Run.session w sessionId = Some s → expiresAt s = Some e →
           (clock w' <= e)%Z →
           ∃ s', Run.session w' sessionId = Some s' ∧ agrees_with s' last.
Proof.
  cbn zeta. unfold Upload.processResumeWorkflow.
  destruct (GeminiService.new env) as [service|m].
  2:{ destruct (error_exit_spec sessionId "AI service initialization failed"
                  {| code := "AI_INIT_ERROR"; stage := "initialization";
                     retryable := false; details_retryCount := None |} w w [])
        as (Hc & Hk & Hrun & Hs); [by rewrite app_nil_r|done|done|].
      cbn zeta in *. split_and!; [lia|lia|by rewrite Hc|]. eexists. by split. }
  unfold Run.extract.
  set (w0 := Run.emit (broadcastExtractionStarted sessionId) _).
  set (w1 := {| manager := manager w0; clock := _; calls := _; effects := _ |}).
  assert (effects w1 = (effects w ++ [broadcastExtractionStarted sessionId;
                                      callExtractText filePath])%list) as Heff1.
  { subst w1 w0. cbn. by rewrite <- app_assoc. }
  assert (calls w1 = calls w ∧ (clock w <= clock w1)%Z) as [Hcalls1 Hclk1].
  { subst w1 w0. cbn. split; [done|lia]. }
  assert (∀ e, expires_at w sessionId e → expires_at w1 sessionId e) as Hexp1.
  { intros e He. eapply run_updateSession_expires_at in He; [exact He|done]. }
  assert (Forall (λ e, terminal e = false)
            [broadcastExtractionStarted sessionId; callExtractText filePath]) as Hnt
    by (by repeat constructor).
  destruct (extractText env filePath) as [text len pages|ty msg|msg] eqn:Hext.
  - set (w2 := Run.emit (broadcastExtractionCompleted sessionId text len pages) _).
    assert (effects w2 = (effects w ++ [broadcastExtractionStarted sessionId;
                                        callExtractText filePath;
                                        broadcastExtractionCompleted sessionId text len pages])%list)
      as Heff2.
    { subst w2. cbn [effects Run.emit Run.updateSession]. by rewrite Heff1, <- app_assoc. }
    assert (∀ e, expires_at w sessionId e → expires_at w2 sessionId e) as Hexp2.
    { intros e He%Hexp1. eapply run_updateSession_expires_at in He; [exact He|done]. }
    destruct (upload_run_spec env sessionId 3 0 service w2 eq_refl)
      as (H1 & H2 & H3 & last & Hlast & Hsess).
    change (calls w2) with (calls w1) in *. change (clock w2) with (clock w1) in *.
    cbn [Nat.max Nat.sub] in H2.
    split_and!; [lia|lia|by eexists _, _, _, _|].
    exists last. split.
    + eapply run_ends_with_app; [exact Heff2| |exact Hlast]. by repeat constructor.
    + intros s e Hid Hs He Hle. destruct (Hexp2 e) as (s2 & Hs2 & He2); [by exists s|].
      by apply (Hsess s2 e).
  - destruct (error_exit_spec sessionId msg
                {| code := ty; stage := "extraction";
                   retryable := false; details_retryCount := None |} w w1 _ Heff1 Hnt Hexp1)
      as (Hc & Hk & Hrun & Hs).
    cbn zeta in *. split_and!; [lia|lia|by rewrite Hc, Hcalls1|]. eexists. by split.
  - destruct (error_exit_spec sessionId msg
                {| code := "WORKFLOW_ERROR"; stage := "processing";
                   retryable := true; details_retryCount := None |} w w1 _ Heff1 Hnt Hexp1)
      as (Hc & Hk & Hrun & Hs).
    cbn zeta in *. split_and!; [lia|lia|by rewrite Hc, Hcalls1|]. eexists. by split.
Qed.

(** A run of the workflow of routes/process.js. *)
Lemma process_workflow_spec env sessionId session w :
  let w' := Process.processResumeWorkflow env sessionId session w in
  (calls w' <= calls w + 4)%nat ∧
  (clock w <= clock w')%Z ∧
  (calls w' ≠ calls w →
   ∃ service text textLength pages,
     GeminiService.new env = Return service ∧
     extractText env (Process.filePathOf w session) = ExtractionOk text textLength pages) ∧
  manager w' = manager w ∧
  ∃ last, run_ends_with w w' last.
Proof.
  cbn zeta. unfold Process.processResumeWorkflow.
  destruct (GeminiService.new env) as [service|m].
  2:{ cbn. split_and!; [lia|lia|done|done|].
      exists (broadcastError sessionId "AI service initialization failed"
                {| code := "AI_INIT_ERROR"; stage := "initialization";
                   retryable := false; details_retryCount := None |}).
      exists []. split_and!; [done|done|done]. }
  unfold Run.extract.
  change (Process.filePathOf (Run.emit (broadcastExtractionStarted sessionId) w) session)
    with (Process.filePathOf w session).
  set (filePath := Process.filePathOf w session).
  destruct (extractText env filePath) as [text len pages|ty msg|msg] eqn:Hext.
  - match goal with
    | |- context [Process.analyzeWithRetry env sessionId service 0 ?w0] =>
        set (w2 := w0);
        destruct (process_run_spec env sessionId service 3 0 w2 eq_refl)
          as (H1 & H2 & H3 & H4 & last & Hlast)
    end.
    cbn [Nat.max Nat.sub] in H2.
    assert (calls w2 = calls w ∧ (clock w <= clock w2)%Z ∧ manager w2 = manager w)
      as (Hc & Hk & Hm) by (subst w2; cbn; split_and!; [done|lia|done]).
    split_and!; [lia|lia|by eexists _, _, _, _|congruence|].
    exists last.
    eapply (run_ends_with_app w w2 _
              [broadcastExtractionStarted sessionId; callExtractText filePath;
               broadcastExtractionCompleted sessionId text len pages]); [| |exact Hlast].
    + subst w2. cbn [effects Run.emit]. by rewrite <- !app_assoc.
    + by repeat constructor.
  - cbn. split_and!; [lia|lia|done|done|].
    exists (broadcastError sessionId msg
              {| code := ty; stage := "extraction";
                 retryable := false; details_retryCount := None |}).
    exists [broadcastExtractionStarted sessionId; callExtractText filePath].
    split_and!; [cbn [effects Run.emit]; by rewrite <- !app_assoc|done|by repeat constructor].
  - cbn. split_and!; [lia|lia|done|done|].
    exists (broadcastError sessionId msg
              {| code := "WORKFLOW_ERROR"; stage := "processing";
                 retryable := true; details_retryCount := None |}).
    exists [broadcastExtractionStarted sessionId; callExtractText filePath].
    split_and!; [cbn [effects Run.emit]; by rewrite <- !app_assoc|done|by repeat constructor].
Qed.

(** X19. Every run ends with exactly one terminal event, and it is the
    last effect of the run: the analysis of either workflow, started at
    any attempt, and either workflow as a whole emit events that are
    neither [analysis.completed] nor [error], followed by one that is. *)
Theorem run_ends_with_one_terminal_event env sessionId filePath service session (n : nat) w :
  (∃ last, run_ends_with w (Upload.analyzeWithRetry env sessionId service n w) last) ∧
  (∃ last, run_ends_with w (Upload.processResumeWorkflow env sessionId filePath w) last) ∧
  (∃ last, run_ends_with w (Process.analyzeWithRetry env sessionId service n w) last) ∧
  (∃ last, run_ends_with w (Process.processResumeWorkflow env sessionId session w) last).
Proof.
  split_and!.
  - destruct (upload_run_spec env sessionId _ n service w eq_refl)
      as (_ & _ & _ & last & Hlast & _). by exists last.
  - destruct (upload_workflow_spec env sessionId filePath w)
      as (_ & _ & _ & last & Hlast & _). by exists last.
  - by destruct (process_run_spec env sessionId service _ n w eq_refl) as (_ & _ & _ & _ & H).
  - by destruct (process_workflow_spec env sessionId session w) as (_ & _ & _ & _ & H).
Qed.

(** X20. The number of calls of the model is bounded: a run of the
    analysis that starts at attempt [n] calls the model at least once
    and at most [4 - n] times (once when [n] is 3 or more), so a whole
    workflow makes at most four calls.  The upload workflow calls the
    model only when the service initializes and the extraction of the
    text succeeds.  Time never goes back during a run. *)
Theorem model_calls_are_bounded env sessionId filePath service (n : nat) w :
  let analysis := Upload.analyzeWithRetry env sessionId service n w in
  let analysis' := Process.analyzeWithRetry env sessionId service n w in
  let workflow := Upload.processResumeWorkflow env sessionId filePath w in
  (calls w < calls analysis)%nat ∧
  (calls analysis <= calls w + Nat.max 1 (4 - n))%nat ∧
  (calls w < calls analysis')%nat ∧
  (calls analysis' <= calls w + Nat.max 1 (4 - n))%nat ∧
  (calls w <= calls workflow <= calls w + 4)%nat ∧
  (calls workflow ≠ calls w →
   ∃ service text textLength pages,
     GeminiService.new env = Return service ∧
     extractText env filePath = ExtractionOk text textLength pages) ∧
  (clock w <= clock analysis)%Z ∧
  (clock w <= clock analysis')%Z ∧
  (clock w <= clock workflow)%Z.
Proof.
  cbn zeta.
  destruct (upload_run_spec env sessionId _ n service w eq_refl) as (H1 & H2 & H3 & _).
  destruct (process_run_spec env sessionId service _ n w eq_refl) as (H4 & H5 & H6 & _).
  destruct (upload_workflow_spec env sessionId filePath w) as (H7 & H8 & H9 & _).
  split_and!; try done.
  destruct (decide (calls (Upload.processResumeWorkflow env sessionId filePath w) = calls w))
    as [->|Hne]; [lia|].
  destruct (H9 Hne) as (service' & text & len & pages & Hnew & Hext).
  unfold Upload.processResumeWorkflow. rewrite Hnew. unfold Run.extract. rewrite Hext.
  match goal with
  | |- context [Upload.analyzeWithRetry env sessionId service' 0 ?w0] =>
      destruct (upload_run_spec env sessionId _ 0 service' w0 eq_refl) as (Hlt & _);
      change (calls w0) with (calls w) in Hlt
  end.
  lia.
Qed.

(** X21. When the upload workflow ends, the stored session says what the
    last event said: if the session is stored and has not expired by
    the end of the run, it is ['completed'] and holds the feedback that
    the [analysis.completed] event carried, or it is in ['error'] and
    [lastError] is the message of the [error] event. *)
Theorem stored_session_agrees_with_last_event env sessionId filePath w s e :
  sessionId ≠ "" →
  Run.session w sessionId = Some s →
  expiresAt s = Some e →
  (clock (Upload.processResumeWorkflow env sessionId filePath w) <= e)%Z →
  ∃ last s',
    run_ends_with w (Upload.processResumeWorkflow env sessionId filePath w) last ∧
    Run.session (Upload.processResumeWorkflow env sessionId filePath w) sessionId = Some s' ∧
    agrees_with s' last.
Proof.
  intros Hid Hs He Hle.
  destruct (upload_workflow_spec env sessionId filePath w)
    as (_ & _ & _ & last & Hlast & Hsess).
  destruct (Hsess s e Hid Hs He Hle) as (s' & Hs' & Hagree).
  by exists last, s'.
Qed.

Lemma stored_session_agrees_with_last_event_witness :
  ∃ last s',
    run_ends_with Sample.world
      (Upload.processResumeWorkflow Sample.answering "u1" "cv.pdf" Sample.world) last ∧
    Run.session (Upload.processResumeWorkflow Sample.answering "u1" "cv.pdf" Sample.world) "u1"
    = Some s' ∧
    agrees_with s' last.
Proof.
  apply (stored_session_agrees_with_last_event Sample.answering "u1" "cv.pdf" Sample.world
           Sample.session 3600000).
  - discriminate.
  - reflexivity.
  - reflexivity.
  - vm_compute. discriminate.
Defined.

(** X22. An attempt whose call of the model does not fail ends the run:
    after the events that open the attempt, every chunk of the stream
    is broadcast in order and then the feedback parsed from their
    concatenation, which is well formed; no timer and no further call
    follows.  The session, if it has not expired by then, is
    ['completed'] with that feedback and the time of completion, and
    its retry count is the number of the attempt when this is a retry. *)
Theorem successful_attempt_completes env sessionId service (n : nat) w :
  failure (generateContentStream env (calls w)) = None →
  let outcome := generateContentStream env (calls w) in
  let result := GeminiService.parseResponse env (String.concat "" (chunks outcome)) in
  let w' := Upload.analyzeWithRetry env sessionId service n w in
  well_formed_feedback result ∧
  calls w' = S (calls w) ∧
  effects w'
  = (effects w ++ upload_prelude sessionId n
       ++ callGenerateContentStream (GeminiService.model service)
       :: map (broadcastAnalysisStreaming sessionId) (chunks outcome)
       ++ [broadcastAnalysisCompleted sessionId result])%list ∧
  ∀ s e, sessionId ≠ "" → Run.session w sessionId = Some s → expiresAt s = Some e →
         (clock w' <= e)%Z →
         ∃ s', Run.session w' sessionId = Some s' ∧
               status s' = "completed" ∧
               feedback s' = Some result ∧
               completedAt s' = Some (clock w') ∧
               retryCount s' = (match n with O => retryCount s | S _ => n end).
Proof.
  intros Hok. cbn zeta. rewrite upload_analyzeWithRetry_unfold.
  destruct (upload_attempt_spec env sessionId service n w) as (Hcalls & _ & Hout).
  pose proof (upload_attempt_success_session env sessionId service n w) as Hsess.
  rewrite Hok in Hout. destruct Hout as [Hnone Heff].
  destruct (Upload.attempt env sessionId service n w) as [w1 r]. cbn [fst snd] in *. subst r.
  split_and!.
  - eapply validateFeedbackStructure_sound.
    unfold GeminiService.parseResponse.
    destruct (GeminiService.parseResponse_try env _) as [parsed|m] eqn:Htry.
    + by eapply parseResponse_try_validated.
    + reflexivity.
  - done.
  - rewrite Heff, <- !app_assoc. done.
  - intros s e Hid Hs He Hle.
    destruct (Hsess s e Hok Hid Hs He Hle) as (s' & Hs' & H1 & H2 & H3 & H4 & _).
    by exists s'.
Qed.

Lemma successful_attempt_completes_witness :
  effects (Upload.analyzeWithRetry Sample.answering "u1" Sample.service 0 Sample.world)
  = (effects Sample.world ++ upload_prelude "u1" 0
       ++ callGenerateContentStream (GeminiService.model Sample.service)
       :: map (broadcastAnalysisStreaming "u1") (chunks Sample.plain_text)
       ++ [broadcastAnalysisCompleted "u1"
             (GeminiService.parseResponse Sample.answering
                (String.concat "" (chunks Sample.plain_text)))])%list.
Proof.
  apply (successful_attempt_completes Sample.answering "u1" Sample.service 0 Sample.world).
  reflexivity.
Defined.

(** ** The routes *)

(** X23. [POST /api/process/:sessionId] answers 200 exactly when the
    session is stored under a non-empty id and has not expired, and 404
    otherwise, in which case nothing is emitted and the model is not
    called.  When it answers 200 the workflow that it starts reports its
    outcome by events only: the run ends with a terminal event, but the
    stored session is what it was before, so its status never becomes
    ['completed'] or ['error'] and the feedback is not stored. *)
Theorem process_start_reports_by_events_only env sessionId w :
  let result := Process.start env sessionId w in
  (http_status result.2 = 200%nat ∨ http_status result.2 = 404%nat) ∧
  (http_status result.2 = 200%nat
   ↔ sessionId ≠ "" ∧
     SessionManager.isSessionExpired (clock w) (Run.session w sessionId) = false) ∧
  (http_status result.2 = 404%nat →
   http_code result.2 = Some "SESSION_NOT_FOUND" ∧
   effects result.1 = effects w ∧ calls result.1 = calls w ∧
   (sessionId ≠ "" → Run.session result.1 sessionId = None)) ∧
  (http_status result.2 = 200%nat →
   Run.session result.1 sessionId = Run.session w sessionId ∧
   SessionManager.sessions (manager result.1) = SessionManager.sessions (manager w) ∧
   ∃ last, run_ends_with w result.1 last).
Proof.
  cbn zeta. unfold Process.start, Run.getSession, SessionManager.getSession, Run.session.
  destruct (SessionManager.invalidId sessionId) eqn:Hinv.
  { apply String.eqb_eq in Hinv. cbn [fst snd http_status http_code effects calls manager].
    split; [by right|]. split; [|split; [|done]].
    - split; [done|]. by intros [? _].
    - intros _. by split_and!. }
  assert (sessionId ≠ "") as Hid by (by apply String.eqb_neq).
  destruct (SessionManager.get (manager w) sessionId) as [s|] eqn:Hs.
  2:{ cbn [fst snd http_status http_code effects calls manager].
      split; [by right|]. split; [|split; [|done]].
      - split; [done|]. by intros [_ ?].
      - intros _. by split_and!. }
  destruct (SessionManager.isSessionExpired (clock w) (Some s)) eqn:Hexp.
  - cbn [fst snd http_status http_code effects calls manager].
    split; [by right|]. split; [|split; [|done]].
    + split; [done|]. by intros [_ ?].
    + intros _. split_and!; [done|done|done|]. intros _.
      unfold SessionManager.deleteSession. rewrite Hinv.
      unfold SessionManager.get. cbn. by rewrite lookup_delete_eq.
  - destruct (SessionManager.alloc s (manager w)) as [m l] eqn:Halloc.
    set (w1 := {| manager := m; clock := clock w; calls := calls w; effects := effects w |}).
    destruct (process_workflow_spec env sessionId s w1) as (_ & _ & _ & Hmgr & last & Hlast).
    cbn [fst snd http_status http_code].
    assert (m = (SessionManager.alloc s (manager w)).1) as Hm by (by rewrite Halloc).
    split; [by left|]. split; [done|]. split; [done|].
    intros _. rewrite Hmgr. cbn [manager w1].
    split_and!.
    + rewrite Hm. by apply alloc_get_old.
    + by rewrite Hm.
    + exists last. destruct Hlast as (events & He & Ht & Hnt). by exists events.
Qed.

(** X24. After a run of the upload workflow in which every attempt fails
    with a retryable error, the manual trigger
    [POST /api/events/:sessionId/retry] refuses: the session is in
    ['error'] with a stored retry count of 4, so the route answers 400
    with [MAX_RETRIES_EXCEEDED] and changes nothing. *)
Theorem exhausted_run_cannot_be_retried env sessionId service w s e :
  (∀ k, fails_retryably (generateContentStream env k)) →
  sessionId ≠ "" →
  Run.session w sessionId = Some s →
  expiresAt s = Some e →
  (clock (Upload.analyzeWithRetry env sessionId service 0 w) <= e)%Z →
  let w' := Upload.analyzeWithRetry env sessionId service 0 w in
  let result := Sse.retry sessionId w' in
  http_status result.2 = 400%nat ∧
  http_code result.2 = Some "MAX_RETRIES_EXCEEDED" ∧
  Run.session result.1 sessionId = Run.session w' sessionId ∧
  effects result.1 = effects w' ∧
  calls result.1 = calls w'.
Proof.
  intros Hall Hid Hs He Hclock. cbn zeta.
  destruct (upload_exhausted_run env sessionId service w Hall)
    as (w4 & error & Hretry & Hrun & Hcalls & Hexp).
  rewrite Hrun in *.
  destruct (Hexp e) as (s4 & Hs4 & He4); [by exists s|].
  assert (clock (Upload.giveUp sessionId (GeminiService.rethrown error) 3 w4) = clock w4)
    as Hclk by done.
  rewrite Hclk in Hclock.
  assert (∃ s', Run.session (Upload.giveUp sessionId (GeminiService.rethrown error) 3 w4)
                  sessionId = Some s' ∧
                status s' = "error" ∧ retryCount s' = 4%nat ∧ expiresAt s' = Some e)
    as (s' & Hs' & Hst & Hrc & He').
  { eexists. split.
    - unfold Upload.giveUp, Run.session, Run.emit. cbn [manager].
      apply (run_updateSession_live sessionId _ w4 s4 e Hid Hs4 He4 Hclock).
    - cbn. by rewrite He4. }
  destruct (sse_retry_guards sessionId _ s' e Hid Hs' He') as (_ & Hmax & _); [by rewrite Hclk|].
  destruct (Hmax Hst) as (H1 & H2 & H3 & _ & H4 & H5); [lia|].
  cbn zeta in *. by rewrite Hs'.
Qed.

Lemma exhausted_run_cannot_be_retried_witness :
  let w' := Upload.analyzeWithRetry (Sample.env (λ _, Sample.rate_limited) Sample.extraction)
              "u1" Sample.service 0 Sample.world in
  let result := Sse.retry "u1" w' in
  http_status result.2 = 400%nat ∧
  http_code result.2 = Some "MAX_RETRIES_EXCEEDED" ∧
  Run.session result.1 "u1" = Run.session w' "u1" ∧
  effects result.1 = effects w' ∧
  calls result.1 = calls w'.
Proof.
  apply (exhausted_run_cannot_be_retried
           (Sample.env (λ _, Sample.rate_limited) Sample.extraction)
           "u1" Sample.service Sample.world Sample.session 3600000).
  - apply always_rate_limited.
  - discriminate.
  - reflexivity.
  - reflexivity.
  - vm_compute. discriminate.
Defined.

Lemma getActiveSessions_get (now : Z) (st : SessionManager.t) :
  SessionManager.sessions (SessionManager.getActiveSessions now st).1
  = SessionManager.sessions st ∧
  ∀ id s, SessionManager.get st id = Some s →
          SessionManager.get (SessionManager.getActiveSessions now st).1 id = Some s.
Proof.
  unfold SessionManager.getActiveSessions.
  apply (fold_left_invariant
           (λ acc : SessionManager.t * list (loc * Session),
              SessionManager.sessions acc.1 = SessionManager.sessions st ∧
              ∀ id s, SessionManager.get st id = Some s →
                      SessionManager.get acc.1 id = Some s)); [|done].
  intros [a copies] entry [Hsess Hget]. unfold SessionManager.active_entry.
  destruct (SessionManager.heap a !! entry.2) as [session|]; [|done].
  destruct (SessionManager.isSessionExpired now (Some session)); [done|].
  destruct (SessionManager.alloc session a) as [a' l] eqn:Halloc.
  assert (a' = (SessionManager.alloc session a).1) as -> by (by rewrite Halloc).
  cbn [fst] in *. split; [done|].
  intros id s Hs. by apply alloc_get_old, Hget.
Qed.






(** X26. [GET /api/events/:sessionId] for a session that is not stored,
    or whose expiry has passed, answers 404 with [SESSION_NOT_FOUND]:
    no header and no event is written, nothing is attached, and the
    expired session is evicted.  With an empty id the answer is 400 and
    nothing changes at all.  In both cases the other sessions are as
    they were. *)
Theorem connect_rejects_unknown_session (toISOString : Z → string) (now : Z) (id : string)
    (res : loc) (sm : SessionManager.t) (sse : SSEManager.t) :
  SessionManager.sessions sm !! id = None ∨
  (∃ s, SessionManager.get sm id = Some s ∧
        SessionManager.isSessionExpired now (Some s) = true) ∨
  id = "" →
  ∃ sm' reply,
    Sse.connect toISOString now id res sm sse = Return (sm', sse, Some reply) ∧
    http_status reply = (if String.eqb id "" then 400 else 404)%nat ∧
    http_code reply
    = Some (if String.eqb id "" then "INVALID_SESSION_ID" else "SESSION_NOT_FOUND") ∧
    (id ≠ "" → SessionManager.get sm' id = None) ∧
    (id = "" → sm' = sm) ∧
    ∀ other s', other ≠ id → SessionManager.get sm other = Some s' →
                SessionManager.get sm' other = Some s'.
Proof.
  intros Hcase. unfold Sse.connect.
  destruct (String.eqb id "") eqn:Hid.
  { eexists _, _. split; [reflexivity|]. apply String.eqb_eq in Hid.
    split_and!; try done. }
  apply String.eqb_neq in Hid.
  destruct (getActiveSessions_get now sm) as [Hsess Hact].
  destruct (SessionManager.getActiveSessions now sm) as [sm1 active]. cbn [fst] in *.
  unfold SessionManager.getSession. rewrite (invalidId_false _ Hid).
  destruct Hcase as [Habsent|[(s & Hs & Hexp)|Hempty]]; [| |done].
  - assert (SessionManager.get sm1 id = None) as ->.
    { unfold SessionManager.get. by rewrite Hsess, Habsent. }
    eexists _, _. split; [reflexivity|]. split_and!; try done.
    + intros _. unfold SessionManager.get. by rewrite Hsess, Habsent.
    + intros other s' _ Ho. by apply Hact.
  - rewrite (Hact id s Hs), Hexp. cbn [fst].
    eexists _, _. split; [reflexivity|].
    unfold SessionManager.deleteSession. rewrite (invalidId_false _ Hid). cbn [fst].
    split_and!; try done.
    + intros _. unfold SessionManager.get. cbn. by rewrite lookup_delete_eq.
    + intros other s' Hne Ho. apply Hact in Ho. unfold SessionManager.get in *. cbn.
      by rewrite lookup_delete_ne.
Qed.

Lemma connect_rejects_unknown_session_witness :
  ∃ sm' reply,
    Sse.connect (λ _, "T") 3600001 "u1" 3%nat Sample.store Sample.audience
    = Return (sm', Sample.audience, Some reply) ∧
    http_status reply = (if String.eqb "u1" "" then 400 else 404)%nat ∧
    http_code reply
    = Some (if String.eqb "u1" "" then "INVALID_SESSION_ID" else "SESSION_NOT_FOUND") ∧
    ("u1" ≠ "" → SessionManager.get sm' "u1" = None) ∧
    ("u1" = "" → sm' = Sample.store) ∧
    ∀ other s', other ≠ "u1" → SessionManager.get Sample.store other = Some s' →
                SessionManager.get sm' other = Some s'.
Proof.
  apply (connect_rejects_unknown_session (λ _, "T") 3600001 "u1" 3%nat
           Sample.store Sample.audience).
  right. left. exists Sample.session. split; reflexivity.
Defined.

(** X27. [DELETE /api/events/:sessionId] with a non-empty id answers 200
    whether or not the session has any connection; afterwards the
    session has none, every response that was attached to it is
    destroyed or finished, and an event broadcast to the session is
    dropped: it reaches nobody and changes nothing.  With an empty id
    the answer is 400 and nothing changes. *)
Theorem close_route_silences_session (now : Z) (id eventType : string)
    (data : gmap string value) (sse : SSEManager.t) :
  let result := Sse.close id sse in
  (id = "" →
   result.1 = sse ∧ http_status result.2 = 400%nat ∧
   http_code result.2 = Some "INVALID_SESSION_ID") ∧
  (id ≠ "" →
   http_status result.2 = 200%nat ∧
   SSEManager.getConnectionCount result.1 id = 0%nat ∧
   (∀ res, attached sse id res →
           Res.closed (SSEManager.responses result.1 res) = true) ∧
   (∀ res, ¬ attached sse id res →
           SSEManager.responses result.1 res = SSEManager.responses sse res) ∧
   SSEManager.broadcastToSession now id eventType data result.1 = result.1).
Proof.
  cbn zeta. unfold Sse.close. split.
  - intros ->. done.
  - intros Hid. rewrite (proj2 (String.eqb_neq _ _) Hid). cbn [fst snd http_status].
    destruct (closeSessionConnections_spec id sse) as (Hc & Hin & Hout).
    split_and!.
    + done.
    + unfold SSEManager.getConnectionCount. by rewrite Hc, lookup_delete_eq.
    + intros res Hres. rewrite (Hin res Hres). apply closing_closed.
    + done.
    + unfold SSEManager.broadcastToSession.
      destruct (String.eqb id "" || String.eqb eventType ""); [done|].
      by rewrite Hc, lookup_delete_eq.
Qed.
